(** * Zippy the Dict: layout detection and word extraction

    A shallow embedding of the classification-and-extraction pipeline of
    [zippy.py]: the Unicode-script classifier, the layout detectors, the
    per-layout extraction strategies and the StarDict index parser, with
    the properties stated about them.

    Conventions of the embedding:
    - a Python [str] is a list of code points ([text]); identifiers the
      program only compares (roles, pattern names, script names) are
      [string]s;
    - [bytes] are [list byte];
    - list indexing [l[i]] is [getitem], which raises [IndexError] out of
      range, and code that indexes lives in the [result] monad;
    - [while] loops take fuel and raise [OutOfFuel] when it runs out; the
      entry points supply enough fuel, which is proved;
    - integer indices are [nat]; every [len(lines) - k] of the source is
      only compared with, or used as the bound of, non-negative indices, where
      truncated subtraction gives the same answers;
    - the character database behind [str.isalpha], [str.lower] and the
      like is a parameter ([UnicodeDB]) beyond ASCII, and the global
      [POS_FILTERS], which the command line may change before the pipeline
      runs, is a parameter ([filters]) of the functions that read it. *)

From Stdlib Require Import List NArith ZArith Arith Bool String Ascii Lia.
From Stdlib Require Import Strings.Byte.
Import ListNotations.

Abbreviation length := List.length.

(* ===================================================================== *)
(** ** Exceptions and the result monad *)

Inductive exn : Type := IndexError | OutOfFuel.

Inductive result (A : Type) : Type :=
| Ok (a : A)
| Raise (e : exn).

Arguments Ok {A} a.
Arguments Raise {A} e.

Definition bind {A B} (m : result A) (k : A -> result B) : result B :=
  match m with
  | Ok a => k a
  | Raise e => Raise e
  end.

Notation "x <- m ;; k" := (bind m (fun x => k))
  (at level 61, m at next level, right associativity).

(** [l[i]] for a non-negative [i]. *)
Definition getitem {A} (l : list A) (i : nat) : result A :=
  match nth_error l i with
  | Some a => Ok a
  | None => Raise IndexError
  end.

(** [range(a, b)]. *)
Definition py_range (a b : nat) : list nat := seq a (b - a).

(* ===================================================================== *)
(** ** Python strings *)

Definition cp := N.
Bind Scope N_scope with cp.
Definition text := list cp.

Definition cp_between (lo hi c : cp) : bool := ((lo <=? c) && (c <=? hi))%N.

Definition is_cont (b : cp) : bool := cp_between 0x80 0xBF b.

(** [bytes.decode('utf-8', errors='ignore')]: well-formed sequences decode
    to their code point; on an ill-formed sequence the decoder drops bytes
    and resumes.  Python drops the maximal ill-formed prefix; the bytes of
    that prefix after the first are continuation bytes, which are themselves
    dropped when scanning resumes one byte later, so resuming after the lead
    byte gives the same text. *)
Fixpoint utf8_ignore (bs : list N) : text :=
  match bs with
  | [] => []
  | b0 :: r0 =>
    if (b0 <? 0x80)%N then b0 :: utf8_ignore r0
    else if cp_between 0xC2 0xDF b0 then
      match r0 with
      | b1 :: r1 =>
        if is_cont b1
        then ((b0 - 0xC0) * 64 + (b1 - 0x80))%N :: utf8_ignore r1
        else utf8_ignore r0
      | [] => []
      end
    else if cp_between 0xE0 0xEF b0 then
      match r0 with
      | b1 :: b2 :: r2 =>
        if cp_between (if (b0 =? 0xE0)%N then 0xA0 else 0x80)
                      (if (b0 =? 0xED)%N then 0x9F else 0xBF) b1
           && is_cont b2
        then ((b0 - 0xE0) * 4096 + (b1 - 0x80) * 64 + (b2 - 0x80))%N
             :: utf8_ignore r2
        else utf8_ignore r0
      | _ => utf8_ignore r0
      end
    else if cp_between 0xF0 0xF4 b0 then
      match r0 with
      | b1 :: b2 :: b3 :: r3 =>
        if cp_between (if (b0 =? 0xF0)%N then 0x90 else 0x80)
                      (if (b0 =? 0xF4)%N then 0x8F else 0xBF) b1
           && is_cont b2 && is_cont b3
        then ((b0 - 0xF0) * 262144 + (b1 - 0x80) * 4096
              + (b2 - 0x80) * 64 + (b3 - 0x80))%N :: utf8_ignore r3
        else utf8_ignore r0
      | _ => utf8_ignore r0
      end
    else utf8_ignore r0
  end.

Definition decode_utf8_ignore (bs : list byte) : text :=
  utf8_ignore (map Byte.to_N bs).

(** A string literal of the source, as the text Python reads from the
    UTF-8 source file. *)
Definition py (s : string) : text := decode_utf8_ignore (list_byte_of_string s).

Definition text_eqb (a b : text) : bool :=
  if list_eq_dec N.eq_dec a b then true else false.

Definition is_empty (s : text) : bool :=
  match s with [] => true | _ => false end.

(** [x in xs] for a list, tuple or set of strings. *)
Definition mem (x : text) (xs : list text) : bool := existsb (text_eqb x) xs.

Fixpoint starts_with (p s : text) : bool :=
  match p, s with
  | [], _ => true
  | a :: p', b :: s' => (a =? b)%N && starts_with p' s'
  | _ :: _, [] => false
  end.

Definition ends_with (p s : text) : bool := starts_with (rev p) (rev s).

(** [sub in s] *)
Fixpoint in_ (sub s : text) : bool :=
  starts_with sub s ||
  match s with
  | [] => false
  | _ :: s' => in_ sub s'
  end.

(** [c in s] for a single character [c]. *)
Definition has_cp (c : cp) (s : text) : bool := existsb (N.eqb c) s.

Fixpoint drop_while (p : cp -> bool) (s : text) : text :=
  match s with
  | [] => []
  | c :: s' => if p c then drop_while p s' else s
  end.

Definition lstrip_by (p : cp -> bool) (s : text) : text := drop_while p s.
Definition rstrip_by (p : cp -> bool) (s : text) : text :=
  rev (drop_while p (rev s)).
Definition strip_by (p : cp -> bool) (s : text) : text :=
  rstrip_by p (lstrip_by p s).

(** The characters for which [str.isspace] holds; [str.strip()],
    [str.split()] and the regular expression class [\s] use the same set. *)
Definition isspace (c : cp) : bool :=
  cp_between 0x09 0x0D c || cp_between 0x1C 0x20 c
  || (c =? 0x85)%N || (c =? 0xA0)%N || (c =? 0x1680)%N
  || cp_between 0x2000 0x200A c || (c =? 0x2028)%N || (c =? 0x2029)%N
  || (c =? 0x202F)%N || (c =? 0x205F)%N || (c =? 0x3000)%N.

(** [s.strip()] *)
Definition strip (s : text) : text := strip_by isspace s.

(** [s.strip(chars)] *)
Definition strip_chars (chars s : text) : text :=
  strip_by (fun c => has_cp c chars) s.

(** [s.rstrip('\n')] *)
Definition rstrip_nl (s : text) : text := rstrip_by (N.eqb 0x0A) s.

(** [re.split] for a pattern [[P]+|[Q]+] of two character classes: the
    fields between maximal runs of one class; a run of one class directly
    followed by a run of the other leaves an empty field between them, and
    a separator at either end of the string leaves an empty field there.
    [st] is [None] inside a field, [Some true] inside a run of [P] and
    [Some false] inside a run of [Q]; [cur] is the current field,
    reversed. *)
Fixpoint re_split_aux (P Q : cp -> bool) (cur : text) (st : option bool)
    (s : text) : list text :=
  match s with
  | [] => [rev cur]
  | c :: s' =>
    if P c then
      match st with
      | Some true => re_split_aux P Q [] (Some true) s'
      | _ => rev cur :: re_split_aux P Q [] (Some true) s'
      end
    else if Q c then
      match st with
      | Some false => re_split_aux P Q [] (Some false) s'
      | _ => rev cur :: re_split_aux P Q [] (Some false) s'
      end
    else re_split_aux P Q (c :: cur) None s'
  end.

Definition re_split2 (P Q : cp -> bool) (s : text) : list text :=
  re_split_aux P Q [] None s.

(** [re.split] for a pattern [[P]+]. *)
Definition re_split (P : cp -> bool) (s : text) : list text :=
  re_split2 P (fun _ => false) s.

(** [s.split()]: the non-empty fields between runs of whitespace. *)
Definition split_ws (s : text) : list text :=
  filter (fun f => negb (is_empty f)) (re_split isspace s).

(** [s.split(c)[0]] for a one-character separator: the part of [s] before
    the first [c] (all of [s] when there is none). *)
Fixpoint split_head (c : cp) (s : text) : text :=
  match s with
  | [] => []
  | d :: s' => if (d =? c)%N then [] else d :: split_head c s'
  end.

(** [s.replace(old, new)] for a non-empty [old]; [skip] counts the
    characters of a match still to be passed over. *)
Fixpoint replace_aux (old new : text) (skip : nat) (s : text) : text :=
  match s with
  | [] => []
  | c :: s' =>
    match skip with
    | S k => replace_aux old new k s'
    | O =>
      if starts_with old s
      then new ++ replace_aux old new (length old - 1) s'
      else c :: replace_aux old new 0 s'
    end
  end.

Definition replace (old new s : text) : text := replace_aux old new 0 s.

(** [string.punctuation]: the ASCII characters 33-47, 58-64, 91-96 and
    123-126. *)
Definition is_punctuation (c : cp) : bool :=
  cp_between 33 47 c || cp_between 58 64 c
  || cp_between 91 96 c || cp_between 123 126 c.

(* --------------------------------------------------------------------- *)
(** *** The Unicode character database

    [str.isalpha], [str.isdigit], [str.isalnum], [str.lower] and
    [str.upper] consult the character database of the Python runtime.  On
    ASCII their answers are fixed and computed here; beyond ASCII they are
    read from the database, which the development takes as a parameter. *)

Class UnicodeDB : Type := {
  udb_isalpha : cp -> bool;
  udb_isdigit : cp -> bool;
  udb_isalnum : cp -> bool;
  udb_lower : text -> text;
  udb_upper : text -> text
}.

Definition ascii_upper_letter (c : cp) : bool := cp_between 65 90 c.
Definition ascii_lower_letter (c : cp) : bool := cp_between 97 122 c.
Definition ascii_digit (c : cp) : bool := cp_between 48 57 c.
Definition is_ascii (c : cp) : bool := (c <? 128)%N.

(** Code points with no case mapping in any version of the database: ASCII
    non-letters need no entry here; the block of spacing modifier letters
    (U+02B0 to U+02FF, which holds the IPA stress marks) is caseless. *)
Definition is_caseless_modifier (c : cp) : bool := cp_between 0x2B0 0x2FF c.

Definition ascii_lower (c : cp) : cp :=
  if ascii_upper_letter c then (c + 32)%N else c.
Definition ascii_upper (c : cp) : cp :=
  if ascii_lower_letter c then (c - 32)%N else c.

Section Unicode.
Context {U : UnicodeDB}.

Definition cp_isalpha (c : cp) : bool :=
  if is_ascii c then ascii_upper_letter c || ascii_lower_letter c
  else udb_isalpha c.

Definition cp_isdigit (c : cp) : bool :=
  if is_ascii c then ascii_digit c else udb_isdigit c.

Definition cp_isalnum (c : cp) : bool :=
  if is_ascii c
  then ascii_upper_letter c || ascii_lower_letter c || ascii_digit c
  else udb_isalnum c.

(** [s.isalpha()]: non-empty and every character alphabetic. *)
Definition isalpha (s : text) : bool :=
  negb (is_empty s) && forallb cp_isalpha s.

(** [s.lower()] *)
Definition lower (s : text) : text :=
  if forallb (fun c => is_ascii c || is_caseless_modifier c) s
  then map ascii_lower s
  else udb_lower s.

(** [s.upper()] *)
Definition upper (s : text) : text :=
  if forallb (fun c => is_ascii c || is_caseless_modifier c) s
  then map ascii_upper s
  else udb_upper s.
End Unicode.

(** A database for running examples: the runtime's database restricted
    to the code points below U+0100.  Beyond them it knows no letter, digit
    or case mapping, which the examples never reach. *)
Definition latin1_letter (c : cp) : bool :=
  (c =? 0xAA)%N || (c =? 0xB5)%N || (c =? 0xBA)%N
  || (cp_between 0xC0 0xFF c && negb (c =? 0xD7)%N && negb (c =? 0xF7)%N).

Definition latin1_digit (c : cp) : bool :=
  cp_between 0xB2 0xB3 c || (c =? 0xB9)%N.

Definition latin1_lower (c : cp) : text :=
  if cp_between 0xC0 0xDE c && negb (c =? 0xD7)%N then [ (c + 32)%N ]
  else [ ascii_lower c ].

Definition latin1_upper (c : cp) : text :=
  if (c =? 0xB5)%N then [ 0x39C%N ]
  else if (c =? 0xDF)%N then [ 0x53%N; 0x53%N ]
  else if (c =? 0xFF)%N then [ 0x178%N ]
  else if cp_between 0xE0 0xFE c && negb (c =? 0xF7)%N then [ (c - 32)%N ]
  else [ ascii_upper c ].

Definition latin1_db : UnicodeDB := {|
  udb_isalpha := latin1_letter;
  udb_isdigit := latin1_digit;
  udb_isalnum :=
    fun c => latin1_letter c || latin1_digit c || cp_between 0xBC 0xBE c;
  udb_lower := flat_map latin1_lower;
  udb_upper := flat_map latin1_upper
|}.

(** A character constant. *)
Definition ch (a : ascii) : cp := N_of_ascii a.
Arguments ch a%_char.

(* ===================================================================== *)
(** ** Configuration *)

(** [UNICODE_RANGES] *)
Definition UNICODE_RANGES : list (string * (cp * cp)) :=
  [ ("devanagari"%string, (0x0900, 0x097F)%N);
    ("arabic"%string, (0x0600, 0x06FF)%N);
    ("cyrillic"%string, (0x0400, 0x04FF)%N);
    ("cjk_hiragana"%string, (0x3040, 0x309F)%N);
    ("cjk_katakana"%string, (0x30A0, 0x30FF)%N);
    ("cjk_unified"%string, (0x4E00, 0x9FAF)%N) ].

(** A dictionary lookup [d.get(k)] on an association list. *)
Fixpoint assoc {V} (k : string) (d : list (string * V)) : option V :=
  match d with
  | [] => None
  | (k', v) :: d' => if String.eqb k k' then Some v else assoc k d'
  end.

(** [HEADER_PATTERNS['prefixes']] *)
Definition HEADER_PREFIXES : list text :=
  map py
    [ "#"; "00-database"; "Author:"; "Maintainer:"; "Edition:"; "Size:";
      "Publisher:"; "Availability:"; "Copyright"; "This program";
      "Published"; "ID#"; "Series:"; "Changelog:"; "*"; "Notes:";
      "Source(s):"; "Database Status:"; "The Project:" ]%string.

(** [HEADER_PATTERNS['keywords']] *)
Definition HEADER_KEYWORDS : list text :=
  map py
    [ "freedict"; "dictionary"; "license"; "copyright";
      "available"; "foundation"; "version"; "ver."; "converted";
      "imported"; "makefile"; "initial"; "michael bunk";
      "piotr bański"; "conversion of tei"; "tools/xsl";
      "manual clean-up"; "stable" ]%string.

(** [YEAR_PATTERN]: [20(?:05|10|18|19|20|21|22|23|24)]. *)
Definition YEARS : list text :=
  map py [ "2005"; "2010"; "2018"; "2019"; "2020"; "2021"; "2022";
           "2023"; "2024" ]%string.

Definition contains_year (line : text) : bool :=
  existsb (fun y => in_ y line) YEARS.

(** The POS filter configuration: [include] is the list under the key
    ['include'] (empty when the key is absent or its list is empty) and
    [skip_plurals] the flag under ['skip_plurals'] (false when absent). *)
Record pos_filters : Type := {
  include : list text;
  skip_plurals : bool
}.

(** [POS_FILTERS], as the module defines it. *)
Definition POS_FILTERS : pos_filters := {|
  include := map py [ "n"; "adj"; "adv"; "v" ]%string;
  skip_plurals := true
|}.

(** [ENGLISH_STOPWORDS] *)
Definition ENGLISH_STOPWORDS : list text :=
  map py
    [ "the"; "and"; "of"; "or"; "in"; "to"; "for"; "with";
      "from"; "by"; "at"; "on"; "an"; "as"; "be"; "is";
      "are"; "was"; "were"; "been"; "have"; "has"; "had";
      "will"; "would"; "could"; "should"; "may"; "might";
      "can"; "must" ]%string.

(* ===================================================================== *)
(** ** Script classifier, character level *)

Definition is_script_character (c : cp) (script : string) : bool :=
  match assoc script UNICODE_RANGES with
  | None => false
  | Some (start, end_) => cp_between start end_ c
  end.

Definition contains_script (t : text) (script : string) : bool :=
  existsb (fun c => is_script_character c script) t.

Definition is_cjk_character (c : cp) : bool :=
  existsb (fun script => is_script_character c script)
    [ "cjk_hiragana"; "cjk_katakana"; "cjk_unified" ]%string.

Definition contains_cjk (t : text) : bool := existsb is_cjk_character t.

(* ===================================================================== *)
(** ** Normalizer, validator and line predicates *)

(** [clean_word]: [word.strip(string.punctuation)]. *)
Definition clean_word (word : text) : text := strip_by is_punctuation word.

(** The class of [_NORMALIZE_RE], [[-‐'.,/ ]]. *)
Definition normalize_class (c : cp) : bool := has_cp c (py "-‐'.,/ ").

(** [normalize_word]: every run of the class is replaced by nothing. *)
Definition normalize_word (word : text) : text :=
  filter (fun c => negb (normalize_class c)) word.

(** The class of [_IPA_MARKER_RE]. *)
Definition ipa_marker (c : cp) : bool :=
  has_cp c (py "ɐəɪɛɜːʃɹɔɑɒæʌʔɘɯɤɞɨʊʉɵɶœøɛ̃ɔ̃ɑ̃ˈˌ").

(** The class inside [PRONUNCIATION_SIMPLE_RE]. *)
Definition simple_phonetic (c : cp) : bool :=
  ascii_lower_letter c || ascii_upper_letter c
  || has_cp c (py "ɛɔɑɪəɔ̃ɑ̃ɛ̃").

(** [PRONUNCIATION_SIMPLE_RE.search]: a slash, one or more characters of
    the class, a slash.  [st] is [None] before any slash, [Some false]
    right after a slash and [Some true] after a slash and at least one
    character of the class. *)
Fixpoint pronunciation_simple_aux (st : option bool) (s : text) : bool :=
  match s with
  | [] => false
  | c :: s' =>
    if (c =? ch "/")%N then
      match st with
      | Some true => true
      | _ => pronunciation_simple_aux (Some false) s'
      end
    else if simple_phonetic c then
      pronunciation_simple_aux
        (match st with Some _ => Some true | None => None end) s'
    else pronunciation_simple_aux None s'
  end.

Definition pronunciation_simple_search (s : text) : bool :=
  pronunciation_simple_aux None s.

Definition has_pronunciation_markers (line : text) : bool :=
  if negb (in_ (py "/") line) then false
  else if existsb ipa_marker line then true
  else if pronunciation_simple_search line then true
  else false.

(** [_TRANSLATE_MAP] *)
Definition translate_map (c : cp) : cp :=
  if has_cp c (py ",،、~") then ch " " else c.

Definition translate (s : text) : text := map translate_map s.

(** [re.findall(r'<([^>]+)>', line)]: [st] is [Some acc] after an opening
    bracket, with the characters read since then in [acc], reversed. *)
Fixpoint extract_pos_tags_aux (st : option text) (s : text) : list text :=
  match s with
  | [] => []
  | c :: s' =>
    match st with
    | None =>
      if (c =? ch "<")%N then extract_pos_tags_aux (Some []) s'
      else extract_pos_tags_aux None s'
    | Some acc =>
      if (c =? ch ">")%N then
        match acc with
        | [] => extract_pos_tags_aux None s'
        | _ => rev acc :: extract_pos_tags_aux None s'
        end
      else extract_pos_tags_aux (Some (c :: acc)) s'
    end
  end.

Definition extract_pos_tags (line : text) : list text :=
  extract_pos_tags_aux None line.

Definition base_pos_types : list text :=
  map py [ "n"; "adj"; "adv"; "v"; "pl" ]%string.

Definition extended_pos_types : list text :=
  map py
    [ "pn"; "phraseologicalUnit"; "interjection"; "preposition"; "pronoun";
      "conjunction"; "numeral"; "determiner"; "int"; "prep"; "pron";
      "conj"; "num"; "vt"; "vi"; "art" ]%string.

(** The denylist of [is_valid_word]. *)
Definition TECHNICAL_ABBREVIATIONS : list text :=
  map py [ "ADN"; "ARN"; "ATP"; "ADSL"; "USB"; "DVD"; "AAO"; "ABP";
           "AFI"; "AMPA"; "ACS"; "ANPE"; "ATB" ]%string.

(** The accented letters [is_valid_word] lets through. *)
Definition VALID_EXTRA : text :=
  py "'-áàâäéèêëíìîïóòôöúùûüýÿñçłśźżąęćńłžčšđ".

Section Words.
Context {U : UnicodeDB}.

Definition is_header_line (line : text) : bool :=
  let line_lower := lower line in
  if existsb (fun p => starts_with p line) HEADER_PREFIXES then true
  else existsb (fun keyword => in_ keyword line_lower) HEADER_KEYWORDS.

Definition extract_base_pos_types (pos_tag : text) : list text :=
  let parts :=
    re_split (fun c => (c =? ch ",")%N || isspace c) (strip pos_tag) in
  flat_map
    (fun part =>
       let part := strip (lower part) in
       if mem part base_pos_types then [part]
       else if mem part extended_pos_types then [part]
       else [])
    parts.

Definition should_include_word_by_pos (line : text) (filters : pos_filters)
  : bool :=
  match include filters with
  | [] => true
  | include_types =>
    match extract_pos_tags line with
    | [] => true
    | pos_tags =>
      if skip_plurals filters
         && existsb (fun tag => mem (py "pl") (extract_base_pos_types tag))
              pos_tags
      then false
      else existsb
             (fun tag =>
                existsb (fun base_type => mem base_type include_types)
                  (extract_base_pos_types tag))
             pos_tags
    end
  end.

(** [is_valid_word].  The test [count < len(word) * 0.6] is written on
    integers, [5 * count < 3 * len(word)]. *)
Definition is_valid_word (word : text) : bool :=
  if is_empty word || (length word <? 3) then false
  else
    let word := strip word in
    if is_empty word || (length word <? 3) then false
    else if mem (upper word) TECHNICAL_ABBREVIATIONS then false
    else if 5 * length (filter cp_isalnum word) <? 3 * length word
    then false
    else forallb
           (fun c => cp_isalnum c || isspace c || has_cp c VALID_EXTRA)
           word.

Definition extract_pronunciation_word (line : text) : option text :=
  if negb (in_ (py "/") line) then None
  else
    let word := strip (split_head (ch "/") line) in
    if is_empty word || (length word <? 1) then None
    else
      let clean := normalize_word word in
      if (2 <=? length clean) && isalpha clean
         && negb (existsb cp_isdigit word)
      then Some word
      else None.

Definition extract_simple_translation_words (translation : text)
  : list text :=
  let parts := translate translation in
  flat_map
    (fun word =>
       let clean := clean_word word in
       if isalpha clean then [clean] else [])
    (split_ws parts).
End Words.

(** The script ranges of [_yield_words_by_script]. *)
Definition yield_ranges (script : string) : list (cp * cp) :=
  match assoc script
          [ ("arabic"%string, [(0x0600, 0x06FF)%N]);
            ("cyrillic"%string, [(0x0400, 0x04FF)%N]);
            ("devanagari"%string, [(0x0900, 0x097F)%N]) ] with
  | Some r => r
  | None => []
  end.

Definition _yield_words_by_script (line : text) (script : string)
  : list text :=
  if String.eqb script "cjk" then
    let parts :=
      re_split2 (fun c => has_cp c (py ",，、。；;")) isspace (strip line) in
    flat_map
      (fun part =>
         let clean := strip_chars (py ".,，、。；; ") part in
         if negb (is_empty clean) && contains_cjk clean then [clean] else [])
      parts
  else
    let ranges := yield_ranges script in
    flat_map
      (fun word =>
         let clean := clean_word word in
         if negb (is_empty clean) && (2 <=? length clean)
            && forallb
                 (fun c =>
                    existsb (fun r => cp_between (fst r) (snd r) c) ranges
                    || has_cp c (py " -"))
                 clean
         then [clean] else [])
      (split_ws line).

(* ===================================================================== *)
(** ** Script classifier, document level *)

(** A [collections.Counter] with string keys, in insertion order. *)
Definition counter := list (string * nat).

(** [counts[k] += 1] *)
Fixpoint counter_incr (k : string) (c : counter) : counter :=
  match c with
  | [] => [(k, 1)]
  | (k', n) :: c' =>
    if String.eqb k k' then (k', S n) :: c' else (k', n) :: counter_incr k c'
  end.

(** [counts.pop(k, None)] *)
Definition counter_pop (k : string) (c : counter) : counter :=
  filter (fun kv => negb (String.eqb k (fst kv))) c.

(** [counts.get(k)], for a key of the counter. *)
Definition counter_get (c : counter) (k : string) : nat :=
  match assoc k c with
  | Some n => n
  | None => 0
  end.

(** [max(xs, key=f)] on a non-empty sequence [first :: rest]: the first
    element whose key is maximal. *)
Fixpoint py_max_by (f : string -> nat) (best : string) (rest : list string)
  : string :=
  match rest with
  | [] => best
  | k :: rest' =>
    if f best <? f k then py_max_by f k rest' else py_max_by f best rest'
  end.

(** The [if]/[elif] chain over [ord(char)]: the counter key a character
    adds to, if any. *)
Definition script_of_code (code : cp) : option string :=
  if cp_between 0x0600 0x06FF code then Some "arabic"%string
  else if cp_between 0x0400 0x04FF code then Some "cyrillic"%string
  else if cp_between 0x4E00 0x9FAF code
          || cp_between 0x3040 0x309F code
          || cp_between 0x30A0 0x30FF code then Some "cjk"%string
  else if cp_between 0x0900 0x097F code then Some "devanagari"%string
  else if cp_between 0x0020 0x007F code then Some "latin"%string
  else None.

Definition tally_char (counts : counter) (code : cp) : counter :=
  match script_of_code code with
  | Some k => counter_incr k counts
  | None => counts
  end.

Definition tally_line (counts : counter) (line : text) : counter :=
  fold_left tally_char line counts.

(** The loop over [enumerate(lines)], from index [i]. *)
Fixpoint tally_lines (i : nat) (sample_size : Z) (lines : list text)
    (counts : counter) : counter :=
  match lines with
  | [] => counts
  | line :: lines' =>
    if (sample_size <=? Z.of_nat i)%Z then counts
    else tally_lines (S i) sample_size lines' (tally_line counts line)
  end.

Definition detect_target_language_script (lines : list text)
    (sample_size : Z) : string :=
  let counts := tally_lines 0 sample_size lines [] in
  match counts with
  | [] => "latin"
  | _ =>
    let counts := counter_pop "latin" counts in
    match counts with
    | [] => "latin"
    | (k, _) :: rest => py_max_by (counter_get counts) k (map fst rest)
    end
  end.

(* ===================================================================== *)
(** ** Layout detectors and extraction strategies *)

Definition NON_LATIN_SCRIPTS : list string :=
  [ "arabic"; "cyrillic"; "devanagari"; "cjk" ]%string.

Definition in_strings (x : string) (xs : list string) : bool :=
  existsb (String.eqb x) xs.

Definition SIMPLE_MARKERS : list text :=
  map py [ "/"; "<"; ">"; "1."; "2."; "*" ]%string.

Definition TECHNICAL_TOKENS : list text :=
  map py [ "http"; "www"; "email"; "@"; "creating"; "makefile" ]%string.

Definition ALTERNATING_HEADERS : list text :=
  map py [ "00-database"; "Author:"; "Size:" ]%string.

Definition BRACKET_CHARS : list text :=
  [ [ch "("]; [ch ")"]; [ch "["]; [ch "]"]; [ch "<"]; [ch ">"]; [ch "/"];
    [92%N] ].

Definition HEADER_SKIP_MARKERS : list text :=
  map py [ "/"; "<"; ">"; "*"; "("; ")" ]%string.

Section Pipeline.
Context {U : UnicodeDB}.

(** The value of the global [POS_FILTERS] when the pipeline runs. *)
Variable filters : pos_filters.

(* ------------------------------------------------------------------- *)
(** *** detect_simple_format *)

(** The gate on the first 200 lines. *)
Definition has_pronunciation_pos (lines : list text) : bool :=
  existsb
    (fun line =>
       in_ (py "/") line && in_ (py "<") line && in_ (py ">") line)
    (firstn 200 lines).

(** The test "simple word followed by translation" of the loop body.
    (The flag [found_dictionary_start] of the source is set and never
    read; it is left out.) *)
Definition simple_word_then_translation (line next_line : text) : bool :=
  negb (is_empty line) && negb (is_empty next_line)
  && negb (existsb (fun p => starts_with p line) [ py " "; [9%N] ])
  && negb (existsb (fun marker => in_ marker line) SIMPLE_MARKERS)
  && (length line <=? 30)
  && negb (ends_with (py ":") line)
  && negb (existsb (fun word => in_ word (lower line)) TECHNICAL_TOKENS).

Fixpoint detect_simple_loop (lines : list text) (idxs : list nat)
    (pattern_count : nat) : result bool :=
  match idxs with
  | [] => Ok false
  | i :: idxs' =>
    l <- getitem lines i ;;
    n <- getitem lines (i + 1) ;;
    let line := strip l in
    let next_line := strip n in
    if is_empty line then detect_simple_loop lines idxs' pattern_count
    else if is_header_line line
    then detect_simple_loop lines idxs' pattern_count
    else if contains_year line
    then detect_simple_loop lines idxs' pattern_count
    else if 50 <? length line
    then detect_simple_loop lines idxs' pattern_count
    else if in_ (py ":") line && negb (starts_with (py "-") line)
    then detect_simple_loop lines idxs' pattern_count
    else if simple_word_then_translation line next_line then
      let pattern_count := pattern_count + 1 in
      if 3 <=? pattern_count then Ok true
      else detect_simple_loop lines idxs' pattern_count
    else detect_simple_loop lines idxs' pattern_count
  end.

Definition detect_simple_format (lines : list text) : result bool :=
  if has_pronunciation_pos lines then Ok false
  else
    detect_simple_loop lines
      (py_range 50 (Nat.min 400 (length lines - 1))) 0.

(* ------------------------------------------------------------------- *)
(** *** detect_alternating_pattern *)

Fixpoint alternating_loop (lines : list text) (idxs : list nat)
    (pattern_samples : list string) : result (list string) :=
  match idxs with
  | [] => Ok pattern_samples
  | i :: idxs' =>
    l1 <- getitem lines i ;;
    l2 <- getitem lines (i + 1) ;;
    let line1 := strip l1 in
    let line2 := strip l2 in
    if negb (is_empty line1) && negb (is_empty line2)
       && negb (existsb (fun header => in_ header line1)
                  ALTERNATING_HEADERS)
       && negb (existsb (fun header => in_ header line2)
                  ALTERNATING_HEADERS)
    then
      let has_pronunciation_1 := has_pronunciation_markers line1 in
      let has_pronunciation_2 := has_pronunciation_markers line2 in
      let is_latin_1 := isalpha (normalize_word line1) in
      let is_latin_2 := isalpha (normalize_word line2) in
      let pattern_samples :=
        if has_pronunciation_1 && is_latin_2 && negb has_pronunciation_2
        then pattern_samples ++ [ "source-target"%string ]
        else if has_pronunciation_2 && is_latin_1
                && negb has_pronunciation_1
        then pattern_samples ++ [ "target-source"%string ]
        else pattern_samples in
      if 5 <=? length pattern_samples then Ok pattern_samples
      else alternating_loop lines idxs' pattern_samples
    else alternating_loop lines idxs' pattern_samples
  end.

Definition detect_alternating_pattern (lines : list text) : result string :=
  pattern_samples <-
    alternating_loop lines
      (py_range 50 (Nat.min 200 (length lines - 1))) [] ;;
  match pattern_samples with
  | [] => Ok "unknown"%string
  | _ =>
    let source_target_count :=
      count_occ string_dec pattern_samples "source-target"%string in
    let target_source_count :=
      count_occ string_dec pattern_samples "target-source"%string in
    if target_source_count <? source_target_count
    then Ok "source-target"%string
    else if source_target_count <? target_source_count
    then Ok "target-source"%string
    else Ok "unknown"%string
  end.

(* ------------------------------------------------------------------- *)
(** *** detect_multiline_format *)

(** The test on a stripped triple in the detector's loop body. *)
Definition multiline_triple (line1 line2 line3 : text) : bool :=
  negb (is_empty line1) && negb (is_empty line2) && negb (is_empty line3)
  && in_ (py "/") line1 && in_ (py "<") line1
  && negb (in_ (py "/") line2)
  && (in_ (py ".") line3 || (8 <? length (split_ws line3))).

Fixpoint detect_multiline_loop (lines : list text) (idxs : list nat)
    (multiline_indicators : nat) : result bool :=
  match idxs with
  | [] => Ok false
  | i :: idxs' =>
    l1 <- getitem lines i ;;
    l2 <- getitem lines (i + 1) ;;
    l3 <- getitem lines (i + 2) ;;
    let line1 := strip l1 in
    let line2 := strip l2 in
    let line3 := strip l3 in
    let multiline_indicators :=
      if multiline_triple line1 line2 line3
      then multiline_indicators + 1 else multiline_indicators in
    if 5 <=? multiline_indicators then Ok true
    else detect_multiline_loop lines idxs' multiline_indicators
  end.

Definition detect_multiline_format (lines : list text) : result bool :=
  detect_multiline_loop lines
    (py_range 50 (Nat.min 150 (length lines - 2))) 0.

(* ------------------------------------------------------------------- *)
(** *** Script-driven extraction *)

(** The words one line contributes in
    [extract_words_by_script_detection]. *)
Definition script_detection_line (extract_language target_script : string)
    (line0 : text) : list text :=
  let line := strip line0 in
  if is_empty line || is_header_line line then []
  else if negb (should_include_word_by_pos line filters) then []
  else if String.eqb extract_language "source" then
    if in_ (py "/") line then
      match extract_pronunciation_word line with
      | Some word =>
        if negb (is_empty word) && is_valid_word word then [word] else []
      | None => []
      end
    else if isalpha (normalize_word line)
            && (2 <=? length line)
            && forallb (fun c => (c <? 256)%N) line
            && negb (existsb (cp_between 0x0600 0x06FF) line)
    then [line]
    else []
  else if in_strings target_script NON_LATIN_SCRIPTS then
    if (String.eqb target_script "cjk" && contains_cjk line)
       || (negb (String.eqb target_script "cjk")
           && existsb (fun c => is_script_character c target_script) line)
    then _yield_words_by_script line target_script
    else []
  else if negb (in_ (py "/") line
                && existsb (fun c => has_cp c line) (py "ˈˌɑɛɪəɹθð"))
          && isalpha (normalize_word line)
  then [line]
  else [].

Definition extract_words_by_script_detection (lines : list text)
    (extract_language target_script : string) : list text :=
  flat_map (script_detection_line extract_language target_script) lines.

(* ------------------------------------------------------------------- *)
(** *** Alternating-pattern and multiline extraction *)

(** [word = extract_pronunciation_word(line1)] followed by
    [if word and is_valid_word(word): words.append(word)]. *)
Definition pronunciation_headword (line1 : text) : list text :=
  match extract_pronunciation_word line1 with
  | Some word =>
    if negb (is_empty word) && is_valid_word word then [word] else []
  | None => []
  end.

(** The generator over the counterpart line of an alternating pair. *)
Definition pattern_translation_words (line2 : text) : list text :=
  let cleaned_line :=
    replace (py ";") (py " ") (replace (py ",") (py " ") line2) in
  flat_map
    (fun word =>
       let clean := clean_word word in
       if negb (is_empty clean) && (2 <=? length clean)
          && isalpha (normalize_word clean)
          && forallb (fun c => (c <? 256)%N) clean
       then [clean] else [])
    (split_ws cleaned_line).

(** The generator over the translation line of a multiline entry. *)
Definition multiline_translation_words (line2 : text) : list text :=
  let cleaned_line :=
    replace (py "2.") (py " ")
      (replace (py ";") (py " ") (replace (py ",") (py " ") line2)) in
  flat_map
    (fun word =>
       let clean := clean_word word in
       if negb (is_empty clean) && (3 <=? length clean)
          && isalpha (normalize_word clean)
          && forallb (fun c => (c <? 256)%N) clean
          && negb (mem (lower clean) ENGLISH_STOPWORDS)
       then [clean] else [])
    (split_ws cleaned_line).

(** The [while] loop of [extract_multiline_format_words]. *)
Fixpoint multiline_words_loop (fuel : nat) (lines : list text)
    (extract_language : string) (i : nat) (words : list text)
  : result (list text) :=
  if i <? length lines - 2 then
    match fuel with
    | O => Raise OutOfFuel
    | S fuel' =>
      l1 <- getitem lines i ;;
      l2 <- getitem lines (i + 1) ;;
      l3 <- getitem lines (i + 2) ;;
      let line1 := strip l1 in
      let line2 := strip l2 in
      let line3 := strip l3 in
      if negb (is_empty line1) && negb (is_empty line2)
         && in_ (py "/") line1 && in_ (py "<") line1
         && negb (in_ (py "/") line2) && negb (in_ (py "<") line2)
      then
        if negb (should_include_word_by_pos line1 filters)
        then multiline_words_loop fuel' lines extract_language (i + 1) words
        else
          let words :=
            if String.eqb extract_language "source"
            then words ++ pronunciation_headword line1
            else if String.eqb extract_language "target"
            then words ++ multiline_translation_words line2
            else words in
          multiline_words_loop fuel' lines extract_language (i + 3) words
      else multiline_words_loop fuel' lines extract_language (i + 1) words
    end
  else Ok words.

Definition extract_multiline_format_words (lines : list text)
    (extract_language : string) : result (list text) :=
  multiline_words_loop (length lines) lines extract_language 0 [].

(** The [for] loop of [extract_words_with_pattern_detection]. *)
Fixpoint pattern_words_loop (lines : list text)
    (extract_language pattern : string) (idxs : list nat)
    (words : list text) : result (list text) :=
  match idxs with
  | [] => Ok words
  | i :: idxs' =>
    l1 <- getitem lines i ;;
    l2 <- getitem lines (i + 1) ;;
    let line1 := strip l1 in
    let line2 := strip l2 in
    if is_empty line1 || is_empty line2
       || is_header_line line1 || is_header_line line2
    then pattern_words_loop lines extract_language pattern idxs' words
    else
      let has_pronunciation_1 := has_pronunciation_markers line1 in
      let has_pronunciation_2 := has_pronunciation_markers line2 in
      if String.eqb pattern "source-target" then
        if String.eqb extract_language "source"
           && has_pronunciation_1 && negb has_pronunciation_2
        then
          if negb (should_include_word_by_pos line1 filters)
          then pattern_words_loop lines extract_language pattern idxs' words
          else pattern_words_loop lines extract_language pattern idxs'
                 (words ++ pronunciation_headword line1)
        else if String.eqb extract_language "target"
                && negb has_pronunciation_2 && has_pronunciation_1
        then
          if negb (should_include_word_by_pos line2 filters)
          then pattern_words_loop lines extract_language pattern idxs' words
          else pattern_words_loop lines extract_language pattern idxs'
                 (words ++ pattern_translation_words line2)
        else pattern_words_loop lines extract_language pattern idxs' words
      else if String.eqb pattern "target-source" then
        if String.eqb extract_language "target"
           && has_pronunciation_1 && negb has_pronunciation_2
        then
          if negb (should_include_word_by_pos line1 filters)
          then pattern_words_loop lines extract_language pattern idxs' words
          else pattern_words_loop lines extract_language pattern idxs'
                 (words ++ pronunciation_headword line1)
        else if String.eqb extract_language "source"
                && negb has_pronunciation_2 && has_pronunciation_1
        then
          if negb (should_include_word_by_pos line2 filters)
          then pattern_words_loop lines extract_language pattern idxs' words
          else pattern_words_loop lines extract_language pattern idxs'
                 (words ++ pattern_translation_words line2)
        else pattern_words_loop lines extract_language pattern idxs' words
      else pattern_words_loop lines extract_language pattern idxs' words
  end.

Definition extract_words_with_pattern_detection (lines : list text)
    (extract_language pattern : string) : result (list text) :=
  is_multiline <- detect_multiline_format lines ;;
  if is_multiline then extract_multiline_format_words lines extract_language
  else
    pattern_words_loop lines extract_language pattern
      (py_range 0 (length lines - 1)) [].

(* ------------------------------------------------------------------- *)
(** *** Simple and header-skip extraction *)

(** The source-role word of a headword line, in
    [_extract_simple_format_words] and [_extract_with_header_skip]. *)
Definition simple_source_word (line : text) : list text :=
  let clean_line := clean_word line in
  if negb (is_empty clean_line) && (1 <=? length clean_line)
     && negb (existsb cp_isdigit clean_line)
     && negb (existsb (fun char => in_ char clean_line) BRACKET_CHARS)
     && should_include_word_by_pos line filters
  then [clean_line] else [].

(** [_extract_simple_format_words]: the loop over one iterator, which the
    body advances a second time with [next(iterator, '')]. *)
Fixpoint _extract_simple_format_words (lines : list text)
    (extract_language : string) : list text :=
  match lines with
  | [] => []
  | l :: rest =>
    let line := strip l in
    if is_empty line || is_header_line line
    then _extract_simple_format_words rest extract_language
    else
      let next_line := strip (hd [] rest) in
      (if String.eqb extract_language "source" then simple_source_word line
       else if negb (is_empty next_line)
       then extract_simple_translation_words next_line
       else [])
      ++ match rest with
         | [] => []
         | _ :: rest' => _extract_simple_format_words rest' extract_language
         end
  end.

(** The first loop of [_extract_with_header_skip]: the start index. *)
Fixpoint header_skip_start (lines : list text) (idxs : list nat)
  : result nat :=
  match idxs with
  | [] => Ok 0
  | i :: idxs' =>
    l <- getitem lines i ;;
    let line := strip l in
    if is_empty line || is_header_line line || contains_year line
       || (50 <? length line) || in_ (py ":") line
    then header_skip_start lines idxs'
    else if (length line <=? 30)
            && negb (is_empty (normalize_word line))
            && negb (existsb (fun marker => in_ marker line)
                       HEADER_SKIP_MARKERS)
            && (i + 1 <? length lines)
    then
      n <- getitem lines (i + 1) ;;
      let next_line := strip n in
      if negb (is_empty next_line) && (length line <? length next_line)
      then Ok i
      else header_skip_start lines idxs'
    else header_skip_start lines idxs'
  end.

(** The [while] loop of [_extract_with_header_skip]. *)
Fixpoint header_skip_loop (fuel : nat) (lines : list text)
    (extract_language : string) (i : nat) (words : list text)
  : result (list text) :=
  if i <? length lines - 1 then
    match fuel with
    | O => Raise OutOfFuel
    | S fuel' =>
      l <- getitem lines i ;;
      n <- getitem lines (i + 1) ;;
      let line := strip l in
      let next_line := strip n in
      if is_empty line || is_empty next_line
      then header_skip_loop fuel' lines extract_language (i + 1) words
      else
        let words :=
          if String.eqb extract_language "source"
          then words ++ simple_source_word line
          else if negb (is_empty next_line)
          then words ++ extract_simple_translation_words next_line
          else words in
        header_skip_loop fuel' lines extract_language (i + 2) words
    end
  else Ok words.

Definition _extract_with_header_skip (lines : list text)
    (extract_language : string) : result (list text) :=
  start_idx <- header_skip_start lines (py_range 0 (length lines)) ;;
  header_skip_loop (length lines) lines extract_language start_idx [].

(* ------------------------------------------------------------------- *)
(** *** extract_words_from_gzip_content *)

Definition extract_words_from_gzip_content (lines_iter : list text)
    (extract_language : string) (is_dz_file : bool) : result (list text) :=
  let lines := map rstrip_nl lines_iter in
  let target_script := detect_target_language_script lines 500 in
  if in_strings target_script
       [ "arabic"; "cyrillic"; "cjk"; "devanagari" ]%string
  then Ok (extract_words_by_script_detection lines extract_language
             target_script)
  else
    pattern <- detect_alternating_pattern lines ;;
    if in_strings pattern [ "source-target"; "target-source" ]%string then
      if is_dz_file && String.eqb pattern "target-source" then
        let actual_extract_language :=
          if String.eqb extract_language "source"
          then "target"%string else "source"%string in
        extract_words_with_pattern_detection lines actual_extract_language
          pattern
      else extract_words_with_pattern_detection lines extract_language
             pattern
    else
      simple_format <- detect_simple_format lines ;;
      multiline_format <- detect_multiline_format lines ;;
      if simple_format
      then Ok (_extract_simple_format_words lines extract_language)
      else if multiline_format
      then extract_multiline_format_words lines extract_language
      else _extract_with_header_skip lines extract_language.
End Pipeline.

(* ===================================================================== *)
(** ** Binary index parser

    [extract_words_from_stardict] locates and reads two files and then
    works on their contents; the embedding starts from the two buffers,
    [idx_data] (the decompressed index) and [dict_data].  Decoding with
    [errors='ignore'] raises nothing, and [struct.unpack] is only handed
    8 bytes, so neither [except] clause of the source is ever entered; the
    inner one is kept where [struct.error] would be caught. *)

Definition bytes := list byte.

(** [data[a:b]] for [0 <= a]. *)
Definition slice {A} (data : list A) (a b : nat) : list A :=
  firstn (b - a) (skipn a data).

Fixpoint index_of (b : byte) (data : bytes) : option nat :=
  match data with
  | [] => None
  | x :: data' =>
    if Byte.eqb x b then Some 0 else option_map S (index_of b data')
  end.

(** [data.find(b, pos)], with [None] for [-1]. *)
Definition bytes_find (b : byte) (data : bytes) (pos : nat) : option nat :=
  option_map (Nat.add pos) (index_of b (skipn pos data)).

Definition be_uint32 (a b c d : byte) : N :=
  (Byte.to_N a * 16777216 + Byte.to_N b * 65536
   + Byte.to_N c * 256 + Byte.to_N d)%N.

(** [struct.unpack('>II', buf)]; [None] is [struct.error], raised when
    [buf] is not 8 bytes long. *)
Definition unpack_II (buf : bytes) : option (N * N) :=
  match buf with
  | [a; b; c; d; e; f; g; h] => Some (be_uint32 a b c d, be_uint32 e f g h)
  | _ => None
  end.

Section StarDict.
Context {U : UnicodeDB}.

(** The first [while] loop: the primary parsing pass.  It returns the
    final [pos] and [entries]. *)
Fixpoint parse_index_loop (fuel : nat) (idx_data dict_data : bytes)
    (pos : nat) (entries : list (text * text))
  : result (nat * list (text * text)) :=
  if pos <? length idx_data then
    match fuel with
    | O => Raise OutOfFuel
    | S fuel' =>
      match bytes_find x00 idx_data pos with
      | None => Ok (pos, entries)
      | Some null_pos =>
        let word := decode_utf8_ignore (slice idx_data pos null_pos) in
        let pos := null_pos + 1 in
        if length idx_data <? pos + 8 then Ok (pos, entries)
        else
          match unpack_II (slice idx_data pos (pos + 8)) with
          | None =>
            (* except struct.error: continue *)
            parse_index_loop fuel' idx_data dict_data pos entries
          | Some (offset, size) =>
            let pos := pos + 8 in
            if (offset <? N.of_nat (length dict_data))%N then
              let actual_size :=
                N.min size (N.of_nat (length dict_data) - offset) in
              let definition :=
                decode_utf8_ignore
                  (slice dict_data (N.to_nat offset)
                     (N.to_nat (offset + actual_size))) in
              parse_index_loop fuel' idx_data dict_data pos
                (entries ++ [ (word, definition) ])
            else parse_index_loop fuel' idx_data dict_data pos entries
          end
      end
    end
  else Ok (pos, entries).

(** The second [while] loop: headwords taken directly from the index.
    It returns [words] and [direct_words]. *)
Fixpoint recover_index_loop (fuel : nat) (idx_data : bytes)
    (extract_language : string) (existing_words : list text)
    (pos : nat) (words : list text) (direct_words : nat)
  : result (list text * nat) :=
  if pos <? length idx_data then
    match fuel with
    | O => Raise OutOfFuel
    | S fuel' =>
      match bytes_find x00 idx_data pos with
      | None => Ok (words, direct_words)
      | Some null_pos =>
        let word := decode_utf8_ignore (slice idx_data pos null_pos) in
        let pos := null_pos + 1 in
        if length idx_data <? pos + 8 then Ok (words, direct_words)
        else
          let pos := pos + 8 in
          if String.eqb extract_language "source" then
            let cleaned_word := clean_word word in
            if is_valid_word cleaned_word
               && negb (mem word existing_words)
            then recover_index_loop fuel' idx_data extract_language
                   existing_words pos (words ++ [ cleaned_word ])
                   (direct_words + 1)
            else recover_index_loop fuel' idx_data extract_language
                   existing_words pos words direct_words
          else recover_index_loop fuel' idx_data extract_language
                 existing_words pos words direct_words
      end
    end
  else Ok (words, direct_words).

(** The final [for] loop over the parsed entries. *)
Definition entry_words (extract_language : string)
    (entries : list (text * text)) (words : list text) : list text :=
  fold_left
    (fun words entry =>
       let '(word, definition) := entry in
       if String.eqb extract_language "source" then
         let cleaned_word := clean_word word in
         if is_valid_word cleaned_word then words ++ [ cleaned_word ]
         else words
       else words)
    entries words.

Definition extract_words_from_stardict (idx_data dict_data : bytes)
    (extract_language : string) : result (list text * nat) :=
  parsed <- parse_index_loop (length idx_data) idx_data dict_data 0 [] ;;
  let '(pos, entries) := parsed in
  recovered <-
    (if length entries <? pos / 12 then
       let existing_words := map fst entries in
       recover_index_loop (length idx_data) idx_data extract_language
         existing_words 0 [] 0
     else Ok ([], 0)) ;;
  let '(words, recovered_count) := recovered in
  Ok (entry_words extract_language entries words, recovered_count).
End StarDict.

(* ===================================================================== *)
(** ** Vocabulary of the properties *)

(** The stripped line at index [i] (the empty string outside the
    corpus, where the detectors never look). *)
Definition stripped_at (lines : list text) (i : nat) : text :=
  strip (nth i lines []).

(** The detector's window: [range(50, min(150, len(lines) - 2))]. *)
Definition multiline_window (lines : list text) : list nat :=
  py_range 50 (Nat.min 150 (length lines - 2)).

(** Index [i] starts a triple that the detector counts. *)
Definition multiline_triple_at (lines : list text) (i : nat) : bool :=
  multiline_triple (stripped_at lines i) (stripped_at lines (i + 1))
    (stripped_at lines (i + 2)).

Section SimpleVocabulary.
Context {U : UnicodeDB}.

(** The window [range(50, min(400, len(lines) - 1))]. *)
Definition simple_window (lines : list text) : list nat :=
  py_range 50 (Nat.min 400 (length lines - 1)).

(** A stripped line and its stripped successor pass every test of the
    loop body of [detect_simple_format]. *)
Definition simple_qualifies (line next_line : text) : bool :=
  negb (is_empty line)
  && negb (is_header_line line)
  && negb (contains_year line)
  && (length line <=? 50)
  && negb (in_ (py ":") line && negb (starts_with (py "-") line))
  && simple_word_then_translation line next_line.

Definition simple_qualifies_at (lines : list text) (i : nat) : bool :=
  simple_qualifies (stripped_at lines i) (stripped_at lines (i + 1)).
End SimpleVocabulary.

(** The role the [.dz] special case passes on:
    ["target" if extract_language == "source" else "source"]. *)
Definition opposite_role (extract_language : string) : string :=
  if String.eqb extract_language "source" then "target" else "source".

(** The triple test as the specification words it: line 2 holds neither
    a slash nor an angle bracket. *)
Definition claimed_multiline_triple (line1 line2 line3 : text) : bool :=
  negb (is_empty line1) && negb (is_empty line2) && negb (is_empty line3)
  && in_ (py "/") line1 && in_ (py "<") line1
  && negb (in_ (py "/") line2) && negb (in_ (py "<") line2)
  && (in_ (py ".") line3 || (8 <? length (split_ws line3))).

Definition claimed_multiline_triple_at (lines : list text) (i : nat) : bool :=
  claimed_multiline_triple (stripped_at lines i) (stripped_at lines (i + 1))
    (stripped_at lines (i + 2)).

Section ClaimedSimple.
Context {U : UnicodeDB}.

(** The line test of the simple layout as the specification words it:
    not blank, not a header line, no year, at most 50 characters, no
    colon unless the line starts with a hyphen, none of the markers, no
    technical token, at most 30 characters, a non-blank successor. *)
Definition claimed_simple_qualifies (line next_line : text) : bool :=
  negb (is_empty line)
  && negb (is_header_line line)
  && negb (contains_year line)
  && (length line <=? 50)
  && (negb (in_ (py ":") line) || starts_with (py "-") line)
  && negb (existsb (fun marker => in_ marker line) SIMPLE_MARKERS)
  && negb (existsb (fun word => in_ word (lower line)) TECHNICAL_TOKENS)
  && (length line <=? 30)
  && negb (is_empty next_line).

Definition claimed_simple_qualifies_at (lines : list text) (i : nat)
  : bool :=
  claimed_simple_qualifies (stripped_at lines i)
    (stripped_at lines (i + 1)).
End ClaimedSimple.

(* --------------------------------------------------------------------- *)
(** *** Corpora *)

Definition casa_line : text := py "casa /ˈkasa/ <n>".
Definition house_line : text := py "house".

(** 60 lines: [casa_line] at 50, 52, 54, [house_line] at 51, 53, 55, the
    rest blank. *)
Definition corpus60 : list text :=
  repeat [] 50
  ++ [ casa_line; house_line; casa_line; house_line; casa_line; house_line ]
  ++ repeat [] 4.

(** Translation lines before headword lines, two pairs. *)
Definition corpus_target_source : list text :=
  repeat [] 50
  ++ [ house_line; casa_line; house_line; casa_line ]
  ++ repeat [] 6.

(** Five triples whose second line holds angle brackets. *)
Definition corpus_bracketed_translations : list text :=
  repeat [] 50
  ++ List.concat (repeat [ py "word /w/ <n>"; py "palabra <b>"; py "A term." ] 5).

(** Short words after a first line that holds a slash and both brackets. *)
Definition corpus_gated : list text :=
  [ py "/<>" ] ++ repeat [] 49 ++ repeat (py "ab") 6.

(** Hyphen-initial lines that end in a colon. *)
Definition corpus_hyphen_colon : list text :=
  repeat [] 50 ++ repeat (py "-a:") 6.

Definition corpus_short_words : list text :=
  repeat [] 50 ++ repeat (py "ab") 6.

Definition corpus_two_lines : list text := [ py "ab"; py "abc def" ].

(** Four pairs of a pronunciation line and its translation. *)
Definition corpus_casa_house_pairs : list text :=
  repeat [] 50 ++ List.concat (repeat [ py "casa /kasa/"; py "house" ] 4).

(** Short words in Cyrillic script. *)
Definition corpus_cyrillic_short_words : list text :=
  repeat [] 50 ++ repeat (py "дом") 6.

(* --------------------------------------------------------------------- *)
(** *** Script counts, in the words of the specification *)

(** The tracked ranges of each script tag; Latin is printable ASCII. *)
Definition SCRIPT_RANGES : list (string * list (cp * cp)) :=
  [ ("arabic"%string, [ (0x0600, 0x06FF)%N ]);
    ("cyrillic"%string, [ (0x0400, 0x04FF)%N ]);
    ("cjk"%string,
     [ (0x4E00, 0x9FAF)%N; (0x3040, 0x309F)%N; (0x30A0, 0x30FF)%N ]);
    ("devanagari"%string, [ (0x0900, 0x097F)%N ]);
    ("latin"%string, [ (0x0020, 0x007F)%N ]) ].

Definition in_script (k : string) (c : cp) : bool :=
  match assoc k SCRIPT_RANGES with
  | Some ranges => existsb (fun r => cp_between (fst r) (snd r) c) ranges
  | None => false
  end.

(** The number of characters of script [k] in a list of lines. *)
Definition script_count (k : string) (sample : list text) : nat :=
  length (filter (in_script k) (List.concat sample)).

(** Every key of the counter has been counted at least once. *)
Definition counter_positive (c : counter) : Prop :=
  Forall (fun kv => 0 < snd kv) c.

(** The lines a scan bounded by [sample_size] inspects. *)
Definition sample_of (lines : list text) (sample_size : Z) : list text :=
  firstn (Z.to_nat sample_size) lines.

(** 500 lines: 50 Cyrillic letters in the first, 51 Arabic letters in the
    second, the rest blank. *)
Definition corpus_arabic_majority : list text :=
  [ repeat 0x0430%N 50; repeat 0x0627%N 51 ] ++ repeat [] 498.

(** 500 lines: 50 Cyrillic letters in the first, the rest blank. *)
Definition corpus_cyrillic : list text :=
  [ repeat 0x0430%N 50 ] ++ repeat [] 499.

(* --------------------------------------------------------------------- *)
(** *** Index buffers as sequences of records *)

(** A record of the index: the bytes of the word (without the terminator),
    the offset and the size. *)
Record idx_record : Type := {
  rec_word : bytes;
  rec_offset : N;
  rec_size : N
}.

Definition byte_of_N (n : N) : byte :=
  match Byte.of_N (n mod 256) with
  | Some b => b
  | None => x00
  end.

(** An unsigned 32-bit integer, big-endian. *)
Definition be32 (n : N) : bytes :=
  [ byte_of_N (n / 16777216); byte_of_N (n / 65536); byte_of_N (n / 256);
    byte_of_N n ].

Definition encode_record (r : idx_record) : bytes :=
  rec_word r ++ x00 :: be32 (rec_offset r) ++ be32 (rec_size r).

Definition encode_index (rs : list idx_record) : bytes :=
  flat_map encode_record rs.

Definition wf_record (r : idx_record) : Prop :=
  ~ In x00 (rec_word r)
  /\ (rec_offset r < 4294967296)%N /\ (rec_size r < 4294967296)%N.

(** What may follow the last complete record: bytes without a terminator,
    or a word whose terminator is followed by fewer than 8 bytes. *)
Definition incomplete_tail (tail : bytes) : Prop :=
  match index_of x00 tail with
  | None => True
  | Some k => length tail < k + 9
  end.

(** How far into the tail the scan moves [pos] before it stops. *)
Definition tail_pos (tail : bytes) : nat :=
  match index_of x00 tail with
  | None => 0
  | Some k => k + 1
  end.

(** The definition of a record whose offset lies in the data buffer: the
    bytes from the offset on, as many as the size says but no more than
    remain. *)
Definition entry_definition (dict_data : bytes) (r : idx_record) : text :=
  decode_utf8_ignore
    (slice dict_data (N.to_nat (rec_offset r))
       (N.to_nat
          (rec_offset r
           + N.min (rec_size r)
               (N.of_nat (length dict_data) - rec_offset r)))).

(** The entry a record gives in the primary pass, if any. *)
Definition entry_of (dict_data : bytes) (r : idx_record)
  : list (text * text) :=
  if (rec_offset r <? N.of_nat (length dict_data))%N
  then [ (decode_utf8_ignore (rec_word r), entry_definition dict_data r) ]
  else [].

Definition parsed_entries (dict_data : bytes) (rs : list idx_record)
  : list (text * text) :=
  flat_map (entry_of dict_data) rs.

Section StarDictVocabulary.
Context {U : UnicodeDB}.

(** The cleaned headword of a record. *)
Definition headword (r : idx_record) : text :=
  clean_word (decode_utf8_ignore (rec_word r)).

(** The source-role words of parsed entries: their valid cleaned
    headwords. *)
Definition parsed_headwords (entries : list (text * text)) : list text :=
  flat_map
    (fun entry =>
       if is_valid_word (clean_word (fst entry))
       then [ clean_word (fst entry) ] else [])
    entries.

(** The words the recovery pass adds: valid cleaned headwords of records
    whose word is not the word of a parsed entry. *)
Definition recovered_headwords (existing_words : list text)
    (rs : list idx_record) : list text :=
  flat_map
    (fun r =>
       if is_valid_word (headword r)
          && negb (mem (decode_utf8_ignore (rec_word r)) existing_words)
       then [ headword r ] else [])
    rs.
End StarDictVocabulary.

(** Three records: the second points past a 5-byte data buffer, the third
    overruns it. *)
Definition bytes_of (s : string) : bytes := list_byte_of_string s.

Definition records_example : list idx_record :=
  [ {| rec_word := bytes_of "alfa"; rec_offset := 0; rec_size := 2 |};
    {| rec_word := bytes_of "bravo"; rec_offset := 9; rec_size := 2 |};
    {| rec_word := bytes_of "charlie"; rec_offset := 3; rec_size := 7 |} ].

Definition dict_example : bytes := bytes_of "hello".

(** One record pointing past the data buffer, followed by padding. *)
Definition records_skipped : list idx_record :=
  [ {| rec_word := bytes_of "delta"; rec_offset := 9; rec_size := 2 |} ].

(* ===================================================================== *)
(** ** Further functions of [zippy.py] *)

(* --------------------------------------------------------------------- *)
(** *** Translation helpers *)

Definition CJK_SCRIPT_NAMES : list string :=
  [ "cjk_hiragana"; "cjk_katakana"; "cjk_unified" ]%string.

(** The double quote character. *)
Definition DQUOTE : text := [ 34%N ].

(** [s.split(c, 1)[-1]] for a one-character separator: what follows the
    first [c], or all of [s] when there is none. *)
Fixpoint after_first (c : cp) (s : text) : option text :=
  match s with
  | [] => None
  | d :: s' => if (d =? c)%N then Some s' else after_first c s'
  end.

Definition split_last1 (c : cp) (s : text) : text :=
  match after_first c s with
  | Some t => t
  | None => s
  end.

(** [l[k]] for any integer [k]: a negative index counts from the end. *)
Definition getitem_int {A} (l : list A) (k : Z) : result A :=
  if (k <? 0)%Z then
    if (k + Z.of_nat (length l) <? 0)%Z then Raise IndexError
    else getitem l (Z.to_nat (k + Z.of_nat (length l)))
  else getitem l (Z.to_nat k).

Section Translations.
Context {U : UnicodeDB}.

Definition extract_script_specific_words (translation : text)
    (script : string) : list text :=
  let parts := translate translation in
  flat_map
    (fun word =>
       let clean := clean_word word in
       if in_strings script CJK_SCRIPT_NAMES then
         if contains_cjk clean then [ clean ] else []
       else if contains_script clean script then [ clean ]
       else [])
    (split_ws parts).

Definition extract_english_words (translation : text) : list text :=
  let parts := translate translation in
  flat_map
    (fun word =>
       let clean := clean_word word in
       if isalpha clean && forallb (fun c => (c <? 256)%N) clean
       then [ clean ] else [])
    (split_ws parts).

(** [process_multilingual_translation]: a generator, so each [return []]
    just ends it. *)
Definition process_multilingual_translation (translation : text)
  : list text :=
  if starts_with DQUOTE translation && ends_with DQUOTE translation then []
  else
    let cleaned := translate translation in
    if contains_script cleaned "devanagari" then
      flat_map
        (fun word =>
           let clean := clean_word word in
           if (1 <=? length clean)
              && forallb (fun c => is_script_character c "devanagari") clean
           then [ clean ] else [])
        (split_ws cleaned)
    else if contains_script cleaned "arabic" then
      if in_ (py "/") translation && existsb ipa_marker translation then []
      else extract_script_specific_words cleaned "arabic"
    else if contains_cjk cleaned
    then extract_script_specific_words cleaned "cjk_hiragana"
    else if contains_script cleaned "cyrillic"
    then extract_script_specific_words cleaned "cyrillic"
    else extract_english_words cleaned.

(** The words [extract_multiline_translation_words] takes from one
    translation line. *)
Definition multiline_line_words (next_line : text) : list text :=
  let translation := strip next_line in
  let translation :=
    if in_ (py "[") translation
    then strip (split_last1 (ch "]") translation)
    else translation in
  let parts :=
    replace (py ">") (py " ")
      (replace (py "<") (py " ")
         (replace (py "<n>") (py " ")
            (replace (py ",") (py " ") translation))) in
  flat_map
    (fun word =>
       let clean := clean_word word in
       if isalpha clean && forallb (fun c => (c <? 128)%N) clean
       then [ clean ] else [])
    (split_ws parts).

(** The loop [for j in range(1, 4)] of
    [extract_multiline_translation_words]. *)
Fixpoint multiline_translation_loop (lines : list text) (line_idx : Z)
    (js : list Z) : result (list text) :=
  match js with
  | [] => Ok []
  | j :: js' =>
    if (Z.of_nat (length lines) <=? line_idx + j)%Z then Ok []
    else
      l <- getitem_int lines (line_idx + j)%Z ;;
      let next_line := strip l in
      if is_empty next_line
         || negb (starts_with (py " ") next_line || in_ (py "[") next_line)
      then multiline_translation_loop lines line_idx js'
      else Ok (multiline_line_words next_line)
  end.

Definition extract_multiline_translation_words (lines : list text)
    (line_idx : Z) : result (list text) :=
  multiline_translation_loop lines line_idx [ 1; 2; 3 ]%Z.
End Translations.

(* --------------------------------------------------------------------- *)
(** *** Saving a wordlist *)

(** [a < b] on strings: lexicographic by code point. *)
Fixpoint text_ltb (a b : text) : bool :=
  match a, b with
  | _, [] => false
  | [], _ :: _ => true
  | x :: a', y :: b' => (x <? y)%N || ((x =? y)%N && text_ltb a' b')
  end.

Fixpoint insert_sorted (w : text) (ws : list text) : list text :=
  match ws with
  | [] => [ w ]
  | v :: ws' => if text_ltb v w then v :: insert_sorted w ws' else w :: ws
  end.

(** [sorted(xs)].  Python's sort is stable; on strings, where elements
    that compare equal are equal, every sort returns the same list. *)
Fixpoint sorted (ws : list text) : list text :=
  match ws with
  | [] => []
  | w :: ws' => insert_sorted w (sorted ws')
  end.

(** The elements of [set(words)], in one of the orders the set may be
    iterated in; [sorted] gives the same list for every such order. *)
Definition py_set (words : list text) : list text :=
  nodup (list_eq_dec N.eq_dec) words.

(** ['\n'.join(ws)] *)
Fixpoint join_lines (ws : list text) : text :=
  match ws with
  | [] => []
  | [ w ] => w
  | w :: ws' => w ++ 10%N :: join_lines ws'
  end.

(** A surrogate code point: the one kind of character of a [str] that
    UTF-8 does not encode. *)
Definition is_surrogate (c : cp) : bool := cp_between 0xD800 0xDFFF c.

(** [s.encode('utf-8')] does not raise. *)
Definition utf8_encodable (s : text) : bool :=
  forallb (fun c => negb (is_surrogate c)) s.

(** [save_wordlist]: what is written to the output file, if it is
    written, and the value returned, for words that UTF-8 encodes, as the
    words taken from a decoded file are.  (On a word that holds a
    surrogate the source opens the file and raises [UnicodeEncodeError] at
    the write.) *)
Definition save_wordlist (words : list text) : option text * nat :=
  match words with
  | [] => (None, 0)
  | _ =>
    let unique_words := sorted (py_set words) in
    (Some (join_lines unique_words), length unique_words)
  end.

(* --------------------------------------------------------------------- *)
(** *** Structured markup

    [extract_words_from_tei_xml] parses its input with
    [xml.etree.ElementTree] and walks the tree; the embedding starts from
    the parsed tree, [None] standing for input that raises [ParseError]. *)

#[warnings="-register-all"]
Inductive element : Type :=
| Element (tag : text) (txt : option text) (children : list element).

Definition element_tag (e : element) : text :=
  match e with Element tag _ _ => tag end.

Definition element_text (e : element) : option text :=
  match e with Element _ txt _ => txt end.

(** [e.iter()]: the element and its descendants, in document order. *)
Fixpoint element_iter (e : element) : list element :=
  match e with
  | Element _ _ children => e :: flat_map element_iter children
  end.

(** [e.tag.endswith('}' + name) or e.tag == name] *)
Definition has_local_name (name : text) (e : element) : bool :=
  ends_with (ch "}" :: name) (element_tag e) || text_eqb (element_tag e) name.

Section Markup.
Context {U : UnicodeDB}.

(** The words collected under one entry. *)
Definition tei_entry_words (extract_language : string) (entry : element)
  : list text :=
  if String.eqb extract_language "source" then
    flat_map
      (fun orth =>
         match element_text orth with
         | Some t =>
           if has_local_name (py "orth") orth && negb (is_empty t) then
             let word := strip t in
             if is_valid_word word then [ word ] else []
           else []
         | None => []
         end)
      (element_iter entry)
  else
    flat_map
      (fun quote =>
         match element_text quote with
         | Some t =>
           if has_local_name (py "quote") quote && negb (is_empty t) then
             let word := strip t in
             if isalpha word then [ word ] else []
           else []
         | None => []
         end)
      (element_iter entry).

Definition extract_words_from_tei_xml (parsed : option element)
    (extract_language : string) : list text :=
  match parsed with
  | None => []
  | Some root =>
    flat_map
      (fun entry =>
         if has_local_name (py "entry") entry
         then tei_entry_words extract_language entry
         else [])
      (element_iter root)
  end.
End Markup.

(* --------------------------------------------------------------------- *)
(** *** File names and language names *)

(** [LANGUAGE_MAPPINGS] *)
Definition LANGUAGE_MAPPINGS : list (text * text) :=
  map (fun kv => (py (fst kv), py (snd kv)))
    [ ("afr", "afrikaans"); ("ara", "arabic"); ("ast", "asturian");
      ("bre", "breton"); ("bul", "bulgarian"); ("cat", "catalan");
      ("ces", "czech"); ("ckb", "sorani"); ("cym", "welsh");
      ("dan", "danish"); ("deu", "german"); ("ell", "greek");
      ("eng", "english"); ("epo", "esperanto"); ("fin", "finnish");
      ("fra", "french"); ("gle", "irish"); ("hin", "hindi");
      ("hrv", "croatian"); ("ita", "italian"); ("jpn", "japanese");
      ("kha", "khasi"); ("kmr", "kurmanji"); ("lat", "latin");
      ("nld", "dutch"); ("pol", "polish"); ("por", "portuguese");
      ("rus", "russian"); ("spa", "spanish"); ("swe", "swedish");
      ("swh", "swahili") ]%string.

(** [LANGUAGE_MAPPINGS.get(code, code)] *)
Definition language_name (code : text) : text :=
  match find (fun kv => text_eqb code (fst kv)) LANGUAGE_MAPPINGS with
  | Some kv => snd kv
  | None => code
  end.

(** [s.split(c)] for a one-character separator: every field, empty ones
    included. *)
Fixpoint split_on (c : cp) (s : text) : list text :=
  match s with
  | [] => [ [] ]
  | d :: s' =>
    if (d =? c)%N then [] :: split_on c s'
    else
      match split_on c s' with
      | f :: fs => (d :: f) :: fs
      | [] => [ [ d ] ]
      end
  end.

(** [s.rfind(c)], with [None] for [-1]. *)
Fixpoint rfind (c : cp) (s : text) : option nat :=
  match s with
  | [] => None
  | d :: s' =>
    match rfind c s' with
    | Some i => Some (S i)
    | None => if (d =? c)%N then Some 0 else None
    end
  end.

(** [Path(s).name] on a POSIX system: the last component of [s] that is
    neither empty nor a single dot, or the empty string. *)
Definition path_name (s : text) : text :=
  last
    (filter (fun x => negb (is_empty x) && negb (text_eqb x (py ".")))
       (split_on (ch "/") s))
    [].

(** [Path(s).stem]: the name without its last suffix. *)
Definition path_stem (s : text) : text :=
  let name := path_name s in
  match rfind (ch ".") name with
  | Some i =>
    if (0 <? i) && (i <? length name - 1) then firstn i name else name
  | None => name
  end.

Section LanguageNames.
Context {U : UnicodeDB}.

(** The loop that takes the first two segments of length 3. *)
Fixpoint first_codes (parts : list text) (codes : list text) : list text :=
  match parts with
  | [] => codes
  | part :: parts' =>
    if length part =? 3 then
      let codes := codes ++ [ lower part ] in
      if length codes =? 2 then codes else first_codes parts' codes
    else first_codes parts' codes
  end.

(** The fall-back on the first two dash-separated parts. *)
Definition first_two_parts (parts : list text) : result (text * text) :=
  if 2 <=? length parts then
    p0 <- getitem parts 0 ;;
    p1 <- getitem parts 1 ;;
    Ok (lower p0, lower p1)
  else
    p0 <- getitem parts 0 ;;
    Ok (lower p0, lower p0).

Definition get_language_mapping (name_or_code : text)
  : result (text * text) :=
  codes <-
    (if ends_with (py ".dict.dz") name_or_code then
       let base := path_stem name_or_code in
       let base := path_stem base in
       first_two_parts (split_on (ch "-") base)
     else
       let base := path_stem name_or_code in
       let parts := split_on (ch "-") base in
       match first_codes parts [] with
       | [ src_code; tgt_code ] => Ok (src_code, tgt_code)
       | _ => first_two_parts parts
       end) ;;
  Ok (language_name (fst codes), language_name (snd codes)).

Definition determine_wordlist_filenames (dict_path : text)
  : result (text * text) :=
  let name := path_name dict_path in
  let base := split_head (ch ".") name in
  langs <- get_language_mapping base ;;
  let target_fname := snd langs ++ py "_" ++ base ++ py ".txt" in
  let source_fname := fst langs ++ py "_" ++ base ++ py ".txt" in
  Ok (target_fname, source_fname).
End LanguageNames.

(* --------------------------------------------------------------------- *)
(** *** Processing a [.dict.dz] file

    The branch of [process_dictionary_file] for a path ending in
    [.dict.dz], from the lines of the decompressed file on: what is
    written to the source and to the target output file, if it is written,
    and the two counts. *)

Section Processing.
Context {U : UnicodeDB}.
Variable filters : pos_filters.

Definition process_dictionary_file_dz (f : list text)
  : result ((option text * nat) * (option text * nat)) :=
  let lines := map rstrip_nl f in
  source_words <- extract_words_from_gzip_content filters lines "source" true ;;
  target_words <- extract_words_from_gzip_content filters lines "target" true ;;
  let source_count := save_wordlist source_words in
  let target_count := save_wordlist target_words in
  Ok (source_count, target_count).
End Processing.

(* ===================================================================== *)
(** ** Vocabulary of the further properties *)

(** An occurrence of [<tag>] in [s], for a non-empty [tag] without a
    closing bracket. *)
Definition tag_occurs (tag s : text) : Prop :=
  exists pre post,
    s = pre ++ ch "<" :: tag ++ ch ">" :: post
    /\ tag <> [] /\ has_cp (ch ">") tag = false.

(** A character of one of the four non-Latin scripts, by the tables of
    the character-level classifier. *)
Definition non_latin_character (c : cp) : bool :=
  existsb (is_script_character c) [ "arabic"; "cyrillic"; "devanagari" ]%string
  || is_cjk_character c.

Section WordShapes.
Context {U : UnicodeDB}.

(** A headword taken from a pronunciation line. *)
Definition headword_ok (w : text) : Prop :=
  is_valid_word w = true
  /\ has_cp (ch "/") w = false
  /\ existsb cp_isdigit w = false
  /\ strip w = w.

(** A token taken from the counterpart line of a pair: at least 2
    characters, all below U+0100, alphabetic once normalized, without
    whitespace, and without punctuation at either end. *)
Definition latin1_token (w : text) : Prop :=
  2 <= length w
  /\ forallb (fun c => (c <? 256)%N) w = true
  /\ isalpha (normalize_word w) = true
  /\ forallb (fun c => negb (isspace c)) w = true
  /\ clean_word w = w.

(** A headword kept by the simple and header-skip strategies. *)
Definition simple_headword_ok (w : text) : Prop :=
  w <> []
  /\ existsb cp_isdigit w = false
  /\ existsb (fun char => in_ char w) BRACKET_CHARS = false
  /\ clean_word w = w.

(** A translation word kept by the simple and header-skip strategies. *)
Definition alpha_word (w : text) : Prop :=
  isalpha w = true
  /\ forallb (fun c => negb (isspace c)) w = true
  /\ clean_word w = w.
End WordShapes.

(** A three-line entry in the multiline layout. *)
Definition corpus_multiline_entry : list text :=
  [ casa_line; py "house, the home"; py "A dwelling." ].

(** A one-line corpus in Cyrillic script. *)
Definition corpus_dom : list text := [ py "дом" ].

(** The two-line corpus with indentation, trailing blanks and newlines. *)
Definition corpus_two_lines_padded : list text :=
  [ [ 32; 32 ]%N ++ py "ab" ++ [ 9; 10 ]%N; py "abc def" ++ [ 32; 10 ]%N ].

Section StarDictFurther.
Context {U : UnicodeDB}.

(** The valid cleaned headwords of the records of an index. *)
Definition valid_headwords (rs : list idx_record) : list text :=
  flat_map (fun r => if is_valid_word (headword r) then [ headword r ] else [])
    rs.
End StarDictFurther.

(** One record with a long headword and an offset inside the data buffer:
    24 bytes of index for one entry. *)
Definition records_long : list idx_record :=
  [ {| rec_word := bytes_of "extraordinarily"; rec_offset := 0;
       rec_size := 2 |} ].

(** A list of strings in strictly increasing order. *)
Fixpoint increasing (ws : list text) : Prop :=
  match ws with
  | [] => True
  | w :: ws' => (forall v, In v ws' -> text_ltb w v = true) /\ increasing ws'
  end.

(** A document with one entry holding a headword and a translation. *)
Definition tei_example : element :=
  Element (py "TEI") None
    [ Element (py "{http://www.tei-c.org/ns/1.0}entry") None
        [ Element (py "orth") (Some (py " casa ")) [];
          Element (py "quote") (Some (py "house")) [] ] ].

(** An entry line followed by a line with a bracketed label. *)
Definition corpus_bracketed_label : list text :=
  [ py "Haus"; py "[arch.] house, building" ].

(** A word made of characters of one line of the corpus. *)
Definition from_line (lines : list text) (w : text) : Prop :=
  exists l, In l lines /\ forall c, In c w -> In c l.


Section PairVocabulary.
Context {U : UnicodeDB}.

(** Two stripped neighbour lines the pattern loop reads as a pronunciation
    line followed by its counterpart. *)
Definition pronunciation_pair (line1 line2 : text) : bool :=
  negb (is_empty line1) && negb (is_empty line2)
  && negb (is_header_line line1) && negb (is_header_line line2)
  && has_pronunciation_markers line1
  && negb (has_pronunciation_markers line2).
End PairVocabulary.

(** [corpus60] with another first line. *)
Definition corpus60_retitled : list text :=
  py "00-database-info" :: tl corpus60.

(* ===================================================================== *)
(** * Properties *)

(** ** Sanity checks of the string model *)

Example py_casa_codes : py "casa /ˈkasa/ <n>" =
  [99; 97; 115; 97; 32; 47; 0x2C8; 107; 97; 115; 97; 47; 32; 60; 110; 62]%N.
Proof. reflexivity. Qed.

Example normalize_class_codes :
  py "-‐'.,/ " = [45; 0x2010; 39; 46; 44; 47; 32]%N.
Proof. reflexivity. Qed.

Example translate_map_codes : py ",،、~" = [44; 0x60C; 0x3001; 126]%N.
Proof. reflexivity. Qed.

Example decode_utf8_ignore_example :
  decode_utf8_ignore
    [ xe2; x82; x41; xff; xc3; xa9; xed; xa0; x80; x7a; xf0; x9f; x98 ]
  = [ 0x41; 0xE9; 0x7A ]%N.
Proof. reflexivity. Qed.

Example is_valid_word_examples :
  @is_valid_word latin1_db (py "USB") = false
  /\ @is_valid_word latin1_db (py "ab") = false
  /\ @is_valid_word latin1_db (py "café") = true.
Proof. repeat split; reflexivity. Qed.

Example upper_lower_examples :
  @upper latin1_db (py "Straße café") = py "STRASSE CAFÉ"
  /\ @lower latin1_db (py "Casa /ˈKASA/ <N>") = py "casa /ˈkasa/ <n>".
Proof. split; reflexivity. Qed.

Example extract_pos_tags_example :
  extract_pos_tags (py "casa /ˈkasa/ <n> <v, trans> <> <a<b>")
  = map py [ "n"; "v, trans"; "a<b" ]%string.
Proof. reflexivity. Qed.

Example re_split_example :
  re_split (fun c => (c =? ch ",")%N || isspace c) (py ",a, b,")
  = map py [ ""; "a"; "b"; "" ]%string.
Proof. reflexivity. Qed.

(* ===================================================================== *)
(** ** The result monad and indexing *)

Lemma getitem_lt {A} (l : list A) (i : nat) (d : A) :
  i < length l -> getitem l i = Ok (nth i l d).
Proof.
  intros H. unfold getitem.
  destruct (nth_error l i) as [a|] eqn:E.
  - rewrite (nth_error_nth l i d E). reflexivity.
  - apply nth_error_None in E. lia.
Qed.

Lemma getitem_map {A B} (f : A -> B) (l : list A) (i : nat) :
  getitem (map f l) i =
  match getitem l i with Ok a => Ok (f a) | Raise e => Raise e end.
Proof.
  unfold getitem. rewrite nth_error_map.
  destruct (nth_error l i); reflexivity.
Qed.

Lemma in_py_range (a b i : nat) : In i (py_range a b) <-> a <= i < b.
Proof. unfold py_range. rewrite in_seq. lia. Qed.

(* ===================================================================== *)
(** ** Stripping *)

Lemma drop_while_app (p : cp -> bool) (a b : text) :
  drop_while p (a ++ b) =
  if forallb p a then drop_while p b else drop_while p a ++ b.
Proof.
  induction a as [|c a IH]; simpl; [reflexivity|].
  destruct (p c); simpl; [exact IH | reflexivity].
Qed.

Lemma drop_while_nil_iff (p : cp -> bool) (s : text) :
  drop_while p s = [] <-> forallb p s = true.
Proof.
  induction s as [|c s IH]; simpl; [tauto|].
  destruct (p c); simpl; [exact IH|]. split; discriminate.
Qed.

(** How [rstrip] treats the first character. *)
Lemma rstrip_by_cons (p : cp -> bool) (c : cp) (s : text) :
  rstrip_by p (c :: s) =
  if is_empty (rstrip_by p s) && p c then [] else c :: rstrip_by p s.
Proof.
  unfold rstrip_by. simpl. rewrite drop_while_app.
  destruct (forallb p (rev s)) eqn:E.
  - apply drop_while_nil_iff in E. rewrite E. simpl.
    destruct (p c); reflexivity.
  - rewrite rev_app_distr. simpl.
    destruct (rev (drop_while p (rev s))) eqn:E2; [|reflexivity].
    apply (f_equal (@rev cp)) in E2. rewrite rev_involutive in E2. simpl in E2.
    apply drop_while_nil_iff in E2. congruence.
Qed.

Lemma rstrip_by_nil (p : cp -> bool) : rstrip_by p [] = [].
Proof. reflexivity. Qed.

(** A coarser [rstrip] absorbs a finer one. *)
Lemma rstrip_by_absorb (p q : cp -> bool) (s : text) :
  (forall c, p c = true -> q c = true) ->
  rstrip_by q (rstrip_by p s) = rstrip_by q s.
Proof.
  intros Hpq. induction s as [|c s IH]; [reflexivity|].
  rewrite (rstrip_by_cons p), (rstrip_by_cons q).
  destruct (rstrip_by p s) as [|d s'] eqn:E; simpl.
  - rewrite <- IH. simpl.
    destruct (p c) eqn:Ep.
    + rewrite (Hpq c Ep). reflexivity.
    + rewrite rstrip_by_cons. reflexivity.
  - rewrite rstrip_by_cons. rewrite IH. reflexivity.
Qed.

Lemma newline_isspace (c : cp) : (0x0A =? c)%N = true -> isspace c = true.
Proof. intros H. apply N.eqb_eq in H. subst c. reflexivity. Qed.

(** Trailing newlines do not survive [strip]. *)
Lemma strip_rstrip_nl (s : text) : strip (rstrip_nl s) = strip s.
Proof.
  unfold strip, strip_by, rstrip_nl, lstrip_by.
  induction s as [|c s IH]; [reflexivity|].
  rewrite rstrip_by_cons.
  destruct (isspace c) eqn:Ec.
  - simpl drop_while at 2. rewrite Ec.
    destruct (is_empty (rstrip_by (N.eqb 10) s) && (10 =? c)%N) eqn:E.
    + apply andb_prop in E. destruct E as [E1 _].
      destruct (rstrip_by (N.eqb 10) s); [|discriminate].
      rewrite <- IH. reflexivity.
    + simpl. rewrite Ec. exact IH.
  - assert (En : (10 =? c)%N = false).
    { destruct (10 =? c)%N eqn:E; [|reflexivity].
      apply newline_isspace in E. congruence. }
    rewrite En, andb_false_r. simpl. rewrite Ec.
    change (c :: rstrip_by (N.eqb 10) s)
      with ([c] ++ rstrip_by (N.eqb 10) s).
    assert (H : c :: rstrip_by (N.eqb 10) s = rstrip_by (N.eqb 10) (c :: s)).
    { rewrite rstrip_by_cons, En, andb_false_r. reflexivity. }
    simpl. rewrite H. apply rstrip_by_absorb. exact newline_isspace.
Qed.

Lemma getitem_rstrip_nl (lines : list text) (i : nat) :
  getitem (map rstrip_nl lines) i =
  match getitem lines i with
  | Ok l => Ok (rstrip_nl l)
  | Raise e => Raise e
  end.
Proof. apply getitem_map. Qed.

(* ===================================================================== *)
(** ** The pipeline does not see trailing newlines

    [extract_words_from_gzip_content] strips trailing newlines from every
    line before anything else.  Every detector and strategy strips the
    lines it reads, and the script tally ignores the newline character, so
    each of them gives the same answer on the raw corpus. *)

Ltac case_getitem lines i :=
  rewrite ?getitem_rstrip_nl;
  destruct (getitem lines i); cbn [bind]; [|reflexivity].

Section NewlineInvariance.
Context {U : UnicodeDB}.
Variable filters : pos_filters.
Variable lines : list text.

Local Abbreviation lines' := (map rstrip_nl lines).

Lemma alternating_loop_rstrip_nl idxs samples :
  alternating_loop lines' idxs samples = alternating_loop lines idxs samples.
Proof.
  revert samples. induction idxs as [|i idxs IH]; intros samples;
    [reflexivity|].
  cbn [alternating_loop].
  case_getitem lines i. case_getitem lines (i + 1).
  rewrite !strip_rstrip_nl, !IH. reflexivity.
Qed.

Lemma detect_alternating_pattern_rstrip_nl :
  detect_alternating_pattern lines' = detect_alternating_pattern lines.
Proof.
  unfold detect_alternating_pattern.
  rewrite length_map, alternating_loop_rstrip_nl. reflexivity.
Qed.

Lemma detect_multiline_loop_rstrip_nl idxs n :
  detect_multiline_loop lines' idxs n = detect_multiline_loop lines idxs n.
Proof.
  revert n. induction idxs as [|i idxs IH]; intros n; [reflexivity|].
  cbn [detect_multiline_loop].
  case_getitem lines i. case_getitem lines (i + 1).
  case_getitem lines (i + 2).
  rewrite !strip_rstrip_nl, !IH. reflexivity.
Qed.

Lemma detect_multiline_format_rstrip_nl :
  detect_multiline_format lines' = detect_multiline_format lines.
Proof.
  unfold detect_multiline_format.
  rewrite length_map, detect_multiline_loop_rstrip_nl. reflexivity.
Qed.

Lemma multiline_words_loop_rstrip_nl fuel role i words :
  multiline_words_loop filters fuel lines' role i words
  = multiline_words_loop filters fuel lines role i words.
Proof.
  revert i words. induction fuel as [|fuel IH]; intros i words;
    cbn [multiline_words_loop]; rewrite length_map; [reflexivity|].
  destruct (i <? length lines - 2); [|reflexivity].
  case_getitem lines i. case_getitem lines (i + 1).
  case_getitem lines (i + 2).
  rewrite !strip_rstrip_nl, !IH. reflexivity.
Qed.

Lemma pattern_words_loop_rstrip_nl role pattern idxs words :
  pattern_words_loop filters lines' role pattern idxs words
  = pattern_words_loop filters lines role pattern idxs words.
Proof.
  revert words. induction idxs as [|i idxs IH]; intros words;
    [reflexivity|].
  cbn [pattern_words_loop].
  case_getitem lines i. case_getitem lines (i + 1).
  rewrite !strip_rstrip_nl, !IH. reflexivity.
Qed.

Lemma extract_words_with_pattern_detection_rstrip_nl role pattern :
  extract_words_with_pattern_detection filters lines' role pattern
  = extract_words_with_pattern_detection filters lines role pattern.
Proof.
  unfold extract_words_with_pattern_detection,
    extract_multiline_format_words.
  rewrite detect_multiline_format_rstrip_nl, length_map.
  destruct (detect_multiline_format lines) as [[|]|]; cbn [bind];
    [apply multiline_words_loop_rstrip_nl
    |apply pattern_words_loop_rstrip_nl|reflexivity].
Qed.

Lemma header_skip_start_rstrip_nl idxs :
  header_skip_start lines' idxs = header_skip_start lines idxs.
Proof.
  induction idxs as [|i idxs IH]; [reflexivity|].
  cbn [header_skip_start]. rewrite length_map.
  case_getitem lines i. rewrite !strip_rstrip_nl, IH.
  rewrite ?getitem_rstrip_nl.
  destruct (getitem lines (i + 1)); cbn [bind];
    rewrite ?strip_rstrip_nl; reflexivity.
Qed.

Lemma header_skip_loop_rstrip_nl fuel role i words :
  header_skip_loop filters fuel lines' role i words
  = header_skip_loop filters fuel lines role i words.
Proof.
  revert i words. induction fuel as [|fuel IH]; intros i words;
    cbn [header_skip_loop]; rewrite length_map; [reflexivity|].
  destruct (i <? length lines - 1); [|reflexivity].
  case_getitem lines i. case_getitem lines (i + 1).
  rewrite !strip_rstrip_nl, !IH. reflexivity.
Qed.

Lemma _extract_with_header_skip_rstrip_nl role :
  _extract_with_header_skip filters lines' role
  = _extract_with_header_skip filters lines role.
Proof.
  unfold _extract_with_header_skip.
  rewrite length_map, header_skip_start_rstrip_nl.
  destruct (header_skip_start lines _); cbn [bind]; [|reflexivity].
  apply header_skip_loop_rstrip_nl.
Qed.

Lemma extract_words_by_script_detection_rstrip_nl role script :
  extract_words_by_script_detection filters lines' role script
  = extract_words_by_script_detection filters lines role script.
Proof.
  unfold extract_words_by_script_detection.
  induction lines as [|l ls IH]; [reflexivity|].
  cbn [map flat_map]. rewrite IH. f_equal.
  unfold script_detection_line. rewrite strip_rstrip_nl. reflexivity.
Qed.
End NewlineInvariance.

(** The tally skips the newline character. *)
Lemma tally_line_rstrip_nl (line : text) (counts : counter) :
  tally_line counts (rstrip_nl line) = tally_line counts line.
Proof.
  unfold tally_line, rstrip_nl. revert counts.
  induction line as [|c s IH]; intros counts; [reflexivity|].
  rewrite rstrip_by_cons.
  destruct (is_empty (rstrip_by (N.eqb 10) s) && (10 =? c)%N) eqn:E.
  - apply andb_prop in E. destruct E as [E1 E2].
    apply N.eqb_eq in E2. subst c. cbn [fold_left].
    change (tally_char counts 10%N) with counts.
    rewrite <- IH.
    destruct (rstrip_by (N.eqb 10) s); [reflexivity|discriminate].
  - cbn [fold_left]. apply IH.
Qed.

Lemma tally_lines_rstrip_nl (lines : list text) i n counts :
  tally_lines i n (map rstrip_nl lines) counts = tally_lines i n lines counts.
Proof.
  revert i counts. induction lines as [|l ls IH]; intros i counts;
    [reflexivity|].
  cbn [map tally_lines]. rewrite tally_line_rstrip_nl, IH. reflexivity.
Qed.

Lemma detect_target_language_script_rstrip_nl (lines : list text) n :
  detect_target_language_script (map rstrip_nl lines) n
  = detect_target_language_script lines n.
Proof.
  unfold detect_target_language_script.
  rewrite tally_lines_rstrip_nl. reflexivity.
Qed.

(* ===================================================================== *)
(** ** The detectors as counts over their windows *)

Ltac case_ifs :=
  repeat match goal with
         | |- context [if ?b then _ else _] => destruct b eqn:?
         end.

Lemma detect_multiline_loop_count (lines : list text) (idxs : list nat) :
  (forall i, In i idxs -> i + 2 < length lines) ->
  forall n, n < 5 ->
  detect_multiline_loop lines idxs n
  = Ok (5 <=? n + length (filter (multiline_triple_at lines) idxs)).
Proof.
  induction idxs as [|i idxs IH]; intros Hb n Hn.
  - cbn [detect_multiline_loop filter length]. rewrite Nat.add_0_r.
    f_equal. symmetry. apply Nat.leb_gt. lia.
  - assert (Hi : i + 2 < length lines) by (apply Hb; left; reflexivity).
    assert (Hb' : forall j, In j idxs -> j + 2 < length lines)
      by (intros j Hj; apply Hb; right; exact Hj).
    cbn [detect_multiline_loop filter].
    rewrite (getitem_lt lines (i) []) by lia.
    rewrite (getitem_lt lines (i + 1) []) by lia.
    rewrite (getitem_lt lines (i + 2) []) by lia.
    cbn [bind]. unfold multiline_triple_at at 1, stripped_at.
    destruct (multiline_triple _ _ _); cbn [length].
    + destruct (5 <=? n + 1) eqn:E.
      * f_equal. symmetry. apply Nat.leb_le. apply Nat.leb_le in E. lia.
      * apply Nat.leb_gt in E. rewrite IH by (auto; lia).
        f_equal. f_equal. lia.
    + destruct (5 <=? n) eqn:E; [apply Nat.leb_le in E; lia|].
      apply IH; auto.
Qed.

Lemma multiline_window_bound (lines : list text) (i : nat) :
  In i (multiline_window lines) -> i + 2 < length lines.
Proof. unfold multiline_window. rewrite in_py_range. lia. Qed.

Lemma detect_multiline_format_count (lines : list text) :
  detect_multiline_format lines
  = Ok (5 <=? length (filter (multiline_triple_at lines)
                        (multiline_window lines))).
Proof.
  unfold detect_multiline_format.
  rewrite detect_multiline_loop_count
    by (try apply multiline_window_bound; lia).
  reflexivity.
Qed.

Section SimpleCount.
Context {U : UnicodeDB}.

Lemma detect_simple_loop_count (lines : list text) (idxs : list nat) :
  (forall i, In i idxs -> i + 1 < length lines) ->
  forall n, n < 3 ->
  detect_simple_loop lines idxs n
  = Ok (3 <=? n + length (filter (simple_qualifies_at lines) idxs)).
Proof.
  induction idxs as [|i idxs IH]; intros Hb n Hn.
  - cbn [detect_simple_loop filter length]. rewrite Nat.add_0_r.
    f_equal. symmetry. apply Nat.leb_gt. lia.
  - assert (Hi : i + 1 < length lines) by (apply Hb; left; reflexivity).
    assert (Hb' : forall j, In j idxs -> j + 1 < length lines)
      by (intros j Hj; apply Hb; right; exact Hj).
    cbn [detect_simple_loop filter].
    rewrite (getitem_lt lines (i) []) by lia.
    rewrite (getitem_lt lines (i + 1) []) by lia.
    cbn [bind].
    unfold simple_qualifies_at at 1, simple_qualifies, stripped_at.
    destruct (is_empty (strip (nth i lines []))); cbn [negb andb];
      [apply IH; auto|].
    destruct (is_header_line _); cbn [negb andb]; [apply IH; auto|].
    destruct (contains_year _); cbn [negb andb]; [apply IH; auto|].
    rewrite Nat.ltb_antisym.
    destruct (length (strip (nth i lines [])) <=? 50); cbn [negb andb];
      [|apply IH; auto].
    destruct (in_ (py ":") _ && negb (starts_with (py "-") _));
      cbn [negb andb]; [apply IH; auto|].
    destruct (simple_word_then_translation _ _); [|apply IH; auto].
    cbn [length].
    destruct (3 <=? n + 1) eqn:E.
    + f_equal. symmetry. apply Nat.leb_le. apply Nat.leb_le in E. lia.
    + apply Nat.leb_gt in E. rewrite IH by (auto; lia).
      f_equal. f_equal. lia.
Qed.

Lemma simple_window_bound (lines : list text) (i : nat) :
  In i (simple_window lines) -> i + 1 < length lines.
Proof. unfold simple_window. rewrite in_py_range. lia. Qed.

Lemma detect_simple_format_count (lines : list text) :
  detect_simple_format lines
  = Ok (negb (has_pronunciation_pos lines)
        && (3 <=? length (filter (simple_qualifies_at lines)
                            (simple_window lines)))).
Proof.
  unfold detect_simple_format.
  destruct (has_pronunciation_pos lines); [reflexivity|].
  rewrite detect_simple_loop_count
    by (try apply simple_window_bound; lia).
  reflexivity.
Qed.
End SimpleCount.

(* ===================================================================== *)
(** ** Totality of the loops *)

Section Totality.
Context {U : UnicodeDB}.
Variable filters : pos_filters.
Variable lines : list text.

Lemma alternating_loop_total idxs :
  (forall i, In i idxs -> i + 1 < length lines) ->
  forall samples, exists r, alternating_loop lines idxs samples = Ok r.
Proof.
  induction idxs as [|i idxs IH]; intros Hb samples; [eexists; reflexivity|].
  assert (Hi : i + 1 < length lines) by (apply Hb; left; reflexivity).
  assert (Hb' : forall j, In j idxs -> j + 1 < length lines)
    by (intros j Hj; apply Hb; right; exact Hj).
  cbn [alternating_loop].
  rewrite (getitem_lt lines (i) []) by lia.
  rewrite (getitem_lt lines (i + 1) []) by lia.
  cbn [bind].
  destruct (negb _ && negb _ && negb _ && negb _); [|apply IH; auto].
  destruct (5 <=? _); [eexists; reflexivity|apply IH; auto].
Qed.

Lemma detect_alternating_pattern_total :
  exists p, detect_alternating_pattern lines = Ok p.
Proof.
  unfold detect_alternating_pattern.
  destruct (alternating_loop_total
              (py_range 50 (Nat.min 200 (length lines - 1))))
    with (samples := @nil string) as [r Hr].
  { intros i Hi. apply in_py_range in Hi. lia. }
  rewrite Hr. cbn [bind].
  destruct r; [eexists; reflexivity|].
  case_ifs; eexists; reflexivity.
Qed.

Lemma pattern_words_loop_total role pattern idxs :
  (forall i, In i idxs -> i + 1 < length lines) ->
  forall words,
  exists r, pattern_words_loop filters lines role pattern idxs words = Ok r.
Proof.
  induction idxs as [|i idxs IH]; intros Hb words; [eexists; reflexivity|].
  assert (Hi : i + 1 < length lines) by (apply Hb; left; reflexivity).
  assert (Hb' : forall j, In j idxs -> j + 1 < length lines)
    by (intros j Hj; apply Hb; right; exact Hj).
  cbn [pattern_words_loop].
  rewrite (getitem_lt lines (i) []) by lia.
  rewrite (getitem_lt lines (i + 1) []) by lia.
  cbn [bind].
  case_ifs; apply IH; auto.
Qed.

Lemma multiline_words_loop_total role fuel :
  forall i words, length lines <= i + fuel ->
  exists r, multiline_words_loop filters fuel lines role i words = Ok r.
Proof.
  induction fuel as [|fuel IH]; intros i words Hf;
    cbn [multiline_words_loop];
    destruct (i <? length lines - 2) eqn:E;
    try (eexists; reflexivity).
  - apply Nat.ltb_lt in E. lia.
  - apply Nat.ltb_lt in E.
    rewrite (getitem_lt lines (i) []) by lia.
    rewrite (getitem_lt lines (i + 1) []) by lia.
    rewrite (getitem_lt lines (i + 2) []) by lia.
    cbn [bind].
    case_ifs; apply IH; lia.
Qed.

Lemma extract_multiline_format_words_total role :
  exists r, extract_multiline_format_words filters lines role = Ok r.
Proof. apply multiline_words_loop_total. lia. Qed.

Lemma extract_words_with_pattern_detection_total role pattern :
  exists r,
    extract_words_with_pattern_detection filters lines role pattern = Ok r.
Proof.
  unfold extract_words_with_pattern_detection.
  rewrite detect_multiline_format_count. cbn [bind].
  destruct (5 <=? _).
  - apply extract_multiline_format_words_total.
  - apply pattern_words_loop_total.
    intros i Hi. apply in_py_range in Hi. lia.
Qed.

Lemma header_skip_start_total idxs :
  (forall i, In i idxs -> i < length lines) ->
  exists r, header_skip_start lines idxs = Ok r.
Proof.
  induction idxs as [|i idxs IH]; intros Hb; [eexists; reflexivity|].
  assert (Hi : i < length lines) by (apply Hb; left; reflexivity).
  assert (Hb' : forall j, In j idxs -> j < length lines)
    by (intros j Hj; apply Hb; right; exact Hj).
  cbn [header_skip_start].
  rewrite (getitem_lt lines (i) []) by lia.
  cbn [bind].
  destruct (_ || _ || _ || _ || _); [apply IH; auto|].
  destruct (i + 1 <? length lines) eqn:E.
  - apply Nat.ltb_lt in E.
    rewrite (getitem_lt lines (i + 1) []) by lia.
    cbn [bind].
    case_ifs; try (eexists; reflexivity); apply IH; auto.
  - rewrite andb_false_r. apply IH; auto.
Qed.

Lemma header_skip_loop_total role fuel :
  forall i words, length lines <= i + fuel ->
  exists r, header_skip_loop filters fuel lines role i words = Ok r.
Proof.
  induction fuel as [|fuel IH]; intros i words Hf;
    cbn [header_skip_loop];
    destruct (i <? length lines - 1) eqn:E;
    try (eexists; reflexivity).
  - apply Nat.ltb_lt in E. lia.
  - apply Nat.ltb_lt in E.
    rewrite (getitem_lt lines (i) []) by lia.
    rewrite (getitem_lt lines (i + 1) []) by lia.
    cbn [bind].
    case_ifs; apply IH; lia.
Qed.

Lemma _extract_with_header_skip_total role :
  exists r, _extract_with_header_skip filters lines role = Ok r.
Proof.
  unfold _extract_with_header_skip.
  destruct (header_skip_start_total (py_range 0 (length lines)))
    as [s Hs].
  { intros i Hi. apply in_py_range in Hi. lia. }
  rewrite Hs. cbn [bind]. apply header_skip_loop_total. lia.
Qed.
End Totality.

(* ===================================================================== *)
(** ** The line pipeline *)

(** C9: on every list of lines, for every role and either packaging flag,
    [extract_words_from_gzip_content] returns a list of words: no index is
    out of range and both [while] loops stop within their fuel. *)
Theorem C9_gzip_content_total :
  forall (U : UnicodeDB) (filters : pos_filters) (lines : list text)
         (extract_language : string) (is_dz_file : bool),
  exists words,
    extract_words_from_gzip_content filters lines extract_language is_dz_file
    = Ok words.
Proof.
  intros U filters lines role dz.
  unfold extract_words_from_gzip_content.
  destruct (in_strings _ _); [eexists; reflexivity|].
  destruct (detect_alternating_pattern_total (map rstrip_nl lines))
    as [pattern Hp].
  rewrite Hp. cbn [bind].
  destruct (in_strings pattern _).
  - destruct (dz && _);
      apply extract_words_with_pattern_detection_total.
  - rewrite detect_simple_format_count, detect_multiline_format_count.
    cbn [bind].
    destruct (negb _ && _); [eexists; reflexivity|].
    destruct (5 <=? _).
    + apply extract_multiline_format_words_total.
    + apply _extract_with_header_skip_total.
Qed.

Lemma py_range_empty (a b : nat) : b <= a -> py_range a b = [].
Proof.
  intros H. unfold py_range. replace (b - a) with 0 by lia. reflexivity.
Qed.

Lemma short_corpus_detectors (U : UnicodeDB) (lines : list text) :
  length lines < 52 ->
  detect_alternating_pattern lines = Ok "unknown"%string
  /\ detect_simple_format lines = Ok false
  /\ detect_multiline_format lines = Ok false.
Proof.
  intros H. repeat split.
  - unfold detect_alternating_pattern.
    rewrite py_range_empty by lia. reflexivity.
  - unfold detect_simple_format.
    rewrite py_range_empty by lia.
    destruct (has_pronunciation_pos lines); reflexivity.
  - unfold detect_multiline_format.
    rewrite py_range_empty by lia. reflexivity.
Qed.

(** C10: on a corpus of fewer than 52 lines the three detection windows
    are empty: [detect_alternating_pattern] answers ['unknown'],
    [detect_simple_format] and [detect_multiline_format] answer [False];
    when the document script is Latin the words are those of
    [_extract_with_header_skip]. *)
Theorem C10_short_corpus_header_skip :
  forall (U : UnicodeDB) (filters : pos_filters) (lines : list text),
  length lines < 52 ->
  detect_alternating_pattern lines = Ok "unknown"%string
  /\ detect_simple_format lines = Ok false
  /\ detect_multiline_format lines = Ok false
  /\ (detect_target_language_script lines 500 = "latin"%string ->
      forall (extract_language : string) (is_dz_file : bool),
        extract_words_from_gzip_content filters lines extract_language
          is_dz_file
        = _extract_with_header_skip filters lines extract_language).
Proof.
  intros U filters lines H.
  destruct (short_corpus_detectors U lines H) as (Ha & Hs & Hm).
  repeat split; trivial.
  intros Hl role dz.
  unfold extract_words_from_gzip_content.
  rewrite detect_target_language_script_rstrip_nl, Hl.
  destruct (short_corpus_detectors U (map rstrip_nl lines))
    as (Ha' & Hs' & Hm').
  { rewrite length_map. exact H. }
  rewrite Ha', Hs', Hm'. cbn.
  apply _extract_with_header_skip_rstrip_nl.
Qed.

Lemma C10_short_corpus_witness :
  length corpus_two_lines < 52
  /\ detect_target_language_script corpus_two_lines 500 = "latin"%string
  /\ @extract_words_from_gzip_content latin1_db POS_FILTERS corpus_two_lines
       "target" false
     = Ok [ py "abc"; py "def" ].
Proof.
  assert (H : length corpus_two_lines < 52) by (vm_compute; lia).
  split; [exact H|]. split; [reflexivity|].
  destruct (C10_short_corpus_header_skip latin1_db POS_FILTERS
              corpus_two_lines H) as (_ & _ & _ & Hx).
  rewrite Hx by reflexivity. reflexivity.
Defined.

(** C2: for a corpus whose document script is Latin and whose alternating
    pattern is ['target-source'], a [.dz] call for role [r] returns what
    [extract_words_with_pattern_detection] returns for the opposite role;
    without the [.dz] flag, or for the pattern ['source-target'], the role
    is passed on unchanged. *)
Theorem C2_dz_target_source_swaps_role :
  forall (U : UnicodeDB) (filters : pos_filters) (lines : list text)
         (r : string),
  detect_target_language_script lines 500 = "latin"%string ->
  r = "source"%string \/ r = "target"%string ->
  (detect_alternating_pattern lines = Ok "target-source"%string ->
   extract_words_from_gzip_content filters lines r true
   = extract_words_with_pattern_detection filters lines (opposite_role r)
       "target-source"
   /\ (opposite_role r = "source"%string \/ opposite_role r = "target"%string)
   /\ opposite_role r <> r
   /\ extract_words_from_gzip_content filters lines r false
      = extract_words_with_pattern_detection filters lines r "target-source")
  /\ (detect_alternating_pattern lines = Ok "source-target"%string ->
      forall is_dz_file,
        extract_words_from_gzip_content filters lines r is_dz_file
        = extract_words_with_pattern_detection filters lines r
            "source-target").
Proof.
  intros U filters lines r Hl Hr.
  unfold extract_words_from_gzip_content.
  rewrite detect_target_language_script_rstrip_nl, Hl,
    detect_alternating_pattern_rstrip_nl.
  split; intros Hp; rewrite Hp; cbn.
  - repeat split.
    + apply extract_words_with_pattern_detection_rstrip_nl.
    + destruct Hr; subst r; [right|left]; reflexivity.
    + destruct Hr; subst r; discriminate.
    + apply extract_words_with_pattern_detection_rstrip_nl.
  - intros dz. rewrite andb_false_r.
    apply extract_words_with_pattern_detection_rstrip_nl.
Qed.

Lemma C2_dz_target_source_witness :
  detect_target_language_script corpus_target_source 500 = "latin"%string
  /\ @detect_alternating_pattern latin1_db corpus_target_source
     = Ok "target-source"%string
  /\ @extract_words_from_gzip_content latin1_db POS_FILTERS
       corpus_target_source "source" true
     = Ok [ py "casa" ].
Proof.
  split; [reflexivity|]. split; [reflexivity|].
  destruct (C2_dz_target_source_swaps_role latin1_db POS_FILTERS
              corpus_target_source "source" eq_refl (or_introl eq_refl))
    as [Hx _].
  destruct (Hx eq_refl) as [Hy _].
  rewrite Hy. reflexivity.
Defined.

(** C1: the 60-line corpus with ["casa /ˈkasa/ <n>"] at lines 50, 52, 54
    and ["house"] at lines 51, 53, 55 has document script Latin and
    alternating pattern ['source-target']; with the default POS filters the
    source-role words contain ["casa"] and the target-role words contain
    ["house"]. *)
Theorem C1_casa_house_source_target :
  forall (U : UnicodeDB),
  length corpus60 = 60
  /\ detect_target_language_script corpus60 500 = "latin"%string
  /\ detect_alternating_pattern corpus60 = Ok "source-target"%string
  /\ (exists words,
        extract_words_from_gzip_content POS_FILTERS corpus60 "source" false
        = Ok words /\ In (py "casa") words)
  /\ (exists words,
        extract_words_from_gzip_content POS_FILTERS corpus60 "target" false
        = Ok words /\ In (py "house") words).
Proof.
  intros U. split; [reflexivity|]. split; [reflexivity|].
  split; [vm_compute; reflexivity|]. split.
  - exists [ py "casa"; py "casa"; py "casa" ]. split.
    + vm_compute. reflexivity.
    + left. reflexivity.
  - exists [ py "house"; py "house"; py "house" ]. split.
    + vm_compute. reflexivity.
    + left. reflexivity.
Qed.

(* ===================================================================== *)
(** ** Multiline and simple detection *)

(** C5, the code at the failing input.  [corpus_bracketed_translations]
    is 50 blank lines followed by five triples [word /w/ <n>],
    [palabra <b>], [A term.].  The second line of every triple holds angle
    brackets, so no triple qualifies as the claim words it, and
    [extract_multiline_format_words], whose test bars ['<'] from the second
    line, takes no word from them.  The loop of [detect_multiline_format]
    tests the second line for a slash only: it counts the five triples and
    returns [True].  The corpus, whose alternating pattern is
    ['target-source'], is thereby sent to the multiline extraction and
    gives no word for either role, where the pattern loop gives the five
    headwords. *)
Theorem C5_multiline_detector_counts_bracketed_lines :
  forall (U : UnicodeDB),
  let lines := corpus_bracketed_translations in
  filter (claimed_multiline_triple_at lines) (multiline_window lines) = []
  /\ length (filter (multiline_triple_at lines) (multiline_window lines)) = 5
  /\ detect_multiline_format lines = Ok true
  /\ extract_multiline_format_words POS_FILTERS lines "source" = Ok []
  /\ extract_multiline_format_words POS_FILTERS lines "target" = Ok []
  /\ detect_target_language_script lines 500 = "latin"%string
  /\ detect_alternating_pattern lines = Ok "target-source"%string
  /\ extract_words_from_gzip_content POS_FILTERS lines "source" false = Ok []
  /\ extract_words_from_gzip_content POS_FILTERS lines "target" false = Ok []
  /\ pattern_words_loop POS_FILTERS lines "target" "target-source"
       (py_range 0 (length lines - 1)) []
     = Ok (repeat (py "word") 5).
Proof. intros U. cbv zeta. repeat split; vm_compute; reflexivity. Qed.

Lemma drop_while_head (p : cp -> bool) (s : text) :
  match drop_while p s with
  | [] => True
  | c :: _ => p c = false
  end.
Proof.
  induction s as [|c s IH]; simpl; [exact I|].
  destruct (p c) eqn:E; [exact IH | exact E].
Qed.

(** A stripped line does not start with whitespace. *)
Lemma strip_head (l : text) :
  match strip l with
  | [] => True
  | c :: _ => isspace c = false
  end.
Proof.
  unfold strip, strip_by, lstrip_by.
  pose proof (drop_while_head isspace l) as H.
  destruct (drop_while isspace l) as [|c t]; [exact I|].
  rewrite rstrip_by_cons, H, andb_false_r. exact H.
Qed.

Lemma strip_no_leading_blank (l : text) :
  existsb (fun p => starts_with p (strip l)) [ py " "; [9%N] ] = false.
Proof.
  pose proof (strip_head l) as H.
  destruct (strip l) as [|c t]; [reflexivity|].
  cbn [existsb starts_with]. rewrite !andb_true_r.
  change (py " ") with [32%N]. cbn [starts_with]. rewrite !andb_true_r.
  destruct (32 =? c)%N eqn:E1.
  { apply N.eqb_eq in E1. subst c. discriminate H. }
  destruct (9 =? c)%N eqn:E2.
  { apply N.eqb_eq in E2. subst c. discriminate H. }
  reflexivity.
Qed.

(** On a stripped line the loop body of [detect_simple_format] tests what
    the specification lists and, besides, that the line does not end in a
    colon. *)
Lemma simple_qualifies_claimed (U : UnicodeDB) (l next_line : text) :
  simple_qualifies (strip l) next_line
  = claimed_simple_qualifies (strip l) next_line
    && negb (ends_with (py ":") (strip l)).
Proof.
  unfold simple_qualifies, claimed_simple_qualifies,
    simple_word_then_translation.
  rewrite strip_no_leading_blank.
  destruct (is_empty (strip l)); [reflexivity|].
  destruct (is_header_line (strip l)); [reflexivity|].
  destruct (contains_year (strip l)); [reflexivity|].
  destruct (length (strip l) <=? 50); [|reflexivity].
  destruct (in_ (py ":") (strip l)), (starts_with (py "-") (strip l));
    cbn [negb andb orb]; try reflexivity;
    destruct (is_empty next_line); cbn [negb andb orb];
    rewrite ?andb_false_r; try reflexivity;
    destruct (existsb _ SIMPLE_MARKERS); cbn [negb andb orb];
    try reflexivity;
    destruct (length (strip l) <=? 30); cbn [negb andb orb];
    rewrite ?andb_false_r; try reflexivity;
    destruct (ends_with (py ":") (strip l)); cbn [negb andb orb];
    rewrite ?andb_false_r, ?andb_true_r; reflexivity.
Qed.

(* ===================================================================== *)
(** ** The document script *)

Lemma cp_between_true (lo hi c : cp) :
  cp_between lo hi c = true <-> (lo <= c <= hi)%N.
Proof.
  unfold cp_between. rewrite andb_true_iff, !N.leb_le. reflexivity.
Qed.

Lemma cp_between_false (lo hi c : cp) :
  cp_between lo hi c = false <-> (c < lo \/ hi < c)%N.
Proof.
  unfold cp_between. rewrite andb_false_iff, !N.leb_gt. reflexivity.
Qed.

Ltac ranges :=
  repeat match goal with
         | H : cp_between _ _ _ = true |- _ => apply cp_between_true in H
         | H : cp_between _ _ _ = false |- _ => apply cp_between_false in H
         | H : _ || _ = true |- _ => apply orb_true_iff in H; destruct H
         | H : _ || _ = false |- _ =>
           apply orb_false_iff in H; destruct H
         end.

(** The [if]/[elif] chain sorts a character under tag [k] exactly when
    the character lies in a tracked range of [k]: the ranges are
    disjoint, so the order of the chain does not matter. *)
Lemma script_of_code_in_script (k : string) (c : cp) :
  script_of_code c = Some k <-> in_script k c = true.
Proof.
  unfold script_of_code, in_script, SCRIPT_RANGES.
  cbn [assoc].
  destruct (String.eqb_spec k "arabic");
    [|destruct (String.eqb_spec k "cyrillic");
      [|destruct (String.eqb_spec k "cjk");
        [|destruct (String.eqb_spec k "devanagari");
          [|destruct (String.eqb_spec k "latin")]]]];
    subst; cbn [existsb fst snd]; rewrite ?orb_false_r;
    repeat match goal with
           | |- context [if ?b then _ else _] => destruct b eqn:?
           end;
    split; intros H; try discriminate; try reflexivity;
    try congruence;
    try (exfalso; ranges; lia);
    try (rewrite orb_assoc; assumption).
Qed.

Lemma in_script_tracked (k : string) (c : cp) :
  in_script k c = true ->
  In k [ "arabic"; "cyrillic"; "cjk"; "devanagari"; "latin" ]%string.
Proof.
  intros H. apply script_of_code_in_script in H.
  unfold script_of_code in H.
  repeat match type of H with
         | (if ?b then _ else _) = _ => destruct b
         end;
    inversion H; cbn; tauto.
Qed.

(* --------------------------------------------------------------------- *)
(** *** The counter *)

Lemma counter_get_incr (k k' : string) (c : counter) :
  counter_get (counter_incr k c) k'
  = if String.eqb k' k then S (counter_get c k') else counter_get c k'.
Proof.
  unfold counter_get. induction c as [|[k0 n] c IH]; cbn [counter_incr assoc].
  - destruct (String.eqb k' k); reflexivity.
  - destruct (String.eqb_spec k k0) as [->|Hk]; cbn [assoc].
    + destruct (String.eqb k' k0); reflexivity.
    + destruct (String.eqb_spec k' k0) as [->|Hk'].
      * destruct (String.eqb_spec k0 k); [congruence|reflexivity].
      * exact IH.
Qed.

Lemma counter_incr_positive (k : string) (c : counter) :
  counter_positive c -> counter_positive (counter_incr k c).
Proof.
  unfold counter_positive. induction 1 as [|[k0 n] c Hn Hc IH];
    cbn [counter_incr].
  - repeat constructor.
  - destruct (String.eqb k k0); constructor; cbn in *; auto; lia.
Qed.

Lemma counter_get_key_positive (c : counter) (k : string) :
  counter_positive c -> In k (map fst c) -> 0 < counter_get c k.
Proof.
  unfold counter_positive, counter_get.
  induction 1 as [|[k0 n] c Hn Hc IH]; cbn [map fst In assoc];
    [tauto|].
  intros [->|H].
  - rewrite String.eqb_refl. exact Hn.
  - destruct (String.eqb k k0); [exact Hn | exact (IH H)].
Qed.

Lemma counter_get_pop (k k' : string) (c : counter) :
  counter_get (counter_pop k c) k'
  = if String.eqb k k' then 0 else counter_get c k'.
Proof.
  unfold counter_get, counter_pop.
  induction c as [|[k0 n] c IH]; cbn [filter assoc fst].
  - destruct (String.eqb k k'); reflexivity.
  - destruct (String.eqb_spec k k0) as [->|Hk]; cbn [negb assoc].
    + rewrite IH. destruct (String.eqb_spec k0 k') as [->|Hk'];
        [reflexivity|].
      destruct (String.eqb_spec k' k0); [congruence|reflexivity].
    + destruct (String.eqb_spec k' k0) as [->|Hk'].
      * destruct (String.eqb_spec k k0); [congruence|reflexivity].
      * exact IH.
Qed.

Lemma counter_pop_keys (k k' : string) (c : counter) :
  In k' (map fst (counter_pop k c)) <-> k' <> k /\ In k' (map fst c).
Proof.
  unfold counter_pop. rewrite !in_map_iff. split.
  - intros [[k0 n] [E Hin]]. apply filter_In in Hin. destruct Hin as [Hin Hb].
    cbn in *. subst k0. split.
    + intros ->. rewrite String.eqb_refl in Hb. discriminate.
    + exists (k', n). auto.
  - intros [Hne [[k0 n] [E Hin]]]. cbn in E. subst k0.
    exists (k', n). split; [reflexivity|]. apply filter_In. split; [exact Hin|].
    cbn. destruct (String.eqb_spec k k'); [congruence|reflexivity].
Qed.

Lemma counter_pop_positive (k : string) (c : counter) :
  counter_positive c -> counter_positive (counter_pop k c).
Proof.
  unfold counter_positive, counter_pop. intros H.
  apply Forall_forall. intros kv Hin. apply filter_In in Hin.
  rewrite Forall_forall in H. apply H. tauto.
Qed.

(** [max(xs, key=f)] returns an element whose key no other exceeds. *)
Lemma py_max_by_spec (f : string -> nat) (rest : list string) :
  forall best,
  In (py_max_by f best rest) (best :: rest)
  /\ forall k, In k (best :: rest) -> f k <= f (py_max_by f best rest).
Proof.
  induction rest as [|k0 rest IH]; intros best; cbn [py_max_by].
  - split; [left; reflexivity|]. intros k [->|[]]. lia.
  - destruct (f best <? f k0) eqn:E.
    + destruct (IH k0) as [H1 H2]. split.
      * destruct H1 as [<-|H1]; [right; left; reflexivity|right; right; exact H1].
      * apply Nat.ltb_lt in E. intros k [->|[->|H]].
        -- specialize (H2 k0 (or_introl eq_refl)). lia.
        -- apply H2. left. reflexivity.
        -- apply H2. right. exact H.
    + destruct (IH best) as [H1 H2]. split.
      * destruct H1 as [<-|H1]; [left; reflexivity|right; right; exact H1].
      * apply Nat.ltb_ge in E. intros k [->|[->|H]].
        -- apply H2. left. reflexivity.
        -- specialize (H2 best (or_introl eq_refl)). lia.
        -- apply H2. right. exact H.
Qed.

(* --------------------------------------------------------------------- *)
(** *** The tally *)

Lemma tally_char_get (counts : counter) (c : cp) (k : string) :
  counter_get (tally_char counts c) k
  = counter_get counts k + (if in_script k c then 1 else 0).
Proof.
  unfold tally_char.
  destruct (script_of_code c) as [k0|] eqn:E.
  - rewrite counter_get_incr.
    destruct (String.eqb_spec k k0) as [->|Hk].
    + apply script_of_code_in_script in E. rewrite E. lia.
    + destruct (in_script k c) eqn:E2; [|lia].
      apply script_of_code_in_script in E2. congruence.
  - destruct (in_script k c) eqn:E2; [|lia].
    apply script_of_code_in_script in E2. congruence.
Qed.

Lemma tally_char_positive (counts : counter) (c : cp) :
  counter_positive counts -> counter_positive (tally_char counts c).
Proof.
  unfold tally_char. destruct (script_of_code c); auto.
  apply counter_incr_positive.
Qed.

Lemma tally_line_get (line : text) (counts : counter) (k : string) :
  counter_get (tally_line counts line) k
  = counter_get counts k + length (filter (in_script k) line).
Proof.
  unfold tally_line. revert counts.
  induction line as [|c line IH]; intros counts; cbn [fold_left filter].
  - cbn. lia.
  - rewrite IH, tally_char_get.
    destruct (in_script k c); cbn [length]; lia.
Qed.

Lemma tally_line_positive (line : text) (counts : counter) :
  counter_positive counts -> counter_positive (tally_line counts line).
Proof.
  unfold tally_line. revert counts.
  induction line as [|c line IH]; intros counts H; cbn [fold_left];
    [exact H|].
  apply IH, tally_char_positive, H.
Qed.

(** The loop over [enumerate(lines)] folds over the first [sample_size]
    lines and stops. *)
Lemma tally_lines_firstn (lines : list text) (sample_size : Z) :
  forall i counts,
  tally_lines i sample_size lines counts
  = fold_left tally_line (firstn (Z.to_nat sample_size - i) lines) counts.
Proof.
  induction lines as [|l lines IH]; intros i counts; cbn [tally_lines].
  - rewrite firstn_nil. reflexivity.
  - destruct (sample_size <=? Z.of_nat i)%Z eqn:E.
    + apply Z.leb_le in E.
      replace (Z.to_nat sample_size - i) with 0 by lia. reflexivity.
    + apply Z.leb_gt in E.
      replace (Z.to_nat sample_size - i)
        with (S (Z.to_nat sample_size - S i)) by lia.
      cbn [firstn fold_left]. apply IH.
Qed.

Lemma tally_lines_sample (lines : list text) (sample_size : Z) :
  tally_lines 0 sample_size lines []
  = fold_left tally_line (sample_of lines sample_size) [].
Proof.
  rewrite tally_lines_firstn, Nat.sub_0_r. reflexivity.
Qed.

Lemma fold_tally_get (sample : list text) (counts : counter) (k : string) :
  counter_get (fold_left tally_line sample counts) k
  = counter_get counts k + script_count k sample.
Proof.
  unfold script_count. revert counts.
  induction sample as [|l sample IH]; intros counts;
    cbn [fold_left List.concat].
  - cbn. lia.
  - rewrite IH, tally_line_get, filter_app, length_app. lia.
Qed.

Lemma fold_tally_positive (sample : list text) (counts : counter) :
  counter_positive counts ->
  counter_positive (fold_left tally_line sample counts).
Proof.
  revert counts. induction sample as [|l sample IH]; intros counts H;
    cbn [fold_left]; [exact H|].
  apply IH, tally_line_positive, H.
Qed.

Lemma script_count_tracked (k : string) (sample : list text) :
  0 < script_count k sample ->
  In k [ "arabic"; "cyrillic"; "cjk"; "devanagari"; "latin" ]%string.
Proof.
  unfold script_count. intros H.
  destruct (filter (in_script k) (List.concat sample)) as [|c l] eqn:E;
    [cbn in H; lia|].
  assert (Hc : In c (filter (in_script k) (List.concat sample)))
    by (rewrite E; left; reflexivity).
  apply filter_In in Hc. destruct Hc as [_ Hc].
  exact (in_script_tracked k c Hc).
Qed.

Lemma counter_get_pos_key (c : counter) (k : string) :
  0 < counter_get c k -> In k (map fst c).
Proof.
  unfold counter_get. induction c as [|[k0 n] c IH]; cbn [assoc map fst In].
  - lia.
  - destruct (String.eqb_spec k k0) as [->|Hk]; [left; reflexivity|].
    intros H. right. exact (IH H).
Qed.

(** What [detect_target_language_script] returns, from the counts of the
    sample. *)
Lemma detect_script_spec (lines : list text) (sample_size : Z) :
  let sample := sample_of lines sample_size in
  let r := detect_target_language_script lines sample_size in
  ((forall k, In k NON_LATIN_SCRIPTS -> script_count k sample = 0) ->
   r = "latin"%string)
  /\ ((exists k, In k NON_LATIN_SCRIPTS /\ 0 < script_count k sample) ->
      In r NON_LATIN_SCRIPTS
      /\ forall k, In k NON_LATIN_SCRIPTS ->
                   script_count k sample <= script_count r sample).
Proof.
  intros sample r. subst r. unfold detect_target_language_script.
  rewrite tally_lines_sample. fold sample.
  set (c := fold_left tally_line sample []).
  assert (G : forall k, counter_get c k = script_count k sample).
  { intros k. unfold c. rewrite fold_tally_get. reflexivity. }
  assert (P : counter_positive c)
    by (apply fold_tally_positive; constructor).
  assert (G' : forall k, In k NON_LATIN_SCRIPTS ->
                 counter_get (counter_pop "latin" c) k = script_count k sample).
  { intros k Hk. rewrite counter_get_pop, G.
    destruct (String.eqb_spec "latin" k) as [<-|_]; [|reflexivity].
    cbn in Hk. repeat (destruct Hk as [Hk|Hk]; try discriminate). tauto. }
  assert (Hnil : counter_pop "latin" c = [] ->
                 forall k, In k NON_LATIN_SCRIPTS -> script_count k sample = 0).
  { intros E k Hk. rewrite <- (G' k Hk), E. reflexivity. }
  destruct (counter_pop "latin" c) as [|[k0 n0] rest] eqn:E.
  - assert (Hz := Hnil eq_refl).
    assert (R : (match c with [] => "latin"%string | _ :: _ => "latin"%string
                 end) = "latin"%string) by (destruct c; reflexivity).
    destruct c; (split; [reflexivity|]);
      intros (k & Hk & Hpos); specialize (Hz k Hk); lia.
  - destruct c as [|p c0] eqn:Ec; [discriminate E|]. rewrite <- Ec in *.
    clear Hnil.
    destruct (py_max_by_spec
                (counter_get (counter_pop "latin" c)) (map fst rest) k0)
      as [Hin Hmax].
    rewrite E in Hin, Hmax.
    set (r := py_max_by (counter_get ((k0, n0) :: rest)) k0 (map fst rest))
      in *.
    change (k0 :: map fst rest) with (map fst ((k0, n0) :: rest)) in Hin, Hmax.
    rewrite <- E in Hin, Hmax, G'.
    assert (Hr : 0 < counter_get (counter_pop "latin" c) r).
    { apply counter_get_key_positive; [|exact Hin].
      apply counter_pop_positive, P. }
    assert (Hrl : r <> "latin"%string)
      by (apply counter_pop_keys in Hin; tauto).
    assert (Hrc : counter_get (counter_pop "latin" c) r
                  = script_count r sample).
    { rewrite counter_get_pop, G.
      destruct (String.eqb_spec "latin" r); [congruence|reflexivity]. }
    assert (Hrn : In r NON_LATIN_SCRIPTS).
    { assert (Ht : 0 < script_count r sample) by lia.
      apply script_count_tracked in Ht. cbn in Ht |- *.
      intuition congruence. }
    split.
    + intros Hz. specialize (Hz r Hrn). lia.
    + intros _. split; [exact Hrn|].
      intros k Hk. rewrite <- (G' k Hk), <- Hrc.
      destruct (Nat.eq_dec (counter_get (counter_pop "latin" c) k) 0)
        as [Hz|Hnz]; [lia|].
      apply Hmax, counter_get_pos_key. lia.
Qed.

(** C4: [detect_target_language_script] depends only on the first
    [sample_size] lines; its counter holds, for every tag, the number of
    characters of the sample in that tag's ranges (Latin being 0x20 to
    0x7F); it returns ['latin'] when no character of the sample lies in a
    non-Latin range (in particular when none lies in any tracked range),
    and otherwise a non-Latin tag whose count no other non-Latin tag
    exceeds, whatever the Latin count. *)
Theorem C4_document_script :
  forall (lines : list text) (sample_size : Z),
  let sample := sample_of lines sample_size in
  let r := detect_target_language_script lines sample_size in
  (forall lines2, sample_of lines2 sample_size = sample ->
                  detect_target_language_script lines2 sample_size = r)
  /\ (forall k, counter_get (tally_lines 0 sample_size lines []) k
                = script_count k sample)
  /\ (forall c, in_script "latin" c = cp_between 0x20 0x7F c)
  /\ ((forall k, In k NON_LATIN_SCRIPTS -> script_count k sample = 0) ->
      r = "latin"%string)
  /\ ((exists k, In k NON_LATIN_SCRIPTS /\ 0 < script_count k sample) ->
      In r NON_LATIN_SCRIPTS
      /\ forall k, In k NON_LATIN_SCRIPTS ->
                   script_count k sample <= script_count r sample).
Proof.
  intros lines sample_size sample r.
  split; [|split; [|split]].
  - intros lines2 H. subst r. unfold detect_target_language_script.
    rewrite !tally_lines_sample, H. reflexivity.
  - intros k. rewrite tally_lines_sample, fold_tally_get. reflexivity.
  - intros c. unfold in_script. cbn. apply orb_false_r.
  - exact (detect_script_spec lines sample_size).
Qed.

Lemma C4_document_script_witness :
  In (detect_target_language_script corpus_arabic_majority 500)
    NON_LATIN_SCRIPTS.
Proof.
  destruct (C4_document_script corpus_arabic_majority 500)
    as (_ & _ & _ & _ & H).
  apply H. exists "arabic"%string. split; [cbn; tauto|].
  vm_compute. lia.
Defined.

(** Cyrillic wins when it has strictly more characters in the sample than
    every other non-Latin tag. *)
Lemma cyrillic_dominant (lines : list text) (sample_size : Z) :
  (forall k, In k [ "arabic"; "cjk"; "devanagari" ]%string ->
             script_count k (sample_of lines sample_size)
             < script_count "cyrillic" (sample_of lines sample_size)) ->
  detect_target_language_script lines sample_size = "cyrillic"%string.
Proof.
  intros H.
  destruct (detect_script_spec lines sample_size) as [_ Hs].
  destruct Hs as [Hin Hmax].
  { exists "cyrillic"%string. split; [cbn; tauto|].
    specialize (H "arabic"%string (or_introl eq_refl)). lia. }
  specialize (Hmax "cyrillic"%string).
  cbn in Hin.
  destruct Hin as [E|[E|[E|[E|[]]]]]; rewrite <- E in *; try reflexivity;
    match goal with
    | |- ?k = _ => specialize (H k); cbn in H, Hmax
    end;
    assert (Hc := H ltac:(tauto)); assert (Hm := Hmax ltac:(tauto)); lia.
Qed.

(** C3, as amended: a 500-line corpus whose first 100 lines hold at least
    50 Cyrillic characters, and in which Arabic, CJK and Devanagari
    characters are each fewer than the Cyrillic ones, has document script
    ['cyrillic'], and its words are those of the script-driven extraction
    for ['cyrillic'], whatever alternating-pattern evidence it holds. *)
Theorem C3_cyrillic_script_driven :
  forall (U : UnicodeDB) (filters : pos_filters) (lines : list text),
  length lines = 500 ->
  50 <= script_count "cyrillic" (firstn 100 lines) ->
  (forall k, In k [ "arabic"; "cjk"; "devanagari" ]%string ->
             script_count k lines < script_count "cyrillic" lines) ->
  detect_target_language_script lines 500 = "cyrillic"%string
  /\ forall (extract_language : string) (is_dz_file : bool),
       extract_words_from_gzip_content filters lines extract_language
         is_dz_file
       = Ok (extract_words_by_script_detection filters lines extract_language
               "cyrillic").
Proof.
  intros U filters lines Hlen _ Hdom.
  assert (Hs : sample_of lines 500 = lines).
  { unfold sample_of. apply firstn_all2. lia. }
  assert (Hc : detect_target_language_script lines 500 = "cyrillic"%string).
  { apply cyrillic_dominant. rewrite Hs. exact Hdom. }
  split; [exact Hc|].
  intros role dz. unfold extract_words_from_gzip_content.
  rewrite detect_target_language_script_rstrip_nl, Hc. cbn.
  f_equal. apply extract_words_by_script_detection_rstrip_nl.
Qed.

Lemma C3_cyrillic_witness :
  detect_target_language_script corpus_cyrillic 500 = "cyrillic"%string.
Proof.
  apply (C3_cyrillic_script_driven latin1_db POS_FILTERS corpus_cyrillic).
  - reflexivity.
  - vm_compute. lia.
  - intros k Hk. cbn in Hk.
    destruct Hk as [<-|[<-|[<-|[]]]]; vm_compute; lia.
Defined.

(** C3 as stated fails: 50 Cyrillic characters in the first 100 lines do
    not make Cyrillic dominant when another script has more. *)
Lemma C3_cyrillic_counterexample :
  length corpus_arabic_majority = 500
  /\ 50 <= script_count "cyrillic" (firstn 100 corpus_arabic_majority)
  /\ detect_target_language_script corpus_arabic_majority 500
     = "arabic"%string
  /\ @extract_words_from_gzip_content latin1_db POS_FILTERS
       corpus_arabic_majority "target" false
     = Ok (@extract_words_by_script_detection latin1_db POS_FILTERS
             corpus_arabic_majority "target" "arabic")
  /\ @extract_words_from_gzip_content latin1_db POS_FILTERS
       corpus_arabic_majority "target" false
     <> Ok (@extract_words_by_script_detection latin1_db POS_FILTERS
              corpus_arabic_majority "target" "cyrillic").
Proof.
  split; [reflexivity|]. split; [vm_compute; lia|].
  split; [reflexivity|]. split; [reflexivity|].
  vm_compute. discriminate.
Qed.

(* ===================================================================== *)
(** ** The binary index parser *)

Lemma skipn_length_app {A} (pre s : list A) : skipn (length pre) (pre ++ s) = s.
Proof. induction pre as [|a pre IH]; [reflexivity | exact IH]. Qed.

Lemma firstn_length_app {A} (a rest : list A) :
  firstn (length a) (a ++ rest) = a.
Proof.
  induction a as [|x a IH]; [reflexivity|]. cbn. rewrite IH. reflexivity.
Qed.

(** A slice that cuts a known middle part out of a buffer. *)
Lemma slice_middle {A} (data pre a rest : list A) (p q : nat) :
  data = pre ++ a ++ rest -> p = length pre -> q = p + length a ->
  slice data p q = a.
Proof.
  intros -> -> ->. unfold slice.
  rewrite skipn_length_app.
  replace (length pre + length a - length pre) with (length a) by lia.
  apply firstn_length_app.
Qed.

Lemma index_of_app_nul (w rest : bytes) :
  ~ In x00 w -> index_of x00 (w ++ x00 :: rest) = Some (length w).
Proof.
  induction w as [|x w IH]; intros H; cbn [app index_of length].
  - reflexivity.
  - destruct (Byte.eqb x x00) eqn:E.
    + apply Byte.byte_dec_bl in E. subst x. exfalso. apply H. left. reflexivity.
    + rewrite IH; [reflexivity|]. intros Hin. apply H. right. exact Hin.
Qed.

Lemma index_of_lt (b : byte) (data : bytes) (k : nat) :
  index_of b data = Some k -> k < length data.
Proof.
  revert k. induction data as [|x data IH]; intros k; cbn [index_of length].
  - discriminate.
  - destruct (Byte.eqb x b); [intros [= <-]; lia|].
    destruct (index_of b data) as [j|]; [|discriminate].
    intros [= <-]. specialize (IH j eq_refl). lia.
Qed.

Lemma bytes_find_at (b : byte) (pre s : bytes) :
  bytes_find b (pre ++ s) (length pre)
  = option_map (Nat.add (length pre)) (index_of b s).
Proof. unfold bytes_find. rewrite skipn_length_app. reflexivity. Qed.

Lemma bytes_find_bounds (b : byte) (data : bytes) (pos n : nat) :
  bytes_find b data pos = Some n -> pos <= n.
Proof.
  unfold bytes_find. destruct (index_of b (skipn pos data)); [|discriminate].
  intros [= <-]. lia.
Qed.

Lemma to_N_byte_of_N (n : N) : Byte.to_N (byte_of_N n) = (n mod 256)%N.
Proof.
  unfold byte_of_N.
  destruct (Byte.of_N (n mod 256)) as [b|] eqn:E.
  - apply Byte.to_of_N. exact E.
  - apply Byte.of_N_None_iff in E.
    pose proof (N.mod_upper_bound n 256). lia.
Qed.

Lemma be_uint32_be32 (n : N) :
  (n < 4294967296)%N ->
  match be32 n with
  | [a; b; c; d] => be_uint32 a b c d = n
  | _ => False
  end.
Proof.
  intros H. unfold be32, be_uint32. rewrite !to_N_byte_of_N.
  pose proof (N.div_mod n 256 ltac:(discriminate)) as H0.
  pose proof (N.div_mod (n / 256) 256 ltac:(discriminate)) as H1.
  pose proof (N.div_mod (n / 256 / 256) 256 ltac:(discriminate)) as H2.
  rewrite !N.Div0.div_div in H1, H2.
  rewrite N.Div0.div_div in H2.
  change (256 * 256)%N with 65536%N in *.
  change (65536 * 256)%N with 16777216%N in *.
  assert (H3 : (n / 16777216 < 256)%N).
  { apply N.Div0.div_lt_upper_bound. exact H. }
  rewrite (N.mod_small (n / 16777216) 256) by exact H3.
  pose proof (N.mod_upper_bound n 256 ltac:(discriminate)).
  pose proof (N.mod_upper_bound (n / 256) 256 ltac:(discriminate)).
  pose proof (N.mod_upper_bound (n / 65536) 256 ltac:(discriminate)).
  lia.
Qed.

Lemma unpack_II_be32 (o s : N) :
  (o < 4294967296)%N -> (s < 4294967296)%N ->
  unpack_II (be32 o ++ be32 s) = Some (o, s).
Proof.
  intros Ho Hs.
  pose proof (be_uint32_be32 o Ho) as Eo.
  pose proof (be_uint32_be32 s Hs) as Es.
  unfold be32 in *. cbn [app unpack_II]. rewrite Eo, Es. reflexivity.
Qed.

Lemma length_be32 (n : N) : length (be32 n) = 4.
Proof. reflexivity. Qed.

Lemma length_encode_record (r : idx_record) :
  length (encode_record r) = length (rec_word r) + 9.
Proof.
  unfold encode_record. rewrite length_app. cbn [length].
  rewrite length_app, !length_be32. lia.
Qed.

Section StarDictProofs.
Context {U : UnicodeDB}.

(** One complete record moves the primary pass one record on. *)
Lemma parse_index_step (fuel : nat) (pre rest dict_data : bytes)
    (r : idx_record) (entries : list (text * text)) :
  wf_record r ->
  parse_index_loop (S fuel) (pre ++ encode_record r ++ rest) dict_data
    (length pre) entries
  = parse_index_loop fuel (pre ++ encode_record r ++ rest) dict_data
      (length pre + length (encode_record r))
      (entries ++ entry_of dict_data r).
Proof.
  intros (Hw & Ho & Hs).
  rewrite length_encode_record.
  set (idx := pre ++ encode_record r ++ rest).
  assert (Hlen : length idx = length pre + length (rec_word r) + 9
                              + length rest).
  { unfold idx. rewrite !length_app, length_encode_record. lia. }
  assert (Hfind : bytes_find x00 idx (length pre)
                  = Some (length pre + length (rec_word r))).
  { unfold idx, encode_record. rewrite bytes_find_at, <- app_assoc.
    cbn [app]. rewrite index_of_app_nul by exact Hw. reflexivity. }
  assert (Hword : slice idx (length pre) (length pre + length (rec_word r))
                  = rec_word r).
  { apply (slice_middle idx pre (rec_word r)
             (x00 :: be32 (rec_offset r) ++ be32 (rec_size r) ++ rest));
      [|reflexivity|reflexivity].
    unfold idx, encode_record. rewrite <- !app_assoc. reflexivity. }
  assert (Hnum : slice idx (length pre + length (rec_word r) + 1)
                   (length pre + length (rec_word r) + 1 + 8)
                 = be32 (rec_offset r) ++ be32 (rec_size r)).
  { apply (slice_middle idx (pre ++ rec_word r ++ [x00])
             (be32 (rec_offset r) ++ be32 (rec_size r)) rest).
    - unfold idx, encode_record. rewrite <- !app_assoc. reflexivity.
    - rewrite !length_app. cbn [length]. lia.
    - rewrite length_app, !length_be32. lia. }
  cbn [parse_index_loop].
  replace (length pre <? length idx) with true
    by (symmetry; apply Nat.ltb_lt; lia).
  rewrite Hfind, Hword.
  replace (length idx <? length pre + length (rec_word r) + 1 + 8)
    with false by (symmetry; apply Nat.ltb_ge; lia).
  rewrite Hnum, unpack_II_be32 by assumption.
  replace (length pre + length (rec_word r) + 1 + 8)
    with (length pre + (length (rec_word r) + 9)) by lia.
  unfold entry_of, entry_definition.
  destruct (rec_offset r <? N.of_nat (length dict_data))%N;
    [reflexivity | rewrite app_nil_r; reflexivity].
Qed.

(** After the last complete record the primary pass stops. *)
Lemma parse_index_tail (fuel : nat) (pre tail dict_data : bytes)
    (entries : list (text * text)) :
  incomplete_tail tail -> length tail <= fuel ->
  parse_index_loop fuel (pre ++ tail) dict_data (length pre) entries
  = Ok (length pre + tail_pos tail, entries).
Proof.
  intros Ht Hf. unfold incomplete_tail in Ht. unfold tail_pos.
  destruct tail as [|b tail'] eqn:Et.
  - rewrite app_nil_r. cbn [index_of].
    destruct fuel; cbn [parse_index_loop]; rewrite Nat.ltb_irrefl;
      rewrite Nat.add_0_r; reflexivity.
  - rewrite <- Et in *.
    destruct fuel as [|fuel]; [subst tail; cbn in Hf; lia|].
    cbn [parse_index_loop].
    replace (length pre <? length (pre ++ tail)) with true.
    2:{ symmetry. apply Nat.ltb_lt. rewrite length_app. subst tail.
        cbn [length]. lia. }
    rewrite bytes_find_at.
    destruct (index_of x00 tail) as [k|]; cbn [option_map].
    + replace (length (pre ++ tail) <? length pre + k + 1 + 8) with true
        by (symmetry; apply Nat.ltb_lt; rewrite length_app; lia).
      f_equal. f_equal. lia.
    + rewrite Nat.add_0_r. reflexivity.
Qed.

(** The primary pass over an index of well-formed records: one entry per
    record whose offset lies in the data buffer, in order. *)
Lemma parse_index_encoded (rs : list idx_record) (tail dict_data : bytes) :
  Forall wf_record rs -> incomplete_tail tail ->
  forall fuel pre entries,
  length rs + length tail <= fuel ->
  parse_index_loop fuel (pre ++ encode_index rs ++ tail) dict_data
    (length pre) entries
  = Ok (length pre + length (encode_index rs) + tail_pos tail,
        entries ++ parsed_entries dict_data rs).
Proof.
  intros Hwf Ht. induction Hwf as [|r rs Hr Hrs IH];
    intros fuel pre entries Hf.
  - cbn [encode_index flat_map app parsed_entries length] in *.
    rewrite parse_index_tail by (trivial; lia).
    rewrite app_nil_r, Nat.add_0_r. reflexivity.
  - destruct fuel as [|fuel]; [cbn in Hf; lia|].
    cbn [encode_index flat_map parsed_entries].
    fold (encode_index rs). fold (parsed_entries dict_data rs).
    rewrite <- app_assoc.
    rewrite parse_index_step by exact Hr.
    rewrite <- length_app.
    rewrite (app_assoc pre).
    rewrite IH by (cbn in Hf; lia).
    rewrite !length_app, <- !app_assoc. f_equal. f_equal. lia.
Qed.

Lemma parse_index_from_start (rs : list idx_record)
    (tail dict_data : bytes) (fuel : nat) :
  Forall wf_record rs -> incomplete_tail tail ->
  length rs + length tail <= fuel ->
  parse_index_loop fuel (encode_index rs ++ tail) dict_data 0 []
  = Ok (length (encode_index rs) + tail_pos tail,
        parsed_entries dict_data rs).
Proof.
  intros Hwf Ht Hf.
  exact (parse_index_encoded rs tail dict_data Hwf Ht fuel [] [] Hf).
Qed.

(** One complete record moves the recovery pass one record on. *)
Lemma recover_index_step (fuel : nat) (pre rest : bytes) (r : idx_record)
    (existing_words words : list text) (direct_words : nat) :
  wf_record r ->
  recover_index_loop (S fuel) (pre ++ encode_record r ++ rest) "source"
    existing_words (length pre) words direct_words
  = recover_index_loop fuel (pre ++ encode_record r ++ rest) "source"
      existing_words (length pre + length (encode_record r))
      (words ++ recovered_headwords existing_words [r])
      (direct_words + length (recovered_headwords existing_words [r])).
Proof.
  intros (Hw & Ho & Hs).
  rewrite length_encode_record.
  set (idx := pre ++ encode_record r ++ rest).
  assert (Hlen : length idx = length pre + length (rec_word r) + 9
                              + length rest).
  { unfold idx. rewrite !length_app, length_encode_record. lia. }
  assert (Hfind : bytes_find x00 idx (length pre)
                  = Some (length pre + length (rec_word r))).
  { unfold idx, encode_record. rewrite bytes_find_at, <- app_assoc.
    cbn [app]. rewrite index_of_app_nul by exact Hw. reflexivity. }
  assert (Hword : slice idx (length pre) (length pre + length (rec_word r))
                  = rec_word r).
  { apply (slice_middle idx pre (rec_word r)
             (x00 :: be32 (rec_offset r) ++ be32 (rec_size r) ++ rest));
      [|reflexivity|reflexivity].
    unfold idx, encode_record. rewrite <- !app_assoc. reflexivity. }
  cbn [recover_index_loop].
  replace (length pre <? length idx) with true
    by (symmetry; apply Nat.ltb_lt; lia).
  rewrite Hfind, Hword.
  replace (length idx <? length pre + length (rec_word r) + 1 + 8)
    with false by (symmetry; apply Nat.ltb_ge; lia).
  replace (length pre + length (rec_word r) + 1 + 8)
    with (length pre + (length (rec_word r) + 9)) by lia.
  change (String.eqb "source" "source") with true. cbv iota.
  unfold recovered_headwords, headword. cbn [flat_map].
  destruct (is_valid_word _ && negb _); cbn [app length].
  - reflexivity.
  - rewrite app_nil_r, Nat.add_0_r. reflexivity.
Qed.

Lemma recover_index_tail (fuel : nat) (pre tail : bytes) (role : string)
    (existing_words words : list text) (direct_words : nat) :
  incomplete_tail tail -> length tail <= fuel ->
  recover_index_loop fuel (pre ++ tail) role existing_words (length pre)
    words direct_words
  = Ok (words, direct_words).
Proof.
  intros Ht Hf. unfold incomplete_tail in Ht.
  destruct tail as [|b tail'] eqn:Et.
  - rewrite app_nil_r.
    destruct fuel; cbn [recover_index_loop]; rewrite Nat.ltb_irrefl;
      reflexivity.
  - rewrite <- Et in *.
    destruct fuel as [|fuel]; [subst tail; cbn in Hf; lia|].
    cbn [recover_index_loop].
    replace (length pre <? length (pre ++ tail)) with true.
    2:{ symmetry. apply Nat.ltb_lt. rewrite length_app. subst tail.
        cbn [length]. lia. }
    rewrite bytes_find_at.
    destruct (index_of x00 tail) as [k|]; cbn [option_map];
      [|reflexivity].
    replace (length (pre ++ tail) <? length pre + k + 1 + 8) with true
      by (symmetry; apply Nat.ltb_lt; rewrite length_app; lia).
    reflexivity.
Qed.

Lemma recovered_headwords_cons existing_words (r : idx_record) rs :
  recovered_headwords existing_words (r :: rs)
  = recovered_headwords existing_words [r]
    ++ recovered_headwords existing_words rs.
Proof.
  unfold recovered_headwords. cbn [flat_map]. rewrite app_nil_r.
  reflexivity.
Qed.

(** The recovery pass over an index of well-formed records, for the
    source role. *)
Lemma recover_index_encoded (rs : list idx_record) (tail : bytes)
    (existing_words : list text) :
  Forall wf_record rs -> incomplete_tail tail ->
  forall fuel pre words direct_words,
  length rs + length tail <= fuel ->
  recover_index_loop fuel (pre ++ encode_index rs ++ tail) "source"
    existing_words (length pre) words direct_words
  = Ok (words ++ recovered_headwords existing_words rs,
        direct_words + length (recovered_headwords existing_words rs)).
Proof.
  intros Hwf Ht. induction Hwf as [|r rs Hr Hrs IH];
    intros fuel pre words direct_words Hf.
  - cbn [encode_index flat_map app recovered_headwords length] in *.
    rewrite recover_index_tail by (trivial; lia).
    rewrite app_nil_r, Nat.add_0_r. reflexivity.
  - destruct fuel as [|fuel]; [cbn in Hf; lia|].
    cbn [encode_index flat_map]. fold (encode_index rs).
    rewrite <- app_assoc.
    rewrite recover_index_step by exact Hr.
    rewrite <- length_app.
    rewrite (app_assoc pre).
    rewrite IH by (cbn in Hf; lia).
    rewrite (recovered_headwords_cons existing_words r rs).
    rewrite length_app, <- !app_assoc. f_equal. f_equal. lia.
Qed.

Lemma recover_index_from_start (rs : list idx_record) (tail : bytes)
    (existing_words : list text) (fuel : nat) :
  Forall wf_record rs -> incomplete_tail tail ->
  length rs + length tail <= fuel ->
  recover_index_loop fuel (encode_index rs ++ tail) "source"
    existing_words 0 [] 0
  = Ok (recovered_headwords existing_words rs,
        length (recovered_headwords existing_words rs)).
Proof.
  intros Hwf Ht Hf.
  exact (recover_index_encoded rs tail existing_words Hwf Ht fuel [] [] 0
           Hf).
Qed.

(** The final loop appends the valid cleaned headwords, or nothing. *)
Lemma entry_words_source (entries : list (text * text)) (words : list text) :
  entry_words "source" entries words = words ++ parsed_headwords entries.
Proof.
  unfold entry_words, parsed_headwords. revert words.
  induction entries as [|[w d] entries IH]; intros words;
    cbn [fold_left flat_map fst].
  - rewrite app_nil_r. reflexivity.
  - rewrite IH. change (String.eqb "source" "source") with true.
    cbv beta iota. destruct (is_valid_word (clean_word w)).
    + rewrite <- app_assoc. reflexivity.
    + reflexivity.
Qed.

Lemma entry_words_other (role : string) (entries : list (text * text))
    (words : list text) :
  String.eqb role "source" = false ->
  entry_words role entries words = words.
Proof.
  intros H. unfold entry_words. revert words.
  induction entries as [|[w d] entries IH]; intros words;
    cbn [fold_left]; [reflexivity|].
  rewrite IH, H. reflexivity.
Qed.

(** Both passes stop within their fuel on every buffer. *)
Lemma parse_index_loop_total (dict_data idx_data : bytes) (fuel : nat) :
  forall pos entries, length idx_data <= pos + fuel ->
  exists r, parse_index_loop fuel idx_data dict_data pos entries = Ok r.
Proof.
  induction fuel as [|fuel IH]; intros pos entries Hf;
    cbn [parse_index_loop];
    destruct (pos <? length idx_data) eqn:E;
    try (eexists; reflexivity).
  - apply Nat.ltb_lt in E. lia.
  - destruct (bytes_find x00 idx_data pos) as [n|] eqn:Ef;
      [|eexists; reflexivity].
    apply bytes_find_bounds in Ef.
    destruct (length idx_data <? n + 1 + 8); [eexists; reflexivity|].
    destruct (unpack_II _) as [[o s]|]; [|apply IH; lia].
    destruct (o <? _)%N; apply IH; lia.
Qed.

Lemma recover_index_loop_other (idx_data : bytes) (role : string)
    (existing_words : list text) (fuel : nat) :
  String.eqb role "source" = false ->
  forall pos words direct_words, length idx_data <= pos + fuel ->
  recover_index_loop fuel idx_data role existing_words pos words
    direct_words
  = Ok (words, direct_words).
Proof.
  intros Hr. induction fuel as [|fuel IH]; intros pos words dw Hf;
    cbn [recover_index_loop];
    destruct (pos <? length idx_data) eqn:E;
    try reflexivity.
  - apply Nat.ltb_lt in E. lia.
  - destruct (bytes_find x00 idx_data pos) as [n|] eqn:Ef; [|reflexivity].
    apply bytes_find_bounds in Ef.
    destruct (length idx_data <? n + 1 + 8); [reflexivity|].
    rewrite Hr. apply IH. lia.
Qed.
End StarDictProofs.

(* --------------------------------------------------------------------- *)
(** *** Every index buffer is a sequence of records and a tail *)

Lemma index_of_split (b : byte) (data : bytes) (k : nat) :
  index_of b data = Some k ->
  exists w rest, data = w ++ b :: rest /\ length w = k /\ ~ In b w.
Proof.
  revert k. induction data as [|x data IH]; intros k; cbn [index_of].
  - discriminate.
  - destruct (Byte.eqb x b) eqn:E.
    + intros [= <-]. apply Byte.byte_dec_bl in E. subst x.
      exists [], data. repeat split. intros [].
    + destruct (index_of b data) as [j|]; [|discriminate].
      intros [= <-]. destruct (IH j eq_refl) as (w & rest & -> & Hl & Hn).
      exists (x :: w), rest. repeat split; [cbn; lia|].
      intros [->|Hin]; [|exact (Hn Hin)].
      rewrite (Byte.byte_dec_lb eq_refl) in E. discriminate.
Qed.

Lemma byte_of_N_to_N (n : N) (b : byte) :
  (n mod 256 = Byte.to_N b)%N -> byte_of_N n = b.
Proof.
  intros H. unfold byte_of_N. rewrite H, Byte.of_to_N. reflexivity.
Qed.

Lemma be_uint32_bound (a b c d : byte) : (be_uint32 a b c d < 4294967296)%N.
Proof.
  unfold be_uint32.
  pose proof (Byte.to_N_bounded a). pose proof (Byte.to_N_bounded b).
  pose proof (Byte.to_N_bounded c). pose proof (Byte.to_N_bounded d).
  lia.
Qed.

Lemma be32_be_uint32 (a b c d : byte) : be32 (be_uint32 a b c d) = [a; b; c; d].
Proof.
  unfold be32, be_uint32.
  pose proof (Byte.to_N_bounded a) as Ha.
  pose proof (Byte.to_N_bounded b) as Hb.
  pose proof (Byte.to_N_bounded c) as Hc.
  pose proof (Byte.to_N_bounded d) as Hd.
  set (A := Byte.to_N a) in *. set (B := Byte.to_N b) in *.
  set (C := Byte.to_N c) in *. set (D := Byte.to_N d) in *.
  assert (E3 : ((A * 16777216 + B * 65536 + C * 256 + D) / 16777216 = A)%N).
  { symmetry. apply (N.div_unique _ _ _ (B * 65536 + C * 256 + D)%N); lia. }
  assert (E2 : ((A * 16777216 + B * 65536 + C * 256 + D) / 65536
                = A * 256 + B)%N).
  { symmetry. apply (N.div_unique _ _ _ (C * 256 + D)%N); lia. }
  assert (E1 : ((A * 16777216 + B * 65536 + C * 256 + D) / 256
                = A * 65536 + B * 256 + C)%N).
  { symmetry. apply (N.div_unique _ _ _ D); lia. }
  rewrite E3, E2, E1.
  f_equal; [|f_equal; [|f_equal; [|f_equal]]]; apply byte_of_N_to_N.
  - apply N.mod_small. fold A. lia.
  - symmetry. apply (N.mod_unique _ _ A); fold B; lia.
  - symmetry. apply (N.mod_unique _ _ (A * 256 + B)%N); fold C; lia.
  - symmetry.
    apply (N.mod_unique _ _ (A * 65536 + B * 256 + C)%N); fold D; lia.
Qed.

Lemma index_decomposes (idx_data : bytes) :
  exists rs tail,
    Forall wf_record rs /\ incomplete_tail tail
    /\ idx_data = encode_index rs ++ tail.
Proof.
  remember (length idx_data) as n eqn:En. revert idx_data En.
  induction n as [n IH] using lt_wf_ind. intros idx_data En.
  destruct (index_of x00 idx_data) as [k|] eqn:Ek.
  2:{ exists [], idx_data. repeat split; [constructor|].
      unfold incomplete_tail. rewrite Ek. exact I. }
  destruct (index_of_split _ _ _ Ek) as (w & rest & E & Hl & Hn).
  destruct rest as [|a [|b [|c [|d [|e [|f [|g [|h rest']]]]]]]];
    try (exists [], idx_data; repeat split; [constructor|];
         unfold incomplete_tail; rewrite Ek, E, length_app; cbn [length];
         lia).
  destruct (IH (length rest')) with (idx_data := rest') as (rs & tail & Hwf & Ht & Er);
    [rewrite En, E, length_app; cbn [length]; lia|reflexivity|].
  exists ({| rec_word := w; rec_offset := be_uint32 a b c d;
             rec_size := be_uint32 e f g h |} :: rs), tail.
  split; [|split; [exact Ht|]].
  - constructor; [|exact Hwf].
    repeat split; cbn; [exact Hn|apply be_uint32_bound..].
  - cbn [encode_index flat_map]. fold (encode_index rs).
    unfold encode_record. cbn [rec_word rec_offset rec_size].
    rewrite !be32_be_uint32, E, Er, <- !app_assoc. reflexivity.
Qed.

Lemma length_encode_index (rs : list idx_record) :
  length rs <= length (encode_index rs).
Proof.
  induction rs as [|r rs IH]; [cbn; lia|].
  cbn [encode_index flat_map length]. fold (encode_index rs).
  rewrite length_app, length_encode_record. lia.
Qed.

Lemma mem_In (x : text) (xs : list text) : mem x xs = true -> In x xs.
Proof.
  unfold mem. intros H. apply existsb_exists in H.
  destruct H as (y & Hy & E). unfold text_eqb in E.
  destruct (list_eq_dec N.eq_dec x y); [subst; exact Hy | discriminate].
Qed.

Section StarDictClaims.
Context {U : UnicodeDB}.

(** The whole function on an index of well-formed records, source role. *)
Lemma stardict_source_encoded (rs : list idx_record)
    (tail dict_data : bytes) :
  Forall wf_record rs -> incomplete_tail tail ->
  let entries := parsed_entries dict_data rs in
  let recovered :=
    if length entries <? (length (encode_index rs) + tail_pos tail) / 12
    then recovered_headwords (map fst entries) rs else [] in
  extract_words_from_stardict (encode_index rs ++ tail) dict_data "source"
  = Ok (recovered ++ parsed_headwords entries, length recovered).
Proof.
  intros Hwf Ht entries recovered.
  assert (Hf : length rs + length tail
               <= length (encode_index rs ++ tail)).
  { rewrite length_app. pose proof (length_encode_index rs). lia. }
  unfold extract_words_from_stardict.
  rewrite (parse_index_from_start rs tail dict_data _ Hwf Ht Hf).
  cbn [bind]. fold entries.
  subst recovered.
  destruct (length entries <? _) eqn:E; cbn [bind].
  - rewrite (recover_index_from_start rs tail (map fst entries) _
               Hwf Ht Hf).
    cbn [bind]. rewrite entry_words_source. reflexivity.
  - rewrite entry_words_source. reflexivity.
Qed.
End StarDictClaims.

(** C7: in an index made of well-formed records (and an incomplete tail),
    a record whose offset is at or beyond the length of the data buffer
    gives no entry in the primary pass, the entries of the records around
    it being unaffected; a record whose offset is in bounds gives one
    entry, whose definition is cut from the offset on, as long as the size
    says but no longer than what remains (all of the remaining bytes when
    the size overruns); and when the recovery pass triggers, the valid
    cleaned headword of the record, skipped or not, is among the
    source-role words. *)
Theorem C7_stardict_offsets :
  forall (U : UnicodeDB) (dict_data : bytes) (rs1 : list idx_record)
         (r : idx_record) (rs2 : list idx_record) (tail : bytes),
  Forall wf_record (rs1 ++ r :: rs2) -> incomplete_tail tail ->
  let rs := rs1 ++ r :: rs2 in
  let idx_data := encode_index rs ++ tail in
  let final_pos := length (encode_index rs) + tail_pos tail in
  let entries := parsed_entries dict_data rs in
  parse_index_loop (length idx_data) idx_data dict_data 0 []
  = Ok (final_pos, entries)
  /\ ((N.of_nat (length dict_data) <= rec_offset r)%N ->
      entries = parsed_entries dict_data rs1 ++ parsed_entries dict_data rs2)
  /\ ((rec_offset r < N.of_nat (length dict_data))%N ->
      entries
      = parsed_entries dict_data rs1
        ++ [ (decode_utf8_ignore (rec_word r), entry_definition dict_data r) ]
        ++ parsed_entries dict_data rs2
      /\ ((N.of_nat (length dict_data) <= rec_offset r + rec_size r)%N ->
          entry_definition dict_data r
          = decode_utf8_ignore (skipn (N.to_nat (rec_offset r)) dict_data)))
  /\ (length entries < final_pos / 12 ->
      is_valid_word (headword r) = true ->
      exists words recovered_count,
        extract_words_from_stardict idx_data dict_data "source"
        = Ok (words, recovered_count)
        /\ In (headword r) words).
Proof.
  intros U dict_data rs1 r rs2 tail Hwf Ht rs idx_data final_pos entries.
  assert (Hf : length rs + length tail <= length idx_data).
  { unfold idx_data. rewrite length_app.
    pose proof (length_encode_index rs). lia. }
  assert (He : entries = parsed_entries dict_data rs1
                         ++ entry_of dict_data r
                         ++ parsed_entries dict_data rs2).
  { unfold entries, rs, parsed_entries. rewrite flat_map_app. reflexivity. }
  split; [|split; [|split]].
  - exact (parse_index_from_start rs tail dict_data _ Hwf Ht Hf).
  - intros Ho. rewrite He. unfold entry_of.
    replace (rec_offset r <? N.of_nat (length dict_data))%N with false
      by (symmetry; apply N.ltb_ge; exact Ho).
    reflexivity.
  - intros Ho. split.
    + rewrite He. unfold entry_of.
      replace (rec_offset r <? N.of_nat (length dict_data))%N with true
        by (symmetry; apply N.ltb_lt; exact Ho).
      reflexivity.
    + intros Hs. unfold entry_definition, slice. f_equal.
      apply firstn_all2. rewrite length_skipn. lia.
  - intros Htrig Hvalid.
    pose proof (stardict_source_encoded rs tail dict_data Hwf Ht) as Hx.
    cbv zeta in Hx. fold rs idx_data entries final_pos in Hx.
    apply Nat.ltb_lt in Htrig. rewrite Htrig in Hx.
    eexists. eexists. split; [exact Hx|].
    apply in_or_app.
    destruct (mem (decode_utf8_ignore (rec_word r)) (map fst entries))
      eqn:Em.
    + right. apply mem_In in Em. apply in_map_iff in Em.
      destruct Em as ([w d] & Ew & Hin). cbn [fst] in Ew. subst w.
      unfold parsed_headwords. apply in_flat_map.
      exists (decode_utf8_ignore (rec_word r), d). split; [exact Hin|].
      cbn [fst]. fold (headword r). rewrite Hvalid. left. reflexivity.
    + left. unfold recovered_headwords. apply in_flat_map.
      exists r. split; [unfold rs; apply in_elt|].
      rewrite Hvalid, Em. left. reflexivity.
Qed.

Lemma records_example_wf : Forall wf_record records_example.
Proof.
  repeat constructor; cbn;
    try (intros H; repeat (destruct H as [H|H]; try discriminate H);
         exact H);
    reflexivity.
Qed.

Lemma C7_stardict_witness :
  exists words recovered_count,
    @extract_words_from_stardict latin1_db (encode_index records_example)
      dict_example "source"
    = Ok (words, recovered_count)
    /\ In (py "bravo") words.
Proof.
  destruct (C7_stardict_offsets latin1_db dict_example
              [ {| rec_word := bytes_of "alfa"; rec_offset := 0;
                   rec_size := 2 |} ]
              {| rec_word := bytes_of "bravo"; rec_offset := 9;
                 rec_size := 2 |}
              [ {| rec_word := bytes_of "charlie"; rec_offset := 3;
                   rec_size := 7 |} ]
              [] records_example_wf I)
    as (_ & _ & _ & H).
  destruct H as (words & n & Hw & Hin).
  - vm_compute. lia.
  - reflexivity.
  - exists words, n. split; [|exact Hin].
    rewrite <- Hw. rewrite app_nil_r. reflexivity.
Defined.

(** C8: on every index buffer and data buffer the target role returns no
    words (and counts none recovered); on an index of well-formed records
    the source role returns the recovered-only headwords, when the recovery
    pass triggers, followed by the valid cleaned headwords of the parsed
    entries. *)
Theorem C8_stardict_roles :
  forall (U : UnicodeDB) (idx_data dict_data : bytes),
  extract_words_from_stardict idx_data dict_data "target" = Ok ([], 0)
  /\ forall (rs : list idx_record) (tail : bytes),
       Forall wf_record rs -> incomplete_tail tail ->
       idx_data = encode_index rs ++ tail ->
       let entries := parsed_entries dict_data rs in
       let recovered :=
         if length entries
            <? (length (encode_index rs) + tail_pos tail) / 12
         then recovered_headwords (map fst entries) rs else [] in
       extract_words_from_stardict idx_data dict_data "source"
       = Ok (recovered ++ parsed_headwords entries, length recovered).
Proof.
  intros U idx_data dict_data. split.
  - unfold extract_words_from_stardict.
    destruct (parse_index_loop_total dict_data idx_data (length idx_data)
                0 []) as [[pos entries] Hp]; [lia|].
    rewrite Hp. cbn [bind].
    destruct (length entries <? pos / 12).
    + rewrite recover_index_loop_other by (trivial; lia).
      cbn [bind]. rewrite entry_words_other by reflexivity. reflexivity.
    + cbn [bind]. rewrite entry_words_other by reflexivity. reflexivity.
  - intros rs tail Hwf Ht ->. apply stardict_source_encoded; assumption.
Qed.

Lemma C8_stardict_witness :
  @extract_words_from_stardict latin1_db (encode_index records_example)
    dict_example "source"
  = Ok ([ py "bravo"; py "alfa"; py "charlie" ], 1).
Proof.
  destruct (C8_stardict_roles latin1_db (encode_index records_example)
              dict_example) as [_ H].
  rewrite (H records_example [] records_example_wf I);
    [reflexivity | rewrite app_nil_r; reflexivity].
Defined.

(* ===================================================================== *)
(** * Further properties *)

(** ** Strings *)

Lemma in_single (c : cp) (s : text) : in_ [ c ] s = has_cp c s.
Proof.
  unfold has_cp. induction s as [|d s IH]; [reflexivity|].
  cbn [in_ starts_with existsb]. rewrite IH, andb_true_r. reflexivity.
Qed.

Lemma has_cp_In (c : cp) (s : text) : has_cp c s = true <-> In c s.
Proof.
  unfold has_cp. rewrite existsb_exists. split.
  - intros (d & Hd & E). apply N.eqb_eq in E. subst d. exact Hd.
  - intros H. exists c. split; [exact H | apply N.eqb_refl].
Qed.

Lemma has_cp_app (c : cp) (a b : text) :
  has_cp c (a ++ b) = has_cp c a || has_cp c b.
Proof. unfold has_cp. apply existsb_app. Qed.

(** [drop_while] cuts off a prefix of characters that satisfy [p]. *)
Lemma drop_while_split (p : cp -> bool) (s : text) :
  exists pre, s = pre ++ drop_while p s /\ forallb p pre = true.
Proof.
  induction s as [|c s (pre & E & Hp)]; [exists []; split; reflexivity|].
  cbn [drop_while]. destruct (p c) eqn:Ec.
  - exists (c :: pre). split; [cbn; congruence|]. cbn. rewrite Ec. exact Hp.
  - exists []. split; reflexivity.
Qed.

Lemma rstrip_by_split (p : cp -> bool) (s : text) :
  exists post, s = rstrip_by p s ++ post /\ forallb p post = true.
Proof.
  unfold rstrip_by.
  destruct (drop_while_split p (rev s)) as (pre & E & Hp).
  exists (rev pre). split.
  - rewrite <- rev_app_distr, <- E, rev_involutive. reflexivity.
  - rewrite forallb_forall in *. intros c Hc. apply Hp, in_rev. exact Hc.
Qed.

(** [strip] cuts a prefix and a suffix of characters that satisfy [p]. *)
Lemma strip_by_split (p : cp -> bool) (s : text) :
  exists pre post,
    s = pre ++ strip_by p s ++ post
    /\ forallb p pre = true /\ forallb p post = true.
Proof.
  unfold strip_by, lstrip_by.
  destruct (drop_while_split p s) as (pre & E & Hp).
  destruct (rstrip_by_split p (drop_while p s)) as (post & E' & Hq).
  exists pre, post. repeat split; trivial. rewrite <- E'. exact E.
Qed.

Lemma strip_by_head (p : cp -> bool) (s : text) :
  match strip_by p s with
  | [] => True
  | c :: _ => p c = false
  end.
Proof.
  unfold strip_by, lstrip_by.
  pose proof (drop_while_head p s) as H.
  destruct (drop_while p s) as [|c t]; [exact I|].
  rewrite rstrip_by_cons, H, andb_false_r. exact H.
Qed.

Lemma rstrip_by_last (p : cp -> bool) (s : text) :
  match rev (rstrip_by p s) with
  | [] => True
  | c :: _ => p c = false
  end.
Proof.
  unfold rstrip_by. rewrite rev_involutive. apply drop_while_head.
Qed.

Lemma strip_by_last (p : cp -> bool) (s : text) :
  match rev (strip_by p s) with
  | [] => True
  | c :: _ => p c = false
  end.
Proof. unfold strip_by. apply rstrip_by_last. Qed.

Lemma drop_while_fixed (p : cp -> bool) (s : text) :
  match s with [] => True | c :: _ => p c = false end ->
  drop_while p s = s.
Proof. destruct s as [|c s]; [reflexivity|]. cbn. intros ->. reflexivity. Qed.

Lemma rstrip_by_fixed (p : cp -> bool) (s : text) :
  match rev s with [] => True | c :: _ => p c = false end ->
  rstrip_by p s = s.
Proof.
  intros H. unfold rstrip_by. rewrite drop_while_fixed by exact H.
  apply rev_involutive.
Qed.

(** A string with no character of [p] at either end is left alone. *)
Lemma strip_by_fixed (p : cp -> bool) (s : text) :
  match s with [] => True | c :: _ => p c = false end ->
  match rev s with [] => True | c :: _ => p c = false end ->
  strip_by p s = s.
Proof.
  intros H1 H2. unfold strip_by, lstrip_by.
  rewrite drop_while_fixed by exact H1. apply rstrip_by_fixed, H2.
Qed.

Lemma strip_by_idem (p : cp -> bool) (s : text) :
  strip_by p (strip_by p s) = strip_by p s.
Proof. apply strip_by_fixed; [apply strip_by_head | apply strip_by_last]. Qed.

Lemma strip_by_length (p : cp -> bool) (s : text) :
  length (strip_by p s) <= length s.
Proof.
  destruct (strip_by_split p s) as (pre & post & E & _).
  rewrite E at 2. rewrite !length_app. lia.
Qed.

Lemma strip_by_In (p : cp -> bool) (s : text) (c : cp) :
  In c (strip_by p s) -> In c s.
Proof.
  destruct (strip_by_split p s) as (pre & post & E & _).
  intros H. rewrite E. apply in_or_app. right. apply in_or_app. left. exact H.
Qed.

Lemma has_cp_strip_by (p : cp -> bool) (c : cp) (s : text) :
  has_cp c s = false -> has_cp c (strip_by p s) = false.
Proof.
  intros H. destruct (has_cp c (strip_by p s)) eqn:E; [|reflexivity].
  apply has_cp_In, strip_by_In, has_cp_In in E. congruence.
Qed.

(** What [strip] removes, it removes for a reason: a character of the
    string that does not satisfy [p] survives. *)
Lemma strip_by_keeps (p : cp -> bool) (c : cp) (s : text) :
  p c = false -> In c s -> In c (strip_by p s).
Proof.
  intros Hc Hin.
  destruct (strip_by_split p s) as (pre & post & E & Hp & Hq).
  rewrite E in Hin. rewrite forallb_forall in Hp, Hq.
  apply in_app_or in Hin. destruct Hin as [Hin|Hin];
    [specialize (Hp c Hin); congruence|].
  apply in_app_or in Hin. destruct Hin as [Hin|Hin]; [exact Hin|].
  specialize (Hq c Hin). congruence.
Qed.

(* ===================================================================== *)
(** ** Normalizer and validator *)

(** X1: [clean_word] removes a prefix and a suffix of ASCII punctuation
    and nothing else; its result neither starts nor ends with punctuation;
    cleaning twice is cleaning once, and a word without punctuation at its
    ends is returned as it is. *)
Theorem X1_clean_word :
  forall (word : text),
  (exists pre post,
      word = pre ++ clean_word word ++ post
      /\ forallb is_punctuation pre = true
      /\ forallb is_punctuation post = true)
  /\ (forall c rest, clean_word word = c :: rest -> is_punctuation c = false)
  /\ (forall c rest, rev (clean_word word) = c :: rest ->
                     is_punctuation c = false)
  /\ clean_word (clean_word word) = clean_word word
  /\ ((forall c rest, word = c :: rest -> is_punctuation c = false) ->
      (forall c rest, rev word = c :: rest -> is_punctuation c = false) ->
      clean_word word = word).
Proof.
  intros word. unfold clean_word. repeat split.
  - apply strip_by_split.
  - intros c rest E. pose proof (strip_by_head is_punctuation word) as H.
    rewrite E in H. exact H.
  - intros c rest E. pose proof (strip_by_last is_punctuation word) as H.
    rewrite E in H. exact H.
  - apply strip_by_idem.
  - intros H1 H2. apply strip_by_fixed.
    + destruct word as [|c rest]; [exact I|]. exact (H1 c rest eq_refl).
    + destruct (rev word) as [|c rest]; [exact I|]. exact (H2 c rest eq_refl).
Qed.

Lemma X1_clean_word_witness : clean_word (py "word") = py "word".
Proof.
  destruct (X1_clean_word (py "word")) as (_ & _ & _ & _ & H).
  apply H; intros c rest E; vm_compute in E; injection E as <- _; reflexivity.
Defined.

(** X2: [is_valid_word] does not see whitespace around the word, and a
    word it accepts has, once stripped, at least 3 characters, is not one
    of the technical abbreviations in any letter case the database maps to
    them, has at least 60 percent alphanumeric characters, and consists of
    alphanumeric characters, whitespace and the listed accented letters,
    apostrophe and hyphen only. *)
Theorem X2_is_valid_word :
  forall (U : UnicodeDB) (word : text),
  is_valid_word (strip word) = is_valid_word word
  /\ (is_valid_word word = true ->
      3 <= length (strip word)
      /\ mem (upper (strip word)) TECHNICAL_ABBREVIATIONS = false
      /\ 3 * length (strip word)
         <= 5 * length (filter cp_isalnum (strip word))
      /\ forall c, In c (strip word) ->
                   cp_isalnum c = true \/ isspace c = true
                   \/ In c VALID_EXTRA).
Proof.
  intros U word. split.
  - unfold is_valid_word, strip. rewrite strip_by_idem.
    pose proof (strip_by_length isspace word) as Hl.
    destruct (strip_by isspace word) as [|c s] eqn:E.
    + cbn [is_empty orb].
      destruct (is_empty word || (length word <? 3)); reflexivity.
    + cbn [is_empty orb].
      destruct (length (c :: s) <? 3) eqn:E3.
      * destruct (is_empty word || (length word <? 3)); reflexivity.
      * apply Nat.ltb_ge in E3.
        replace (is_empty word || (length word <? 3)) with false;
          [reflexivity|].
        symmetry. apply orb_false_iff. split.
        -- destruct word; [cbn in Hl; lia | reflexivity].
        -- apply Nat.ltb_ge. lia.
  - unfold is_valid_word.
    destruct (is_empty word || (length word <? 3)); [discriminate|].
    destruct (is_empty (strip word) || (length (strip word) <? 3)) eqn:E1;
      [discriminate|].
    destruct (mem (upper (strip word)) TECHNICAL_ABBREVIATIONS);
      [discriminate|].
    destruct (5 * length (filter cp_isalnum (strip word))
              <? 3 * length (strip word)) eqn:E2; [discriminate|].
    intros H. apply orb_false_iff in E1. destruct E1 as [_ E1].
    apply Nat.ltb_ge in E1, E2. repeat split; trivial.
    intros c Hc. rewrite forallb_forall in H. specialize (H c Hc).
    apply orb_true_iff in H. destruct H as [H|H].
    + apply orb_true_iff in H. tauto.
    + right. right. apply has_cp_In. exact H.
Qed.

Lemma X2_is_valid_word_witness :
  3 <= length (strip (py "  casa ")).
Proof.
  destruct (X2_is_valid_word latin1_db (py "  casa ")) as [_ H].
  destruct (H eq_refl) as [H3 _]. exact H3.
Defined.

Lemma split_head_free (c : cp) (s : text) : has_cp c (split_head c s) = false.
Proof.
  unfold has_cp. induction s as [|d s IH]; [reflexivity|].
  cbn [split_head]. destruct (d =? c)%N eqn:E; [reflexivity|].
  cbn [existsb]. rewrite IH, N.eqb_sym, E. reflexivity.
Qed.

Lemma split_head_split (c : cp) (s : text) :
  has_cp c s = true -> exists rest, s = split_head c s ++ c :: rest.
Proof.
  unfold has_cp. induction s as [|d s IH]; [discriminate|].
  cbn [existsb split_head]. rewrite N.eqb_sym.
  destruct (d =? c)%N eqn:E.
  - intros _. apply N.eqb_eq in E. subst d. exists s. reflexivity.
  - cbn [orb]. intros H. destruct (IH H) as (rest & Er).
    exists rest. cbn [app]. congruence.
Qed.

Lemma slash_literal : py "/" = [ ch "/" ].
Proof. reflexivity. Qed.

Lemma extract_pronunciation_word_spec :
  forall (U : UnicodeDB) (line : text),
  (has_cp (ch "/") line = false -> extract_pronunciation_word line = None)
  /\ forall word, extract_pronunciation_word line = Some word ->
       (exists pre post rest,
           line = pre ++ word ++ post ++ ch "/" :: rest
           /\ forallb isspace pre = true /\ forallb isspace post = true
           /\ has_cp (ch "/") (pre ++ word ++ post) = false)
       /\ word <> []
       /\ strip word = word
       /\ existsb cp_isdigit word = false
       /\ 2 <= length (normalize_word word)
       /\ forall c, In c word ->
                    cp_isalpha c = true \/ normalize_class c = true.
Proof.
  intros U line. unfold extract_pronunciation_word.
  rewrite slash_literal, in_single. split.
  - intros ->. reflexivity.
  - intros word.
    destruct (has_cp (ch "/") line) eqn:Es; [|discriminate]. cbn [negb].
    set (w := strip (split_head (ch "/") line)).
    destruct (is_empty w || (length w <? 1)) eqn:E1; [discriminate|].
    destruct ((2 <=? length (normalize_word w)) && isalpha (normalize_word w)
              && negb (existsb cp_isdigit w)) eqn:E2; [|discriminate].
    intros [= <-].
    apply andb_prop in E2. destruct E2 as [E2 E4].
    apply andb_prop in E2. destruct E2 as [E2 E3].
    apply orb_false_iff in E1. destruct E1 as [E1 _].
    repeat split.
    + destruct (split_head_split _ _ Es) as (rest & Er).
      destruct (strip_by_split isspace (split_head (ch "/") line))
        as (pre & post & E & Hp & Hq).
      exists pre, post, rest. fold (strip (split_head (ch "/") line)) in E.
      fold w in E. repeat split; trivial.
      * rewrite Er at 1. rewrite E at 1. rewrite <- !app_assoc. reflexivity.
      * rewrite <- E. apply split_head_free.
    + intros Hw. rewrite Hw in E1. discriminate.
    + unfold w, strip. apply strip_by_idem.
    + apply negb_true_iff. exact E4.
    + apply Nat.leb_le. exact E2.
    + intros c Hc. unfold isalpha in E3. apply andb_prop in E3.
      destruct E3 as [_ E3]. rewrite forallb_forall in E3.
      destruct (normalize_class c) eqn:Ec; [right; reflexivity|left].
      apply E3. unfold normalize_word. apply filter_In.
      rewrite Ec. split; [exact Hc | reflexivity].
Qed.

(** X3: [extract_pronunciation_word] returns nothing for a line without a
    slash.  A headword it returns is the stripped text before the first
    slash of the line; it is not empty, holds no slash and no digit, has
    at least 2 characters besides the separators of [normalize_word], and
    every character of it is alphabetic or one of those separators. *)
Theorem X3_extract_pronunciation_word :
  forall (U : UnicodeDB) (line : text),
  (has_cp (ch "/") line = false -> extract_pronunciation_word line = None)
  /\ forall word, extract_pronunciation_word line = Some word ->
       (exists pre post rest,
           line = pre ++ word ++ post ++ ch "/" :: rest
           /\ forallb isspace pre = true /\ forallb isspace post = true
           /\ has_cp (ch "/") (pre ++ word ++ post) = false)
       /\ word <> []
       /\ strip word = word
       /\ existsb cp_isdigit word = false
       /\ 2 <= length (normalize_word word)
       /\ forall c, In c word ->
                    cp_isalpha c = true \/ normalize_class c = true.
Proof. exact extract_pronunciation_word_spec. Qed.

Lemma X3_extract_pronunciation_word_witness :
  @extract_pronunciation_word latin1_db (py "abc") = None.
Proof.
  apply (X3_extract_pronunciation_word latin1_db (py "abc")). reflexivity.
Defined.

(* ===================================================================== *)
(** ** POS tags *)

Lemma tag_occurs_cons (tag s : text) (c : cp) :
  tag_occurs tag s -> tag_occurs tag (c :: s).
Proof.
  intros (pre & post & -> & H). exists (c :: pre), post. split; [reflexivity|].
  exact H.
Qed.

Lemma extract_pos_tags_aux_sound (s : text) :
  forall st tag,
  In tag (extract_pos_tags_aux st s) ->
  match st with
  | None => tag_occurs tag s
  | Some acc =>
    has_cp (ch ">") acc = false ->
    (exists t1 post,
        tag = rev acc ++ t1 /\ s = t1 ++ ch ">" :: post
        /\ has_cp (ch ">") t1 = false /\ tag <> [])
    \/ tag_occurs tag s
  end.
Proof.
  induction s as [|c s IH]; intros st tag Hin; [destruct st; destruct Hin|].
  cbn [extract_pos_tags_aux] in Hin. destruct st as [acc|].
  - intros Hacc. destruct (c =? ch ">")%N eqn:Ec.
    + apply N.eqb_eq in Ec. subst c.
      destruct acc as [|a acc'] eqn:Ea.
      * right. apply tag_occurs_cons. exact (IH None tag Hin).
      * rewrite <- Ea in *. destruct Hin as [<-|Hin].
        -- left. exists [], s. rewrite app_nil_r. repeat split.
           subst acc. cbn. intros H. apply app_eq_nil in H.
           destruct H as [_ H]. discriminate.
        -- right. apply tag_occurs_cons. exact (IH None tag Hin).
    + specialize (IH (Some (c :: acc)) tag Hin). cbn beta iota in IH.
      destruct IH as [(t1 & post & Et & Es & Ht & Hn)|Ho].
      * unfold has_cp. cbn [existsb]. rewrite N.eqb_sym, Ec. exact Hacc.
      * left. exists (c :: t1), post. cbn [rev] in Et.
        rewrite <- app_assoc in Et. repeat split; trivial.
        -- cbn [app]. congruence.
        -- unfold has_cp in *. cbn [existsb]. rewrite N.eqb_sym, Ec. exact Ht.
      * right. apply tag_occurs_cons. exact Ho.
  - destruct (c =? ch "<")%N eqn:Ec.
    + apply N.eqb_eq in Ec. subst c.
      specialize (IH (Some []) tag Hin). cbn beta iota in IH.
      destruct (IH eq_refl) as [(t1 & post & Et & Es & Ht & Hn)|Ho].
      * cbn [rev app] in Et. subst tag. exists [], post.
        repeat split; trivial. cbn [app]. congruence.
      * apply tag_occurs_cons. exact Ho.
    + apply tag_occurs_cons. exact (IH None tag Hin).
Qed.

Lemma extract_pos_tags_aux_no_close (s : text) :
  has_cp (ch ">") s = false -> forall st, extract_pos_tags_aux st s = [].
Proof.
  unfold has_cp. induction s as [|c s IH]; intros H st; [reflexivity|].
  cbn [existsb] in H. apply orb_false_iff in H. destruct H as [Hc Hs].
  rewrite N.eqb_sym in Hc.
  cbn [extract_pos_tags_aux]. destruct st as [acc|].
  - rewrite Hc. apply IH, Hs.
  - destruct (c =? ch "<")%N; apply IH, Hs.
Qed.

Lemma extract_pos_tags_aux_no_open (s : text) :
  has_cp (ch "<") s = false -> extract_pos_tags_aux None s = [].
Proof.
  unfold has_cp. induction s as [|c s IH]; intros H; [reflexivity|].
  cbn [existsb] in H. apply orb_false_iff in H. destruct H as [Hc Hs].
  rewrite N.eqb_sym in Hc.
  cbn [extract_pos_tags_aux]. rewrite Hc. apply IH, Hs.
Qed.

Lemma extract_pos_tags_aux_skip (pre s : text) :
  has_cp (ch "<") pre = false ->
  extract_pos_tags_aux None (pre ++ s) = extract_pos_tags_aux None s.
Proof.
  unfold has_cp. induction pre as [|c pre IH]; intros H; [reflexivity|].
  cbn [existsb] in H. apply orb_false_iff in H. destruct H as [Hc Hs].
  rewrite N.eqb_sym in Hc.
  cbn [app extract_pos_tags_aux]. rewrite Hc. apply IH, Hs.
Qed.

Lemma extract_pos_tags_aux_close (tag post : text) :
  has_cp (ch ">") tag = false ->
  forall acc, rev acc ++ tag <> [] ->
  extract_pos_tags_aux (Some acc) (tag ++ ch ">" :: post)
  = (rev acc ++ tag) :: extract_pos_tags_aux None post.
Proof.
  unfold has_cp. induction tag as [|c tag IH]; intros H acc Hn.
  - cbn [app extract_pos_tags_aux]. rewrite N.eqb_refl.
    rewrite app_nil_r in *. destruct acc; [contradiction|reflexivity].
  - cbn [existsb] in H. apply orb_false_iff in H. destruct H as [Hc Hs].
    rewrite N.eqb_sym in Hc.
    cbn [app extract_pos_tags_aux]. rewrite Hc.
    rewrite IH; [|exact Hs|].
    + cbn [rev]. rewrite <- app_assoc. reflexivity.
    + cbn [rev]. rewrite <- app_assoc. cbn [app]. intros E.
      apply app_eq_nil in E. destruct E as [_ E]. discriminate.
Qed.

(** X4: every tag [extract_pos_tags] returns is non-empty, holds no
    closing bracket and occurs in the line between an opening and a closing
    bracket; a line without an opening bracket, or without a closing one,
    has no tags; and the first bracketed, non-empty text without a closing
    bracket is the first tag, the search going on after it. *)
Theorem X4_extract_pos_tags :
  forall (line : text),
  (forall tag, In tag (extract_pos_tags line) ->
     tag <> [] /\ has_cp (ch ">") tag = false
     /\ exists pre post, line = pre ++ ch "<" :: tag ++ ch ">" :: post)
  /\ (has_cp (ch "<") line = false \/ has_cp (ch ">") line = false ->
      extract_pos_tags line = [])
  /\ (forall pre tag post,
        line = pre ++ ch "<" :: tag ++ ch ">" :: post ->
        has_cp (ch "<") pre = false -> tag <> [] ->
        has_cp (ch ">") tag = false ->
        extract_pos_tags line = tag :: extract_pos_tags post).
Proof.
  intros line. unfold extract_pos_tags. repeat split.
  - destruct (extract_pos_tags_aux_sound line None tag H)
      as (pre & post & _ & Hn & _). exact Hn.
  - destruct (extract_pos_tags_aux_sound line None tag H)
      as (pre & post & _ & _ & Hc). exact Hc.
  - destruct (extract_pos_tags_aux_sound line None tag H)
      as (pre & post & E & _). exists pre, post. exact E.
  - intros [H|H].
    + apply extract_pos_tags_aux_no_open, H.
    + apply extract_pos_tags_aux_no_close, H.
  - intros pre tag post -> Hp Hn Hc.
    rewrite extract_pos_tags_aux_skip by exact Hp.
    cbn [extract_pos_tags_aux]. rewrite N.eqb_refl.
    rewrite extract_pos_tags_aux_close by (trivial; exact Hn). reflexivity.
Qed.

Lemma X4_extract_pos_tags_witness :
  extract_pos_tags (py "casa <n> <v>") = py "n" :: extract_pos_tags (py " <v>").
Proof.
  destruct (X4_extract_pos_tags (py "casa <n> <v>")) as (_ & _ & H).
  apply (H (py "casa ") (py "n") (py " <v>")); try reflexivity. discriminate.
Defined.

(** X5: a line without an opening angle bracket, or without a closing
    one, passes the POS filter whatever the filter is; so does every line
    when the inclusion list is empty. *)
Theorem X5_pos_filter_untagged :
  forall (U : UnicodeDB) (line : text) (filters : pos_filters),
  has_cp (ch "<") line = false \/ has_cp (ch ">") line = false
  \/ include filters = [] ->
  should_include_word_by_pos line filters = true.
Proof.
  intros U line filters H. unfold should_include_word_by_pos.
  destruct (include filters) as [|t ts] eqn:Ei; [reflexivity|].
  assert (E : extract_pos_tags line = []).
  { unfold extract_pos_tags. destruct H as [H|[H|H]].
    - apply extract_pos_tags_aux_no_open, H.
    - apply extract_pos_tags_aux_no_close, H.
    - discriminate. }
  rewrite E. reflexivity.
Qed.

Lemma X5_pos_filter_untagged_witness :
  @should_include_word_by_pos latin1_db (py "house") POS_FILTERS = true.
Proof. apply X5_pos_filter_untagged. left. reflexivity. Defined.

(* ===================================================================== *)
(** ** Script classifier *)

Lemma is_script_character_cases (c : cp) (s : string) :
  is_script_character c s = true ->
  (s = "devanagari"%string /\ cp_between 0x0900 0x097F c = true)
  \/ (s = "arabic"%string /\ cp_between 0x0600 0x06FF c = true)
  \/ (s = "cyrillic"%string /\ cp_between 0x0400 0x04FF c = true)
  \/ (s = "cjk_hiragana"%string /\ cp_between 0x3040 0x309F c = true)
  \/ (s = "cjk_katakana"%string /\ cp_between 0x30A0 0x30FF c = true)
  \/ (s = "cjk_unified"%string /\ cp_between 0x4E00 0x9FAF c = true).
Proof.
  unfold is_script_character, UNICODE_RANGES. cbn [assoc].
  repeat match goal with
         | |- context [String.eqb s ?k] =>
           destruct (String.eqb_spec s k); [subst; tauto|]
         end.
  discriminate.
Qed.

Lemma is_cjk_character_ranges (c : cp) :
  is_cjk_character c
  = cp_between 0x3040 0x309F c || cp_between 0x30A0 0x30FF c
    || cp_between 0x4E00 0x9FAF c.
Proof.
  unfold is_cjk_character, is_script_character. cbn.
  rewrite orb_false_r, orb_assoc. reflexivity.
Qed.

(** X6: the tables of the character-level classifier are disjoint (a
    character belongs to at most one of the six named ranges, and to none
    when it is below U+0400, so never when it is ASCII); a
    name outside the table matches no character; and the document-level
    tally sorts a character under ['arabic'], ['cyrillic'], ['devanagari']
    or ['cjk'] exactly when the character-level tests say so. *)
Theorem X6_script_ranges :
  forall (c : cp),
  (forall s1 s2, is_script_character c s1 = true ->
                 is_script_character c s2 = true -> s1 = s2)
  /\ (forall s, is_script_character c s = true -> (0x0400 <= c)%N)
  /\ (forall s, ~ In s (map fst UNICODE_RANGES) ->
                is_script_character c s = false)
  /\ (script_of_code c = Some "arabic"%string
      <-> is_script_character c "arabic" = true)
  /\ (script_of_code c = Some "cyrillic"%string
      <-> is_script_character c "cyrillic" = true)
  /\ (script_of_code c = Some "devanagari"%string
      <-> is_script_character c "devanagari" = true)
  /\ (script_of_code c = Some "cjk"%string <-> is_cjk_character c = true).
Proof.
  intros c. split; [|split; [|split]].
  - intros s1 s2 H1 H2.
    apply is_script_character_cases in H1, H2.
    repeat match goal with
           | H : _ \/ _ |- _ => destruct H
           | H : _ /\ _ |- _ => destruct H
           end; subst; try reflexivity; exfalso; ranges; lia.
  - intros s H. apply is_script_character_cases in H.
    repeat match goal with
           | H : _ \/ _ |- _ => destruct H
           | H : _ /\ _ |- _ => destruct H
           end; ranges; lia.
  - intros s Hs. destruct (is_script_character c s) eqn:E; [|reflexivity].
    exfalso. apply Hs. apply is_script_character_cases in E. cbn.
    repeat match goal with
           | H : _ \/ _ |- _ => destruct H
           | H : _ /\ _ |- _ => destruct H
           end; subst; tauto.
  - rewrite !script_of_code_in_script, is_cjk_character_ranges.
    unfold in_script, is_script_character. cbn.
    rewrite !orb_false_r.
    repeat split; intros H; try exact H;
      destruct (cp_between 0x4E00 0x9FAF c), (cp_between 0x3040 0x309F c),
        (cp_between 0x30A0 0x30FF c); cbn in *; congruence.
Qed.

Lemma X6_script_ranges_witness :
  script_of_code 0x3042%N = Some "cjk"%string.
Proof.
  destruct (X6_script_ranges 0x3042%N) as (_ & _ & _ & _ & _ & _ & H).
  apply H. reflexivity.
Defined.

(* --------------------------------------------------------------------- *)
(** *** Only non-Latin characters decide the document script *)

Lemma counter_pop_incr (k k' : string) (c : counter) :
  counter_pop k (counter_incr k' c)
  = if String.eqb k k' then counter_pop k c
    else counter_incr k' (counter_pop k c).
Proof.
  unfold counter_pop.
  induction c as [|[k0 n] c IH]; cbn [counter_incr filter fst].
  - destruct (String.eqb k k'); reflexivity.
  - destruct (String.eqb_spec k' k0) as [->|Hk0]; cbn [filter fst].
    + destruct (String.eqb_spec k k0) as [->|Hk]; cbn [negb].
      * reflexivity.
      * cbn [counter_incr]. rewrite String.eqb_refl. reflexivity.
    + rewrite IH. destruct (String.eqb_spec k k0) as [->|Hk]; cbn [negb].
      * destruct (String.eqb_spec k0 k'); [congruence|reflexivity].
      * destruct (String.eqb_spec k k'); [reflexivity|].
        cbn [counter_incr].
        destruct (String.eqb_spec k' k0); [congruence|reflexivity].
Qed.

Lemma non_latin_character_script (c : cp) :
  non_latin_character c
  = match script_of_code c with
    | Some k => negb (String.eqb "latin" k)
    | None => false
    end.
Proof.
  unfold non_latin_character. rewrite is_cjk_character_ranges.
  unfold is_script_character, script_of_code. cbn [existsb assoc UNICODE_RANGES
    String.eqb Ascii.eqb Bool.eqb].
  cbn. rewrite orb_false_r.
  repeat match goal with
         | |- context [if ?b then _ else _] => destruct b eqn:?
         end; cbn; try reflexivity;
    repeat match goal with
           | |- context [cp_between ?a ?b c] =>
             destruct (cp_between a b c) eqn:?
           end; cbn in *; try reflexivity; try discriminate;
    exfalso; ranges; lia.
Qed.

Lemma tally_char_pop_latin (counts : counter) (c : cp) :
  counter_pop "latin" (tally_char counts c)
  = if non_latin_character c then tally_char (counter_pop "latin" counts) c
    else counter_pop "latin" counts.
Proof.
  rewrite non_latin_character_script. unfold tally_char.
  destruct (script_of_code c) as [k|]; [|reflexivity].
  rewrite counter_pop_incr. destruct (String.eqb "latin" k); reflexivity.
Qed.

Lemma tally_line_pop_latin (line : text) (counts : counter) :
  counter_pop "latin" (tally_line counts line)
  = tally_line (counter_pop "latin" counts) (filter non_latin_character line).
Proof.
  unfold tally_line. revert counts.
  induction line as [|c line IH]; intros counts; [reflexivity|].
  cbn [fold_left filter]. rewrite IH, tally_char_pop_latin.
  destruct (non_latin_character c); reflexivity.
Qed.

Lemma fold_tally_pop_latin (sample : list text) (counts : counter) :
  counter_pop "latin" (fold_left tally_line sample counts)
  = fold_left tally_line (map (filter non_latin_character) sample)
      (counter_pop "latin" counts).
Proof.
  revert counts. induction sample as [|l sample IH]; intros counts;
    [reflexivity|].
  cbn [fold_left map]. rewrite IH, tally_line_pop_latin. reflexivity.
Qed.

Lemma filter_idem {A} (f : A -> bool) (l : list A) :
  filter f (filter f l) = filter f l.
Proof.
  induction l as [|a l IH]; [reflexivity|]. cbn [filter].
  destruct (f a) eqn:E; [|exact IH]. cbn [filter]. rewrite E, IH. reflexivity.
Qed.

Lemma detect_script_filter_non_latin :
  forall (lines : list text) (sample_size : Z),
  detect_target_language_script (map (filter non_latin_character) lines)
    sample_size
  = detect_target_language_script lines sample_size.
Proof.
  intros lines n. unfold detect_target_language_script. cbv zeta.
  rewrite !tally_lines_sample. unfold sample_of. rewrite firstn_map.
  match goal with
  | |- context [fold_left tally_line (map ?f ?l) ?a] =>
    set (c2 := fold_left tally_line (map f l) a)
  end.
  match goal with
  | |- context [fold_left tally_line (firstn ?k ?l) ?a] =>
    set (c1 := fold_left tally_line (firstn k l) a)
  end.
  assert (E1 : counter_pop "latin" c1 = c2).
  { unfold c1. rewrite fold_tally_pop_latin. reflexivity. }
  assert (E2 : counter_pop "latin" c2 = c2).
  { unfold c2. rewrite fold_tally_pop_latin, map_map.
    f_equal. apply map_ext. intros l. apply filter_idem. }
  rewrite E1, E2.
  destruct c2 as [|p2 c2'] eqn:Ec2.
  - destruct c1; reflexivity.
  - destruct c1 as [|p1 c1']; [discriminate E1|]. reflexivity.
Qed.

(** X7: the script [detect_target_language_script] returns depends only
    on the characters of the four non-Latin scripts: deleting every other
    character from every line (printable ASCII included) leaves the result
    unchanged. *)
Theorem X7_script_ignores_latin :
  forall (lines : list text) (sample_size : Z),
  detect_target_language_script (map (filter non_latin_character) lines)
    sample_size
  = detect_target_language_script lines sample_size.
Proof. exact detect_script_filter_non_latin. Qed.

(* ===================================================================== *)
(** ** Corpora without a slash *)

Lemma strip_no_slash (l : text) :
  has_cp (ch "/") l = false -> in_ (py "/") (strip l) = false.
Proof.
  intros H. rewrite slash_literal, in_single. apply has_cp_strip_by, H.
Qed.

Lemma no_markers_without_slash (l : text) :
  has_cp (ch "/") l = false -> has_pronunciation_markers (strip l) = false.
Proof.
  intros H. unfold has_pronunciation_markers.
  rewrite strip_no_slash by exact H. reflexivity.
Qed.

Lemma nth_no_slash (lines : list text) (i : nat) :
  (forall l, In l lines -> has_cp (ch "/") l = false) ->
  has_cp (ch "/") (nth i lines []) = false.
Proof.
  intros H. destruct (Nat.lt_ge_cases i (length lines)) as [Hi|Hi].
  - apply H, nth_In, Hi.
  - rewrite nth_overflow by exact Hi. reflexivity.
Qed.

Lemma filter_none {A} (f : A -> bool) (l : list A) :
  (forall a, In a l -> f a = false) -> filter f l = [].
Proof.
  induction l as [|a l IH]; intros H; [reflexivity|].
  cbn [filter]. rewrite (H a (or_introl eq_refl)).
  apply IH. intros b Hb. apply H. right. exact Hb.
Qed.

Section NoSlash.
Context {U : UnicodeDB}.
Variable filters : pos_filters.
Variable lines : list text.
Hypothesis no_slash : forall l, In l lines -> has_cp (ch "/") l = false.

Lemma alternating_loop_no_slash (idxs : list nat) :
  (forall i, In i idxs -> i + 1 < length lines) ->
  alternating_loop lines idxs [] = Ok [].
Proof.
  induction idxs as [|i idxs IH]; intros Hb; [reflexivity|].
  assert (Hi : i + 1 < length lines) by (apply Hb; left; reflexivity).
  cbn [alternating_loop].
  rewrite (getitem_lt lines i []) by lia.
  rewrite (getitem_lt lines (i + 1) []) by lia.
  cbn [bind].
  rewrite !no_markers_without_slash by (apply nth_no_slash, no_slash).
  cbn [andb app length Nat.leb].
  rewrite Tauto.if_same. apply IH. intros j Hj. apply Hb. right. exact Hj.
Qed.

Lemma multiline_triple_no_slash (i : nat) :
  multiline_triple_at lines i = false.
Proof.
  unfold multiline_triple_at, multiline_triple, stripped_at.
  rewrite (strip_no_slash (nth i lines [])) by (apply nth_no_slash, no_slash).
  rewrite !andb_false_r. reflexivity.
Qed.

Lemma pattern_words_loop_no_slash role pattern (idxs : list nat) :
  (forall i, In i idxs -> i + 1 < length lines) ->
  forall words,
  pattern_words_loop filters lines role pattern idxs words = Ok words.
Proof.
  induction idxs as [|i idxs IH]; intros Hb words; [reflexivity|].
  assert (Hi : i + 1 < length lines) by (apply Hb; left; reflexivity).
  assert (Hb' : forall j, In j idxs -> j + 1 < length lines)
    by (intros j Hj; apply Hb; right; exact Hj).
  cbn [pattern_words_loop].
  rewrite (getitem_lt lines i []) by lia.
  rewrite (getitem_lt lines (i + 1) []) by lia.
  cbn [bind].
  rewrite !no_markers_without_slash by (apply nth_no_slash, no_slash).
  rewrite !andb_false_r. cbn [negb andb].
  case_ifs; apply IH; exact Hb'.
Qed.

Lemma multiline_words_loop_no_slash role (fuel : nat) :
  forall i words, length lines <= i + fuel ->
  multiline_words_loop filters fuel lines role i words = Ok words.
Proof.
  induction fuel as [|fuel IH]; intros i words Hf;
    cbn [multiline_words_loop];
    destruct (i <? length lines - 2) eqn:E; try reflexivity.
  - apply Nat.ltb_lt in E. lia.
  - apply Nat.ltb_lt in E.
    rewrite (getitem_lt lines i []) by lia.
    rewrite (getitem_lt lines (i + 1) []) by lia.
    rewrite (getitem_lt lines (i + 2) []) by lia.
    cbn [bind].
    rewrite (strip_no_slash (nth i lines []))
      by (apply nth_no_slash, no_slash).
    rewrite !andb_false_r. cbn [andb]. apply IH. lia.
Qed.
End NoSlash.

(** X8: when no line of the corpus holds a slash, there is no
    pronunciation evidence at all: [detect_alternating_pattern] answers
    ['unknown'], [detect_multiline_format] answers [False], and
    [extract_multiline_format_words] and
    [extract_words_with_pattern_detection] return no word, for every role
    and every pattern. *)
Theorem X8_no_slash_no_pattern_words :
  forall (U : UnicodeDB) (filters : pos_filters) (lines : list text),
  (forall l, In l lines -> has_cp (ch "/") l = false) ->
  detect_alternating_pattern lines = Ok "unknown"%string
  /\ detect_multiline_format lines = Ok false
  /\ forall (extract_language pattern : string),
       extract_multiline_format_words filters lines extract_language = Ok []
       /\ extract_words_with_pattern_detection filters lines extract_language
            pattern = Ok [].
Proof.
  intros U filters lines H.
  assert (Hm : detect_multiline_format lines = Ok false).
  { rewrite detect_multiline_format_count.
    rewrite filter_none; [reflexivity|].
    intros i _. apply multiline_triple_no_slash, H. }
  split; [|split; [exact Hm|]].
  - unfold detect_alternating_pattern.
    rewrite alternating_loop_no_slash; [reflexivity|exact H|].
    intros i Hi. apply in_py_range in Hi. lia.
  - intros role pattern.
    assert (Hw : extract_multiline_format_words filters lines role = Ok []).
    { apply multiline_words_loop_no_slash; [exact H|lia]. }
    split; [exact Hw|].
    unfold extract_words_with_pattern_detection. rewrite Hm. cbn [bind].
    apply pattern_words_loop_no_slash; [exact H|].
    intros i Hi. apply in_py_range in Hi. lia.
Qed.

Lemma X8_no_slash_witness :
  @extract_words_with_pattern_detection latin1_db POS_FILTERS
    corpus_short_words "target" "source-target" = Ok [].
Proof.
  destruct (X8_no_slash_no_pattern_words latin1_db POS_FILTERS
              corpus_short_words) as (_ & _ & H).
  - intros l Hl. unfold corpus_short_words in Hl.
    apply in_app_or in Hl. destruct Hl as [Hl|Hl];
      apply repeat_spec in Hl; subst l; reflexivity.
  - apply H.
Defined.

(* ===================================================================== *)
(** ** Shape of the words the pair strategies return *)

Lemma re_split_aux_fields (P Q : cp -> bool) (s : text) :
  forall (cur : text) (st : option bool) (f : text) (c : cp),
  In f (re_split_aux P Q cur st s) -> In c f ->
  In c cur \/ (In c s /\ P c = false /\ Q c = false).
Proof.
  induction s as [|d s IH]; intros cur st f c Hf Hc.
  - cbn in Hf. destruct Hf as [<-|[]]. left. apply in_rev. exact Hc.
  - cbn [re_split_aux] in Hf.
    assert (Hnil : forall st', In f (re_split_aux P Q [] st' s) ->
              In c cur \/ (In c (d :: s) /\ P c = false /\ Q c = false)).
    { intros st' H. destruct (IH [] st' f c H Hc) as [[]|(H1 & H2 & H3)].
      right. repeat split; trivial. right. exact H1. }
    assert (Hcur : rev cur = f -> In c cur).
    { intros <-. apply in_rev. exact Hc. }
    destruct (P d) eqn:EP.
    { destruct st as [[|]|]; try (destruct Hf as [Hf|Hf]; [left; auto|]);
        eapply Hnil; exact Hf. }
    destruct (Q d) eqn:EQ.
    { destruct st as [[|]|]; try (destruct Hf as [Hf|Hf]; [left; auto|]);
        eapply Hnil; exact Hf. }
    destruct (IH (d :: cur) None f c Hf Hc) as [[<-|H]|(H1 & H2 & H3)].
    + right. repeat split; trivial. left. reflexivity.
    + left. exact H.
    + right. repeat split; trivial. right. exact H1.
Qed.

Lemma split_ws_fields (s f : text) :
  In f (split_ws s) ->
  f <> [] /\ forall c, In c f -> In c s /\ isspace c = false.
Proof.
  unfold split_ws, re_split, re_split2. intros H.
  apply filter_In in H. destruct H as [H Hne]. split.
  - intros ->. discriminate.
  - intros c Hc.
    destruct (re_split_aux_fields _ _ _ _ _ _ _ H Hc) as [[]|(H1 & H2 & _)].
    split; assumption.
Qed.

Lemma clean_field_no_space (s word : text) :
  In word (split_ws s) ->
  forallb (fun c => negb (isspace c)) (clean_word word) = true.
Proof.
  intros H. apply forallb_forall. intros c Hc.
  apply strip_by_In in Hc.
  destruct (split_ws_fields _ _ H) as [_ Hf].
  destruct (Hf c Hc) as [_ ->]. reflexivity.
Qed.

Section WordShapeLemmas.
Context {U : UnicodeDB}.

Lemma pronunciation_headword_ok (line w : text) :
  In w (pronunciation_headword line) -> headword_ok w.
Proof.
  unfold pronunciation_headword.
  destruct (extract_pronunciation_word line) as [word|] eqn:E; [|intros []].
  destruct (negb (is_empty word) && is_valid_word word) eqn:E1; [|intros []].
  intros [<-|[]]. apply andb_prop in E1. destruct E1 as [_ Ev].
  destruct (extract_pronunciation_word_spec U line) as [_ H].
  destruct (H word E) as ((pre & post & rest & _ & _ & _ & Hs) & _ & Hst & Hd & _).
  rewrite !has_cp_app in Hs.
  apply orb_false_iff in Hs. destruct Hs as [_ Hs].
  apply orb_false_iff in Hs. destruct Hs as [Hs _].
  repeat split; assumption.
Qed.

Lemma pattern_translation_words_ok (line2 w : text) :
  In w (pattern_translation_words line2) -> latin1_token w.
Proof.
  unfold pattern_translation_words. intros H.
  apply in_flat_map in H. destruct H as (word & Hw & H).
  destruct (negb (is_empty (clean_word word))
            && (2 <=? length (clean_word word))
            && isalpha (normalize_word (clean_word word))
            && forallb (fun c => (c <? 256)%N) (clean_word word)) eqn:E;
    [|destruct H].
  destruct H as [<-|[]].
  apply andb_prop in E. destruct E as [E E4].
  apply andb_prop in E. destruct E as [E E3].
  apply andb_prop in E. destruct E as [_ E2].
  apply Nat.leb_le in E2.
  repeat split; trivial.
  - eapply clean_field_no_space. exact Hw.
  - apply strip_by_idem.
Qed.

Lemma multiline_translation_words_ok (line2 w : text) :
  In w (multiline_translation_words line2) ->
  latin1_token w /\ 3 <= length w
  /\ mem (lower w) ENGLISH_STOPWORDS = false.
Proof.
  unfold multiline_translation_words. intros H.
  apply in_flat_map in H. destruct H as (word & Hw & H).
  destruct (negb (is_empty (clean_word word))
            && (3 <=? length (clean_word word))
            && isalpha (normalize_word (clean_word word))
            && forallb (fun c => (c <? 256)%N) (clean_word word)
            && negb (mem (lower (clean_word word)) ENGLISH_STOPWORDS)) eqn:E;
    [|destruct H].
  destruct H as [<-|[]].
  apply andb_prop in E. destruct E as [E E5].
  apply andb_prop in E. destruct E as [E E4].
  apply andb_prop in E. destruct E as [E E3].
  apply andb_prop in E. destruct E as [_ E2].
  apply Nat.leb_le in E2. apply negb_true_iff in E5.
  repeat split; trivial.
  - lia.
  - eapply clean_field_no_space. exact Hw.
  - apply strip_by_idem.
Qed.

Variable filters : pos_filters.
Variable lines : list text.

(** A property of words that holds of what the loops start from keeps
    holding of what they return. *)
Variable P : text -> Prop.

Lemma Forall_app_from (ws : list text) (f : text -> list text) (x : text) :
  Forall P ws -> (forall w, In w (f x) -> P w) -> Forall P (ws ++ f x).
Proof.
  intros H1 H2. apply Forall_app. split; [exact H1|].
  apply Forall_forall. exact H2.
Qed.

Lemma multiline_words_loop_shape (extract_language : string) :
  ((extract_language =? "source")%string = true ->
   forall line w, In w (pronunciation_headword line) -> P w) ->
  ((extract_language =? "source")%string = false ->
   (extract_language =? "target")%string = true ->
   forall line w, In w (multiline_translation_words line) -> P w) ->
  forall fuel i words r,
  Forall P words ->
  multiline_words_loop filters fuel lines extract_language i words = Ok r ->
  Forall P r.
Proof.
  intros Hs Ht. induction fuel as [|fuel IH]; intros i words r Hw H.
  - cbn [multiline_words_loop] in H.
    destruct (i <? length lines - 2); [discriminate|].
    injection H as <-. exact Hw.
  - cbn [multiline_words_loop] in H.
    destruct (i <? length lines - 2); [|injection H as <-; exact Hw].
    destruct (getitem lines i) as [l1|]; [|discriminate].
    destruct (getitem lines (i + 1)) as [l2|]; [|discriminate].
    destruct (getitem lines (i + 2)) as [l3|]; [|discriminate].
    cbn [bind] in H. cbv zeta in H.
    destruct (String.eqb extract_language "source") eqn:Es;
      [|destruct (String.eqb extract_language "target") eqn:Et];
      repeat match type of H with
             | context [if ?b then _ else _] => destruct b
             end;
      (eapply IH; [|exact H]); trivial;
      apply Forall_app_from; trivial; intros w Hin;
      first [ eapply Hs; [reflexivity|exact Hin]
            | eapply Ht; [reflexivity|reflexivity|exact Hin] ].
Qed.

Lemma pattern_words_loop_shape (extract_language pattern : string) :
  ((pattern =? "source-target")%string
   && (extract_language =? "source")%string
   || negb (pattern =? "source-target")%string
      && (pattern =? "target-source")%string
      && (extract_language =? "target")%string = true ->
   forall line w, In w (pronunciation_headword line) -> P w) ->
  ((pattern =? "source-target")%string
   && (extract_language =? "target")%string
   || negb (pattern =? "source-target")%string
      && (pattern =? "target-source")%string
      && (extract_language =? "source")%string = true ->
   forall line w, In w (pattern_translation_words line) -> P w) ->
  forall idxs words r,
  Forall P words ->
  pattern_words_loop filters lines extract_language pattern idxs words = Ok r ->
  Forall P r.
Proof.
  intros Hh Ht. induction idxs as [|i idxs IH]; intros words r Hw H.
  - injection H as <-. exact Hw.
  - cbn [pattern_words_loop] in H.
    destruct (getitem lines i) as [l1|]; [|discriminate].
    destruct (getitem lines (i + 1)) as [l2|]; [|discriminate].
    cbn [bind] in H. cbv zeta in H.
    destruct (String.eqb pattern "source-target") eqn:Ep1;
    destruct (String.eqb pattern "target-source") eqn:Ep2;
    destruct (String.eqb extract_language "source") eqn:Er1;
    destruct (String.eqb extract_language "target") eqn:Er2;
    cbn [andb orb negb] in Hh, Ht, H;
      repeat match type of H with
             | context [if ?b then _ else _] => destruct b
             end;
      (eapply IH; [|exact H]); trivial;
      apply Forall_app_from; trivial; intros w Hin;
      first [ eapply Hh; [reflexivity|exact Hin]
            | eapply Ht; [reflexivity|exact Hin] ].
Qed.
End WordShapeLemmas.

Lemma role_not_both (r : string) :
  (r =? "source")%string = true -> (r =? "target")%string = false.
Proof. intros E. apply String.eqb_eq in E. subst r. reflexivity. Qed.

(** X9: every word [extract_words_with_pattern_detection] returns is a
    headword of a pronunciation line (valid, stripped, without slash and
    digit) or a token of a counterpart line (at least 2 characters, all
    below U+0100, alphabetic once normalized, no whitespace, no punctuation
    at its ends).  With the pattern ['source-target'] the source role
    returns headwords only and the target role tokens only; with
    ['target-source'], when the corpus is not in the multiline layout, it
    is the other way round. *)
Theorem X9_pattern_words_shape :
  forall (U : UnicodeDB) (filters : pos_filters) (lines : list text)
         (extract_language pattern : string) (words : list text),
  extract_words_with_pattern_detection filters lines extract_language pattern
    = Ok words ->
  Forall (fun w => headword_ok w \/ latin1_token w) words
  /\ (pattern = "source-target"%string ->
      (extract_language = "source"%string -> Forall headword_ok words)
      /\ (extract_language = "target"%string -> Forall latin1_token words))
  /\ (pattern = "target-source"%string ->
      detect_multiline_format lines = Ok false ->
      (extract_language = "target"%string -> Forall headword_ok words)
      /\ (extract_language = "source"%string -> Forall latin1_token words)).
Proof.
  intros U filters lines role pattern words H.
  unfold extract_words_with_pattern_detection in H.
  destruct (detect_multiline_format lines) as [[|]|] eqn:Em; [| |discriminate];
    cbn [bind] in H; unfold extract_multiline_format_words in H.
  - split; [|split].
    + eapply multiline_words_loop_shape; [| |constructor|exact H].
      * intros _ line w Hw. left. eapply pronunciation_headword_ok, Hw.
      * intros _ _ line w Hw. right.
        eapply multiline_translation_words_ok, Hw.
    + intros _. split; intros ->.
      * eapply multiline_words_loop_shape; [| |constructor|exact H].
        -- intros _ line w Hw. eapply pronunciation_headword_ok, Hw.
        -- discriminate.
      * eapply multiline_words_loop_shape; [| |constructor|exact H].
        -- discriminate.
        -- intros _ _ line w Hw.
           eapply multiline_translation_words_ok, Hw.
    + intros _ [=].
  - split; [|split].
    + eapply pattern_words_loop_shape; [| |constructor|exact H].
      * intros _ line w Hw. left. eapply pronunciation_headword_ok, Hw.
      * intros _ line w Hw. right.
        eapply pattern_translation_words_ok, Hw.
    + intros ->. split; intros ->.
      * eapply pattern_words_loop_shape; [| |constructor|exact H].
        -- intros _ line w Hw. eapply pronunciation_headword_ok, Hw.
        -- discriminate.
      * eapply pattern_words_loop_shape; [| |constructor|exact H].
        -- discriminate.
        -- intros _ line w Hw. eapply pattern_translation_words_ok, Hw.
    + intros -> _. split; intros ->.
      * eapply pattern_words_loop_shape; [| |constructor|exact H].
        -- intros _ line w Hw. eapply pronunciation_headword_ok, Hw.
        -- discriminate.
      * eapply pattern_words_loop_shape; [| |constructor|exact H].
        -- discriminate.
        -- intros _ line w Hw. eapply pattern_translation_words_ok, Hw.
Qed.

Lemma X9_pattern_words_shape_witness :
  Forall (fun w => @headword_ok latin1_db w \/ @latin1_token latin1_db w)
    [ py "house"; py "house"; py "house" ].
Proof.
  apply (X9_pattern_words_shape latin1_db POS_FILTERS corpus60
           "target" "source-target").
  vm_compute. reflexivity.
Defined.

(** X10: [extract_multiline_format_words] returns, for the source role,
    headwords of pronunciation lines only; for the target role, tokens of
    at least 3 characters, all below U+0100, alphabetic once normalized,
    whose lower-case form is no stop word; and no word at all for any other
    role. *)
Theorem X10_multiline_words_shape :
  forall (U : UnicodeDB) (filters : pos_filters) (lines : list text)
         (extract_language : string) (words : list text),
  extract_multiline_format_words filters lines extract_language = Ok words ->
  (extract_language = "source"%string -> Forall headword_ok words)
  /\ (extract_language = "target"%string ->
      Forall (fun w => latin1_token w /\ 3 <= length w
                       /\ mem (lower w) ENGLISH_STOPWORDS = false) words)
  /\ (extract_language <> "source"%string ->
      extract_language <> "target"%string -> words = []).
Proof.
  intros U filters lines role words H.
  unfold extract_multiline_format_words in H. split; [|split].
  - intros ->. eapply multiline_words_loop_shape; [| |constructor|exact H].
    + intros _ line w Hw. eapply pronunciation_headword_ok, Hw.
    + discriminate.
  - intros ->. eapply multiline_words_loop_shape; [| |constructor|exact H].
    + discriminate.
    + intros _ _ line w Hw. eapply multiline_translation_words_ok, Hw.
  - intros H1 H2.
    apply String.eqb_neq in H1, H2.
    assert (F : Forall (fun w => False) words).
    { eapply multiline_words_loop_shape; [| |constructor|exact H];
        congruence. }
    destruct words as [|w ws]; [reflexivity|].
    inversion F as [|? ? []].
Qed.

Lemma X10_multiline_words_shape_witness :
  Forall (fun w => @latin1_token latin1_db w /\ 3 <= length w
                   /\ mem (@lower latin1_db w) ENGLISH_STOPWORDS = false)
    [ py "house"; py "home" ].
Proof.
  destruct (X10_multiline_words_shape latin1_db POS_FILTERS
              corpus_multiline_entry "target" [ py "house"; py "home" ])
    as (_ & H & _).
  - vm_compute. reflexivity.
  - apply H. reflexivity.
Defined.

(* ===================================================================== *)
(** ** Shape of the words the simple and header-skip strategies return *)

Lemma getitem_In {A} (l : list A) (i : nat) (a : A) :
  getitem l i = Ok a -> In a l.
Proof.
  unfold getitem. destruct (nth_error l i) as [b|] eqn:E; [|discriminate].
  intros [= <-]. eapply nth_error_In. exact E.
Qed.

Section SimpleShape.
Context {U : UnicodeDB}.
Variable filters : pos_filters.

Lemma simple_source_word_ok (line w : text) :
  In w (simple_source_word filters line) ->
  simple_headword_ok w /\ w = clean_word line
  /\ should_include_word_by_pos line filters = true.
Proof.
  unfold simple_source_word.
  destruct (negb (is_empty (clean_word line))
            && (1 <=? length (clean_word line))
            && negb (existsb cp_isdigit (clean_word line))
            && negb (existsb (fun char => in_ char (clean_word line))
                       BRACKET_CHARS)
            && should_include_word_by_pos line filters) eqn:E; [|intros []].
  intros [<-|[]].
  apply andb_prop in E. destruct E as [E E5].
  apply andb_prop in E. destruct E as [E E4].
  apply andb_prop in E. destruct E as [E E3].
  apply andb_prop in E. destruct E as [E1 _].
  apply negb_true_iff in E3, E4.
  repeat split; trivial.
  - intros Hn. rewrite Hn in E1. discriminate.
  - apply strip_by_idem.
Qed.

Lemma extract_simple_translation_words_ok (translation w : text) :
  In w (extract_simple_translation_words translation) -> alpha_word w.
Proof.
  unfold extract_simple_translation_words. intros H.
  apply in_flat_map in H. destruct H as (word & Hw & H).
  destruct (isalpha (clean_word word)) eqn:E; [|destruct H].
  destruct H as [<-|[]]. repeat split; trivial.
  - eapply clean_field_no_space. exact Hw.
  - apply strip_by_idem.
Qed.

Variable lines : list text.
Variable P : text -> Prop.
Variable extract_language : string.

Hypothesis source_words :
  (extract_language =? "source")%string = true ->
  forall l w, In l lines -> In w (simple_source_word filters (strip l)) -> P w.
Hypothesis other_words :
  (extract_language =? "source")%string = false ->
  forall l w, In w (extract_simple_translation_words (strip l)) -> P w.

Lemma simple_format_words_shape :
  forall n ls, length ls <= n -> incl ls lines ->
  Forall P (_extract_simple_format_words filters ls extract_language).
Proof.
  induction n as [|n IH]; intros ls Hn Hi.
  - destruct ls; [constructor|cbn in Hn; lia].
  - destruct ls as [|l rest]; [constructor|].
    cbn [_extract_simple_format_words]. cbv zeta.
    assert (Hrest : incl rest lines)
      by (intros x Hx; apply Hi; right; exact Hx).
    cbn [length] in Hn.
    destruct (is_empty (strip l) || is_header_line (strip l));
      [apply IH; [lia|exact Hrest]|].
    apply Forall_app. split.
    + apply Forall_forall. intros w Hw.
      destruct (String.eqb extract_language "source") eqn:Es.
      * eapply (source_words eq_refl l); [apply Hi; left; reflexivity|exact Hw].
      * destruct (negb (is_empty (strip (hd [] rest)))); [|destruct Hw].
        eapply (other_words eq_refl). exact Hw.
    + destruct rest as [|l2 rest']; [constructor|].
      apply IH; [cbn [length] in Hn; lia|].
      intros x Hx. apply Hrest. right. exact Hx.
Qed.

Lemma header_skip_loop_shape :
  forall fuel i words r,
  Forall P words ->
  header_skip_loop filters fuel lines extract_language i words = Ok r ->
  Forall P r.
Proof.
  induction fuel as [|fuel IH]; intros i words r Hw H;
    cbn [header_skip_loop] in H;
    (destruct (i <? length lines - 1); [|injection H as <-; exact Hw]);
    [discriminate|].
  destruct (getitem lines i) as [l|] eqn:El; [|discriminate].
  destruct (getitem lines (i + 1)) as [n|] eqn:En; [|discriminate].
  cbn [bind] in H. cbv zeta in H.
  apply getitem_In in El.
  destruct (is_empty (strip l) || is_empty (strip n));
    [eapply IH; [exact Hw|exact H]|].
  eapply IH; [|exact H].
  destruct (String.eqb extract_language "source") eqn:Es.
  - apply Forall_app. split; [exact Hw|].
    apply Forall_forall. intros w Hin.
    eapply (source_words eq_refl l); [exact El|exact Hin].
  - destruct (negb (is_empty (strip n))); [|exact Hw].
    apply Forall_app. split; [exact Hw|].
    apply Forall_forall. intros w Hin.
    eapply (other_words eq_refl). exact Hin.
Qed.
End SimpleShape.

Section SimpleRoles.
Context {U : UnicodeDB}.
Variable filters : pos_filters.
Variables extract_language other_language : string.
Hypothesis same_branch :
  (extract_language =? "source")%string = (other_language =? "source")%string.

Lemma simple_format_words_role :
  forall n ls, length ls <= n ->
  _extract_simple_format_words filters ls extract_language
  = _extract_simple_format_words filters ls other_language.
Proof.
  induction n as [|n IH]; intros ls Hn.
  - destruct ls; [reflexivity|cbn in Hn; lia].
  - destruct ls as [|l rest]; [reflexivity|].
    cbn [_extract_simple_format_words]. cbv zeta. cbn [length] in Hn.
    rewrite same_branch. rewrite (IH rest) by lia.
    destruct rest as [|l2 rest']; [reflexivity|].
    rewrite (IH rest') by (cbn [length] in Hn; lia). reflexivity.
Qed.

Lemma header_skip_loop_role (lines : list text) :
  forall fuel i words,
  header_skip_loop filters fuel lines extract_language i words
  = header_skip_loop filters fuel lines other_language i words.
Proof.
  induction fuel as [|fuel IH]; intros i words; [reflexivity|].
  cbn [header_skip_loop].
  destruct (i <? length lines - 1); [|reflexivity].
  destruct (getitem lines i) as [l|]; [|reflexivity].
  destruct (getitem lines (i + 1)) as [n|]; [|reflexivity].
  cbn [bind]. cbv zeta. rewrite same_branch, !IH. reflexivity.
Qed.
End SimpleRoles.

(** X11: the simple and the header-skip strategies return, for the source
    role, cleaned lines of the corpus only: each word is [clean_word] of a
    stripped line that passes the POS filter, is not empty and holds no
    digit and none of the bracket characters.  For every other role string
    both behave as for ['target'], and each word is alphabetic, free of
    whitespace and without punctuation at its ends. *)
Theorem X11_simple_words_shape :
  forall (U : UnicodeDB) (filters : pos_filters) (lines : list text)
         (extract_language : string),
  exists skipped,
    _extract_with_header_skip filters lines extract_language = Ok skipped
    /\ (extract_language = "source"%string ->
        forall w,
          In w (_extract_simple_format_words filters lines extract_language)
          \/ In w skipped ->
          simple_headword_ok w
          /\ exists l, In l lines /\ w = clean_word (strip l)
                       /\ should_include_word_by_pos (strip l) filters = true)
    /\ (extract_language <> "source"%string ->
        (forall w,
           In w (_extract_simple_format_words filters lines extract_language)
           \/ In w skipped -> alpha_word w)
        /\ _extract_simple_format_words filters lines extract_language
           = _extract_simple_format_words filters lines "target"
        /\ _extract_with_header_skip filters lines "target" = Ok skipped).
Proof.
  intros U filters lines role.
  destruct (_extract_with_header_skip_total filters lines role)
    as [skipped Hs].
  exists skipped. split; [exact Hs|]. split.
  - intros ->.
    set (P := fun w => simple_headword_ok w
                /\ exists l, In l lines /\ w = clean_word (strip l)
                     /\ should_include_word_by_pos (strip l) filters = true).
    assert (HP : forall l w, In l lines ->
                   In w (simple_source_word filters (strip l)) -> P w).
    { intros l w Hl Hw. apply simple_source_word_ok in Hw.
      destruct Hw as (H1 & H2 & H3). split; [exact H1|].
      exists l. auto. }
    intros w [Hw|Hw].
    + assert (F := simple_format_words_shape filters lines P "source"
                     (fun _ => HP) (fun E => ltac:(discriminate E))
                     (length lines) lines (le_n _) (incl_refl _)).
      rewrite Forall_forall in F. apply F. exact Hw.
    + unfold _extract_with_header_skip in Hs.
      destruct (header_skip_start lines _) as [start|]; [|discriminate].
      cbn [bind] in Hs.
      assert (F := header_skip_loop_shape filters lines P "source"
                     (fun _ => HP) (fun E => ltac:(discriminate E))
                     _ _ _ _ (Forall_nil _) Hs).
      rewrite Forall_forall in F. apply F. exact Hw.
  - intros Hne. apply String.eqb_neq in Hne.
    assert (Hb : (role =? "source")%string = ("target" =? "source")%string)
      by (rewrite Hne; reflexivity).
    assert (HP : (role =? "source")%string = false ->
                 forall l w, In w (extract_simple_translation_words (strip l))
                             -> alpha_word w).
    { intros _ l w Hw. eapply extract_simple_translation_words_ok, Hw. }
    assert (HS : (role =? "source")%string = true ->
                 forall l w, In l lines ->
                   In w (simple_source_word filters (strip l)) ->
                   alpha_word w) by congruence.
    split; [|split].
    + intros w [Hw|Hw].
      * assert (F := simple_format_words_shape filters lines alpha_word role
                       HS HP (length lines) lines (le_n _) (incl_refl _)).
        rewrite Forall_forall in F. apply F. exact Hw.
      * unfold _extract_with_header_skip in Hs.
        destruct (header_skip_start lines _) as [start|]; [|discriminate].
        cbn [bind] in Hs.
        assert (F := header_skip_loop_shape filters lines alpha_word role
                       HS HP _ _ _ _ (Forall_nil _) Hs).
        rewrite Forall_forall in F. apply F. exact Hw.
    + apply (simple_format_words_role filters role "target" Hb
               (length lines)). apply le_n.
    + rewrite <- Hs. unfold _extract_with_header_skip.
      destruct (header_skip_start lines _) as [start|]; [|reflexivity].
      cbn [bind]. symmetry. apply header_skip_loop_role. exact Hb.
Qed.

Lemma X11_simple_words_shape_witness :
  @simple_headword_ok latin1_db (py "ab").
Proof.
  destruct (X11_simple_words_shape latin1_db POS_FILTERS corpus_two_lines
              "source") as (skipped & _ & H & _).
  destruct (H eq_refl (py "ab")) as [Hw _]; [|exact Hw].
  left. vm_compute. left. reflexivity.
Defined.

(* ===================================================================== *)
(** ** Shape of the words the script-driven strategy returns *)

Lemma yield_ranges_script (script : string) (c : cp) :
  In script [ "arabic"; "cyrillic"; "devanagari" ]%string ->
  existsb (fun r => cp_between (fst r) (snd r) c) (yield_ranges script)
  = is_script_character c script.
Proof.
  intros [<-|[<-|[<-|[]]]];
    unfold yield_ranges, is_script_character; cbn -[cp_between];
    apply orb_false_r.
Qed.

Lemma yield_words_cjk (line w : text) :
  In w (_yield_words_by_script line "cjk") ->
  w <> [] /\ contains_cjk w = true
  /\ forall c, In c w ->
       isspace c = false /\ has_cp c (py ",，、。；;") = false.
Proof.
  unfold _yield_words_by_script. cbn [String.eqb Ascii.eqb Bool.eqb].
  cbv zeta. intros H. apply in_flat_map in H.
  destruct H as (part & Hp & H).
  set (clean := strip_chars (py ".,，、。；; ") part) in *.
  destruct (negb (is_empty clean) && contains_cjk clean) eqn:E;
    [|destruct H].
  destruct H as [<-|[]]. apply andb_prop in E. destruct E as [E1 E2].
  split; [|split].
  - intros Hn. rewrite Hn in E1. discriminate.
  - exact E2.
  - intros c Hc. unfold clean, strip_chars in Hc. apply strip_by_In in Hc.
    unfold re_split2 in Hp.
    destruct (re_split_aux_fields _ _ _ _ _ _ _ Hp Hc) as [[]|(_ & H1 & H2)].
    split; assumption.
Qed.

Lemma yield_words_ranges (line w : text) (script : string) :
  In script [ "arabic"; "cyrillic"; "devanagari" ]%string ->
  In w (_yield_words_by_script line script) ->
  2 <= length w /\ clean_word w = w
  /\ (forall c, In c w -> is_script_character c script = true \/ c = ch "-")
  /\ exists c rest, w = c :: rest /\ is_script_character c script = true.
Proof.
  intros Hs. unfold _yield_words_by_script.
  replace (String.eqb script "cjk") with false
    by (destruct Hs as [<-|[<-|[<-|[]]]]; reflexivity).
  cbv zeta. intros H. apply in_flat_map in H.
  destruct H as (word & Hw & H).
  destruct (negb (is_empty (clean_word word))
            && (2 <=? length (clean_word word))
            && forallb
                 (fun c =>
                    existsb (fun r => cp_between (fst r) (snd r) c)
                      (yield_ranges script)
                    || has_cp c (py " -"))
                 (clean_word word)) eqn:E; [|destruct H].
  destruct H as [<-|[]].
  apply andb_prop in E. destruct E as [E E3].
  apply andb_prop in E. destruct E as [_ E2].
  apply Nat.leb_le in E2.
  assert (Hc : forall c, In c (clean_word word) ->
                 is_script_character c script = true \/ c = ch "-").
  { intros c Hc. rewrite forallb_forall in E3. specialize (E3 c Hc).
    rewrite (yield_ranges_script script c Hs) in E3.
    apply orb_prop in E3. destruct E3 as [E3|E3]; [left; exact E3|].
    right. cbn in E3. rewrite orb_false_r in E3.
    apply orb_prop in E3. destruct E3 as [E3|E3].
    - apply N.eqb_eq in E3. subst c.
      apply strip_by_In in Hc.
      destruct (split_ws_fields _ _ Hw) as [_ Hf].
      destruct (Hf _ Hc) as [_ Hsp]. discriminate.
    - apply N.eqb_eq in E3. exact E3. }
  repeat split; trivial.
  - apply strip_by_idem.
  - pose proof (strip_by_head is_punctuation word) as Hh.
    fold (clean_word word) in Hh.
    destruct (clean_word word) as [|c rest]; [cbn in E2; lia|].
    exists c, rest. split; [reflexivity|].
    destruct (Hc c (or_introl eq_refl)) as [H|H]; [exact H|].
    subst c. discriminate.
Qed.

(** X12: the words of the script-driven strategy.  For the source role a
    word is a headword of a pronunciation line or a whole stripped line
    without slash, of at least 2 characters below U+0100, alphabetic once
    normalized.  For any other role and the script ['cjk'] a word is not
    empty, holds a CJK character and neither whitespace nor one of the
    separators; for ['arabic'], ['cyrillic'] and ['devanagari'] a word has
    at least 2 characters, each in the range of the script or a hyphen, the
    first one in the range, and no punctuation at its ends. *)
Theorem X12_script_words_shape :
  forall (U : UnicodeDB) (filters : pos_filters) (lines : list text)
         (extract_language target_script : string) (w : text),
  In w (extract_words_by_script_detection filters lines extract_language
          target_script) ->
  (extract_language = "source"%string ->
   headword_ok w
   \/ exists l, In l lines /\ w = strip l
        /\ has_cp (ch "/") w = false /\ 2 <= length w
        /\ forallb (fun c => (c <? 256)%N) w = true
        /\ isalpha (normalize_word w) = true)
  /\ (extract_language <> "source"%string ->
      target_script = "cjk"%string ->
      w <> [] /\ contains_cjk w = true
      /\ forall c, In c w ->
           isspace c = false /\ has_cp c (py ",，、。；;") = false)
  /\ (extract_language <> "source"%string ->
      In target_script [ "arabic"; "cyrillic"; "devanagari" ]%string ->
      2 <= length w /\ clean_word w = w
      /\ (forall c, In c w ->
            is_script_character c target_script = true \/ c = ch "-")
      /\ exists c rest,
           w = c :: rest /\ is_script_character c target_script = true).
Proof.
  intros U filters lines role script w H.
  unfold extract_words_by_script_detection in H.
  apply in_flat_map in H. destruct H as (l & Hl & H).
  unfold script_detection_line in H. cbv zeta in H.
  destruct (is_empty (strip l) || is_header_line (strip l)); [destruct H|].
  destruct (negb (should_include_word_by_pos (strip l) filters));
    [destruct H|].
  split; [|split].
  - intros ->. cbn [String.eqb Ascii.eqb Bool.eqb] in H.
    rewrite slash_literal, in_single in H.
    destruct (has_cp (ch "/") (strip l)) eqn:Es.
    + left. eapply (pronunciation_headword_ok (strip l)). exact H.
    + right.
      destruct (isalpha (normalize_word (strip l))
                && (2 <=? length (strip l))
                && forallb (fun c => (c <? 256)%N) (strip l)
                && negb (existsb (cp_between 0x0600 0x06FF) (strip l)))
        eqn:E; [|destruct H].
      destruct H as [<-|[]].
      apply andb_prop in E. destruct E as [E _].
      apply andb_prop in E. destruct E as [E E3].
      apply andb_prop in E. destruct E as [E1 E2].
      apply Nat.leb_le in E2.
      exists l. repeat split; trivial.
  - intros Hr ->. apply String.eqb_neq in Hr. rewrite Hr in H.
    cbn [in_strings NON_LATIN_SCRIPTS existsb String.eqb Ascii.eqb Bool.eqb
         orb andb negb] in H.
    rewrite orb_false_r in H.
    destruct (contains_cjk (strip l)); [|destruct H].
    eapply yield_words_cjk. exact H.
  - intros Hr Hs. apply String.eqb_neq in Hr. rewrite Hr in H.
    replace (in_strings script NON_LATIN_SCRIPTS) with true in H
      by (destruct Hs as [<-|[<-|[<-|[]]]]; reflexivity).
    destruct (_ || _); [|destruct H].
    eapply yield_words_ranges; [exact Hs|exact H].
Qed.

Lemma X12_script_words_shape_witness : 2 <= length (py "дом").
Proof.
  destruct (X12_script_words_shape latin1_db POS_FILTERS corpus_dom
              "target" "cyrillic" (py "дом")) as (_ & _ & H).
  - vm_compute. left. reflexivity.
  - destruct H as (H & _).
    + discriminate.
    + right. left. reflexivity.
    + exact H.
Defined.

(* ===================================================================== *)
(** ** The pipeline sees stripped lines only *)

Lemma isspace_not_non_latin (c : cp) :
  isspace c = true -> non_latin_character c = false.
Proof.
  intros H. rewrite non_latin_character_script.
  unfold isspace in H. unfold script_of_code.
  repeat match goal with
         | |- context [if ?b then _ else _] => destruct b eqn:?
         end; try reflexivity; exfalso; ranges;
    repeat match goal with
           | H : (_ =? _)%N = true |- _ => apply N.eqb_eq in H
           end; lia.
Qed.

Lemma filter_all_false {A} (f g : A -> bool) (l : list A) :
  (forall a, g a = true -> f a = false) ->
  forallb g l = true -> filter f l = [].
Proof.
  intros H. induction l as [|a l IH]; [reflexivity|].
  cbn [forallb filter]. intros E. apply andb_prop in E. destruct E as [E1 E2].
  rewrite (H a E1). apply IH. exact E2.
Qed.

Lemma filter_non_latin_strip (l : text) :
  filter non_latin_character (strip l) = filter non_latin_character l.
Proof.
  destruct (strip_by_split isspace l) as (pre & post & E & Hp & Hq).
  fold (strip l) in E. rewrite E at 2. rewrite !filter_app.
  rewrite (filter_all_false _ _ pre isspace_not_non_latin Hp).
  rewrite (filter_all_false _ _ post isspace_not_non_latin Hq).
  rewrite app_nil_r. reflexivity.
Qed.

Lemma detect_script_strip (lines : list text) (n : Z) :
  detect_target_language_script (map strip lines) n
  = detect_target_language_script lines n.
Proof.
  rewrite <- (detect_script_filter_non_latin (map strip lines)).
  rewrite <- (detect_script_filter_non_latin lines).
  rewrite map_map. f_equal. apply map_ext. exact filter_non_latin_strip.
Qed.

Lemma has_cp_strip (c : cp) (s : text) :
  isspace c = false -> has_cp c (strip s) = has_cp c s.
Proof.
  intros Hc. destruct (has_cp c s) eqn:E.
  - apply has_cp_In. apply has_cp_In in E.
    apply strip_by_keeps; assumption.
  - apply has_cp_strip_by. exact E.
Qed.

Lemma strip_strip (s : text) : strip (strip s) = strip s.
Proof. apply strip_by_idem. Qed.

Lemma rstrip_nl_strip (s : text) : rstrip_nl (strip s) = strip s.
Proof.
  apply rstrip_by_fixed.
  pose proof (strip_by_last isspace s) as H. fold (strip s) in H.
  destruct (rev (strip s)) as [|c r]; [exact I|].
  destruct (10 =? c)%N eqn:E; [|reflexivity].
  apply newline_isspace in E. congruence.
Qed.

Ltac case_getitem_map lines i :=
  rewrite ?getitem_map;
  destruct (getitem lines i); cbn [bind]; [|reflexivity].

Section StripInvariance.
Context {U : UnicodeDB}.
Variable filters : pos_filters.
Variable lines : list text.

Local Abbreviation stripped := (map strip lines).

Lemma has_pronunciation_pos_strip :
  has_pronunciation_pos stripped = has_pronunciation_pos lines.
Proof.
  unfold has_pronunciation_pos. rewrite firstn_map.
  induction (firstn 200 lines) as [|l ls IH]; [reflexivity|].
  cbn [map existsb]. rewrite IH. f_equal.
  change (py "/") with [ ch "/" ]. change (py "<") with [ ch "<" ].
  change (py ">") with [ ch ">" ].
  rewrite !in_single, !has_cp_strip by reflexivity. reflexivity.
Qed.

Lemma detect_simple_loop_strip idxs n :
  detect_simple_loop stripped idxs n = detect_simple_loop lines idxs n.
Proof.
  revert n. induction idxs as [|i idxs IH]; intros n; [reflexivity|].
  cbn [detect_simple_loop].
  case_getitem_map lines i. case_getitem_map lines (i + 1).
  rewrite !strip_strip, !IH. reflexivity.
Qed.

Lemma detect_simple_format_strip :
  detect_simple_format stripped = detect_simple_format lines.
Proof.
  unfold detect_simple_format.
  rewrite has_pronunciation_pos_strip, length_map, detect_simple_loop_strip.
  reflexivity.
Qed.

Lemma alternating_loop_strip idxs samples :
  alternating_loop stripped idxs samples
  = alternating_loop lines idxs samples.
Proof.
  revert samples. induction idxs as [|i idxs IH]; intros samples;
    [reflexivity|].
  cbn [alternating_loop].
  case_getitem_map lines i. case_getitem_map lines (i + 1).
  rewrite !strip_strip, !IH. reflexivity.
Qed.

Lemma detect_alternating_pattern_strip :
  detect_alternating_pattern stripped = detect_alternating_pattern lines.
Proof.
  unfold detect_alternating_pattern.
  rewrite length_map, alternating_loop_strip. reflexivity.
Qed.

Lemma detect_multiline_loop_strip idxs n :
  detect_multiline_loop stripped idxs n = detect_multiline_loop lines idxs n.
Proof.
  revert n. induction idxs as [|i idxs IH]; intros n; [reflexivity|].
  cbn [detect_multiline_loop].
  case_getitem_map lines i. case_getitem_map lines (i + 1).
  case_getitem_map lines (i + 2).
  rewrite !strip_strip, !IH. reflexivity.
Qed.

Lemma detect_multiline_format_strip :
  detect_multiline_format stripped = detect_multiline_format lines.
Proof.
  unfold detect_multiline_format.
  rewrite length_map, detect_multiline_loop_strip. reflexivity.
Qed.

Lemma multiline_words_loop_strip fuel role i words :
  multiline_words_loop filters fuel stripped role i words
  = multiline_words_loop filters fuel lines role i words.
Proof.
  revert i words. induction fuel as [|fuel IH]; intros i words;
    cbn [multiline_words_loop]; rewrite length_map; [reflexivity|].
  destruct (i <? length lines - 2); [|reflexivity].
  case_getitem_map lines i. case_getitem_map lines (i + 1).
  case_getitem_map lines (i + 2).
  rewrite !strip_strip, !IH. reflexivity.
Qed.

Lemma extract_multiline_format_words_strip role :
  extract_multiline_format_words filters stripped role
  = extract_multiline_format_words filters lines role.
Proof.
  unfold extract_multiline_format_words. rewrite length_map.
  apply multiline_words_loop_strip.
Qed.

Lemma pattern_words_loop_strip role pattern idxs words :
  pattern_words_loop filters stripped role pattern idxs words
  = pattern_words_loop filters lines role pattern idxs words.
Proof.
  revert words. induction idxs as [|i idxs IH]; intros words;
    [reflexivity|].
  cbn [pattern_words_loop].
  case_getitem_map lines i. case_getitem_map lines (i + 1).
  rewrite !strip_strip, !IH. reflexivity.
Qed.

Lemma extract_words_with_pattern_detection_strip role pattern :
  extract_words_with_pattern_detection filters stripped role pattern
  = extract_words_with_pattern_detection filters lines role pattern.
Proof.
  unfold extract_words_with_pattern_detection.
  rewrite detect_multiline_format_strip, length_map.
  destruct (detect_multiline_format lines) as [[|]|]; cbn [bind];
    [apply extract_multiline_format_words_strip
    |apply pattern_words_loop_strip|reflexivity].
Qed.

Lemma header_skip_start_strip idxs :
  header_skip_start stripped idxs = header_skip_start lines idxs.
Proof.
  induction idxs as [|i idxs IH]; [reflexivity|].
  cbn [header_skip_start]. rewrite length_map.
  case_getitem_map lines i. rewrite !strip_strip, IH.
  rewrite ?getitem_map.
  destruct (getitem lines (i + 1)); cbn [bind];
    rewrite ?strip_strip; reflexivity.
Qed.

Lemma header_skip_loop_strip fuel role i words :
  header_skip_loop filters fuel stripped role i words
  = header_skip_loop filters fuel lines role i words.
Proof.
  revert i words. induction fuel as [|fuel IH]; intros i words;
    cbn [header_skip_loop]; rewrite length_map; [reflexivity|].
  destruct (i <? length lines - 1); [|reflexivity].
  case_getitem_map lines i. case_getitem_map lines (i + 1).
  rewrite !strip_strip, !IH. reflexivity.
Qed.

Lemma _extract_with_header_skip_strip role :
  _extract_with_header_skip filters stripped role
  = _extract_with_header_skip filters lines role.
Proof.
  unfold _extract_with_header_skip.
  rewrite length_map, header_skip_start_strip.
  destruct (header_skip_start lines _); cbn [bind]; [|reflexivity].
  apply header_skip_loop_strip.
Qed.

Lemma extract_words_by_script_detection_strip role script :
  extract_words_by_script_detection filters stripped role script
  = extract_words_by_script_detection filters lines role script.
Proof.
  unfold extract_words_by_script_detection.
  induction lines as [|l ls IH]; [reflexivity|].
  cbn [map flat_map]. rewrite IH. f_equal.
  unfold script_detection_line. rewrite strip_strip. reflexivity.
Qed.
End StripInvariance.

Lemma _extract_simple_format_words_strip {U : UnicodeDB}
    (filters : pos_filters) (role : string) :
  forall n ls, length ls <= n ->
  _extract_simple_format_words filters (map strip ls) role
  = _extract_simple_format_words filters ls role.
Proof.
  induction n as [|n IH]; intros ls Hn.
  - destruct ls; [reflexivity|cbn in Hn; lia].
  - destruct ls as [|l rest]; [reflexivity|].
    cbn [map _extract_simple_format_words]. cbv zeta. cbn [length] in Hn.
    rewrite strip_strip, (IH rest) by lia.
    destruct rest as [|l2 rest']; [reflexivity|].
    cbn [map hd]. rewrite strip_strip.
    rewrite (IH rest') by (cbn [length] in Hn; lia). reflexivity.
Qed.

Lemma gzip_content_strip {U : UnicodeDB} (filters : pos_filters)
    (lines : list text) (role : string) (is_dz_file : bool) :
  extract_words_from_gzip_content filters (map strip lines) role is_dz_file
  = extract_words_from_gzip_content filters lines role is_dz_file.
Proof.
  unfold extract_words_from_gzip_content. cbv zeta.
  assert (E : map rstrip_nl (map strip lines)
              = map strip (map rstrip_nl lines)).
  { rewrite !map_map. apply map_ext. intros l.
    rewrite rstrip_nl_strip, strip_rstrip_nl. reflexivity. }
  rewrite E. generalize (map rstrip_nl lines). intros ls.
  rewrite detect_script_strip, extract_words_by_script_detection_strip,
    detect_alternating_pattern_strip, detect_simple_format_strip,
    detect_multiline_format_strip, extract_multiline_format_words_strip,
    _extract_with_header_skip_strip.
  rewrite (_extract_simple_format_words_strip filters role (length ls) ls)
    by apply le_n.
  destruct (in_strings _ _); [reflexivity|].
  destruct (detect_alternating_pattern ls) as [pattern|]; [|reflexivity].
  cbn [bind]. rewrite !extract_words_with_pattern_detection_strip.
  reflexivity.
Qed.

(** X13: [extract_words_from_gzip_content] sees stripped lines only.  Two
    corpora whose lines agree once leading and trailing whitespace is
    removed give the same result, for every role and flag: indentation,
    trailing blanks and line terminators never matter. *)
Theorem X13_gzip_content_stripped_lines :
  forall (U : UnicodeDB) (filters : pos_filters) (lines1 lines2 : list text)
         (extract_language : string) (is_dz_file : bool),
  map strip lines1 = map strip lines2 ->
  extract_words_from_gzip_content filters lines1 extract_language is_dz_file
  = extract_words_from_gzip_content filters lines2 extract_language
      is_dz_file.
Proof.
  intros U filters lines1 lines2 role dz H.
  rewrite <- (gzip_content_strip filters lines1),
          <- (gzip_content_strip filters lines2), H.
  reflexivity.
Qed.

Lemma X13_gzip_content_stripped_lines_witness :
  @extract_words_from_gzip_content latin1_db POS_FILTERS
    corpus_two_lines_padded "source" false
  = @extract_words_from_gzip_content latin1_db POS_FILTERS
      corpus_two_lines "source" false.
Proof.
  apply (X13_gzip_content_stripped_lines latin1_db POS_FILTERS
           corpus_two_lines_padded corpus_two_lines "source" false).
  vm_compute. reflexivity.
Defined.

(* ===================================================================== *)
(** ** No empty word leaves the pipeline *)

Section NonEmptyWords.
Context {U : UnicodeDB}.

Lemma is_valid_word_nonempty (w : text) : is_valid_word w = true -> w <> [].
Proof. intros H ->. discriminate H. Qed.

Lemma headword_ok_nonempty (w : text) : headword_ok w -> w <> [].
Proof. intros (H & _). apply is_valid_word_nonempty. exact H. Qed.

Lemma latin1_token_nonempty (w : text) : latin1_token w -> w <> [].
Proof. intros (H & _) ->. cbn in H. lia. Qed.

Lemma alpha_word_nonempty (w : text) : alpha_word w -> w <> [].
Proof. intros (H & _) ->. discriminate H. Qed.

Variable filters : pos_filters.
Variable lines : list text.

Lemma multiline_format_words_nonempty (role : string) (words : list text) :
  extract_multiline_format_words filters lines role = Ok words ->
  Forall (fun w => w <> []) words.
Proof.
  intros H. unfold extract_multiline_format_words in H.
  eapply multiline_words_loop_shape; [| |constructor|exact H].
  - intros _ line w Hw.
    eapply headword_ok_nonempty, pronunciation_headword_ok, Hw.
  - intros _ _ line w Hw.
    apply multiline_translation_words_ok in Hw.
    apply latin1_token_nonempty, Hw.
Qed.

Lemma pattern_detection_words_nonempty (role pattern : string)
    (words : list text) :
  extract_words_with_pattern_detection filters lines role pattern
    = Ok words ->
  Forall (fun w => w <> []) words.
Proof.
  intros H. unfold extract_words_with_pattern_detection in H.
  destruct (detect_multiline_format lines) as [[|]|]; [| |discriminate];
    cbn [bind] in H.
  - eapply multiline_format_words_nonempty, H.
  - eapply pattern_words_loop_shape; [| |constructor|exact H].
    + intros _ line w Hw.
      eapply headword_ok_nonempty, pronunciation_headword_ok, Hw.
    + intros _ line w Hw.
      eapply latin1_token_nonempty, pattern_translation_words_ok, Hw.
Qed.

Lemma simple_words_nonempty_hyps (role : string) :
  ((role =? "source")%string = true ->
   forall l w, In l lines -> In w (simple_source_word filters (strip l)) ->
               w <> [])
  /\ ((role =? "source")%string = false ->
      forall l w, In w (extract_simple_translation_words (strip l)) ->
                  w <> []).
Proof.
  split.
  - intros _ l w _ Hw. apply simple_source_word_ok in Hw.
    destruct Hw as ((H & _) & _). exact H.
  - intros _ l w Hw.
    eapply alpha_word_nonempty, extract_simple_translation_words_ok, Hw.
Qed.

Lemma script_detection_words_nonempty (role script : string) :
  in_strings script [ "arabic"; "cyrillic"; "cjk"; "devanagari" ]%string
    = true ->
  Forall (fun w => w <> [])
    (extract_words_by_script_detection filters lines role script).
Proof.
  intros Hs. apply Forall_forall. intros w Hw.
  unfold extract_words_by_script_detection in Hw.
  apply in_flat_map in Hw. destruct Hw as (l & _ & H).
  unfold script_detection_line in H. cbv zeta in H.
  destruct (is_empty (strip l) || is_header_line (strip l)); [destruct H|].
  destruct (negb (should_include_word_by_pos (strip l) filters));
    [destruct H|].
  destruct (String.eqb role "source").
  - destruct (in_ (py "/") (strip l)).
    + eapply headword_ok_nonempty, (pronunciation_headword_ok (strip l)), H.
    + destruct (isalpha (normalize_word (strip l))
                && (2 <=? length (strip l))) eqn:E;
        [|rewrite ?andb_false_l in H; destruct H].
      apply andb_prop in E. destruct E as [_ E]. apply Nat.leb_le in E.
      destruct (_ && _); [|destruct H].
      destruct H as [<-|[]]. intros Hn. rewrite Hn in E. cbn in E. lia.
  - assert (Hscript : script = "cjk"%string
              \/ In script [ "arabic"; "cyrillic"; "devanagari" ]%string).
    { cbn [in_strings existsb] in Hs. rewrite orb_false_r in Hs.
      repeat (apply orb_prop in Hs; destruct Hs as [Hs|Hs]);
        apply String.eqb_eq in Hs; subst script; cbn; auto. }
    replace (in_strings script NON_LATIN_SCRIPTS) with true in H
      by (destruct Hscript as [->|[<-|[<-|[<-|[]]]]]; reflexivity).
    destruct (_ || _); [|destruct H].
    destruct Hscript as [->|Hscript].
    + apply yield_words_cjk in H. apply H.
    + apply (yield_words_ranges _ _ _ Hscript) in H.
      destruct H as (H & _). intros ->. cbn in H. lia.
Qed.
End NonEmptyWords.

Lemma gzip_content_nonempty {U : UnicodeDB} (filters : pos_filters)
    (lines : list text) (role : string) (dz : bool) (words : list text) :
  extract_words_from_gzip_content filters lines role dz = Ok words ->
  Forall (fun w : text => w <> []) words.
Proof.
  intros H.
  unfold extract_words_from_gzip_content in H. cbv zeta in H.
  revert H. generalize (map rstrip_nl lines). intros ls H.
  destruct (in_strings (detect_target_language_script ls 500) _) eqn:Es.
  { injection H as <-. apply script_detection_words_nonempty. exact Es. }
  destruct (detect_alternating_pattern ls) as [pattern|]; [|discriminate].
  cbn [bind] in H.
  destruct (in_strings pattern _).
  { destruct (dz && _);
      eapply pattern_detection_words_nonempty; exact H. }
  destruct (detect_simple_format ls) as [simple|]; [|discriminate].
  destruct (detect_multiline_format ls) as [multi|]; [|discriminate].
  cbn [bind] in H.
  destruct (simple_words_nonempty_hyps filters ls role) as [H1 H2].
  destruct simple; [|destruct multi].
  - injection H as <-.
    apply (simple_format_words_shape filters ls _ role H1 H2
             (length ls) ls (le_n _) (incl_refl _)).
  - eapply multiline_format_words_nonempty. exact H.
  - unfold _extract_with_header_skip in H.
    destruct (header_skip_start ls _) as [start|]; [|discriminate].
    cbn [bind] in H.
    eapply (header_skip_loop_shape filters ls _ role H1 H2);
      [constructor|exact H].
Qed.

(** X14: no empty word leaves the pipeline: whatever the corpus, the role
    string and the [.dz] flag, every word
    [extract_words_from_gzip_content] returns has at least one
    character. *)
Theorem X14_gzip_words_nonempty :
  forall (U : UnicodeDB) (filters : pos_filters) (lines : list text)
         (extract_language : string) (is_dz_file : bool) (words : list text),
  extract_words_from_gzip_content filters lines extract_language is_dz_file
    = Ok words ->
  Forall (fun w => 1 <= length w) words.
Proof.
  intros U filters lines role dz words H.
  eapply Forall_impl; [|exact (gzip_content_nonempty _ _ _ _ _ H)].
  intros [|c w] Hw; [congruence|cbn; lia].
Qed.

Lemma X14_gzip_words_nonempty_witness :
  Forall (fun w => 1 <= length w) [ py "abc"; py "def" ].
Proof.
  apply (X14_gzip_words_nonempty latin1_db POS_FILTERS corpus_two_lines
           "target" false).
  vm_compute. reflexivity.
Defined.

(* ===================================================================== *)
(** ** Binary index parser, further properties *)

Lemma text_eqb_refl (x : text) : text_eqb x x = true.
Proof. unfold text_eqb. destruct (list_eq_dec N.eq_dec x x); congruence. Qed.

Lemma In_mem (x : text) (xs : list text) : In x xs -> mem x xs = true.
Proof.
  intros H. unfold mem. apply existsb_exists. exists x.
  split; [exact H|apply text_eqb_refl].
Qed.

Lemma flat_map_nil {A B} (f : A -> list B) (l : list A) :
  (forall x, In x l -> f x = []) -> flat_map f l = [].
Proof.
  induction l as [|a l IH]; intros H; [reflexivity|].
  cbn [flat_map]. rewrite (H a) by (left; reflexivity).
  apply IH. intros x Hx. apply H. right. exact Hx.
Qed.

Section StarDictFurtherProofs.
Context {U : UnicodeDB}.

Lemma parsed_entries_in_bounds (dict_data : bytes) (rs : list idx_record) :
  (forall r, In r rs -> (rec_offset r < N.of_nat (length dict_data))%N) ->
  parsed_entries dict_data rs
  = map (fun r => (decode_utf8_ignore (rec_word r),
                   entry_definition dict_data r)) rs.
Proof.
  induction rs as [|r rs IH]; intros H; [reflexivity|].
  unfold parsed_entries in *. cbn [flat_map map]. unfold entry_of at 1.
  assert (Hr := H r (or_introl eq_refl)). apply N.ltb_lt in Hr.
  rewrite Hr. cbn [app]. f_equal. apply IH.
  intros x Hx. apply H. right. exact Hx.
Qed.

Lemma parsed_headwords_map (dict_data : bytes) (rs : list idx_record) :
  parsed_headwords
    (map (fun r => (decode_utf8_ignore (rec_word r),
                    entry_definition dict_data r)) rs)
  = valid_headwords rs.
Proof.
  unfold parsed_headwords, valid_headwords.
  induction rs as [|r rs IH]; [reflexivity|].
  cbn [map flat_map fst]. rewrite IH. reflexivity.
Qed.

Lemma recovered_headwords_valid (existing : list text)
    (rs : list idx_record) (w : text) :
  In w (recovered_headwords existing rs) ->
  is_valid_word w = true /\ clean_word w = w.
Proof.
  unfold recovered_headwords. intros H. apply in_flat_map in H.
  destruct H as (r & _ & H).
  destruct (is_valid_word (headword r) && _) eqn:E; [|destruct H].
  destruct H as [<-|[]]. apply andb_prop in E. destruct E as [E _].
  split; [exact E|]. apply strip_by_idem.
Qed.

Lemma parsed_headwords_valid (entries : list (text * text)) (w : text) :
  In w (parsed_headwords entries) ->
  is_valid_word w = true /\ clean_word w = w.
Proof.
  unfold parsed_headwords. intros H. apply in_flat_map in H.
  destruct H as (e & _ & H).
  destruct (is_valid_word (clean_word (fst e))) eqn:E; [|destruct H].
  destruct H as [<-|[]]. split; [exact E|]. apply strip_by_idem.
Qed.
End StarDictFurtherProofs.

(** X15: on every index buffer and data buffer and for every role string
    [extract_words_from_stardict] returns a pair [(words, recovered_count)]
    in which every word passes [is_valid_word] and has no punctuation at
    its ends, and [recovered_count] is at most the number of words; for
    every role other than ['source'] the pair is [([], 0)]. *)
Theorem X15_stardict_any_buffers :
  forall (U : UnicodeDB) (idx_data dict_data : bytes)
         (extract_language : string),
  exists words recovered_count,
    extract_words_from_stardict idx_data dict_data extract_language
    = Ok (words, recovered_count)
    /\ recovered_count <= length words
    /\ Forall (fun w => is_valid_word w = true /\ clean_word w = w) words
    /\ (extract_language <> "source"%string ->
        words = [] /\ recovered_count = 0).
Proof.
  intros U idx_data dict_data role.
  destruct (String.eqb_spec role "source") as [->|Hr].
  - destruct (index_decomposes idx_data) as (rs & tail & Hwf & Ht & ->).
    pose proof (stardict_source_encoded rs tail dict_data Hwf Ht) as H.
    cbv zeta in H. rewrite H.
    eexists. eexists. split; [reflexivity|].
    split; [rewrite length_app; lia|]. split; [|congruence].
    apply Forall_app. split; apply Forall_forall; intros w Hw.
    + destruct (_ <? _); [|destruct Hw].
      eapply recovered_headwords_valid, Hw.
    + eapply parsed_headwords_valid, Hw.
  - apply String.eqb_neq in Hr.
    exists [], 0. split; [|repeat split; trivial].
    unfold extract_words_from_stardict.
    destruct (parse_index_loop_total dict_data idx_data (length idx_data)
                0 []) as [[pos entries] Hp]; [lia|].
    rewrite Hp. cbn [bind].
    destruct (length entries <? pos / 12).
    + rewrite recover_index_loop_other by (trivial; lia).
      cbn [bind]. rewrite entry_words_other by exact Hr. reflexivity.
    + cbn [bind]. rewrite entry_words_other by exact Hr. reflexivity.
Qed.

Lemma X15_stardict_any_buffers_witness :
  exists words recovered_count,
    @extract_words_from_stardict latin1_db (encode_index records_example)
      dict_example "definitions"
    = Ok (words, recovered_count)
    /\ words = [] /\ recovered_count = 0.
Proof.
  destruct (X15_stardict_any_buffers latin1_db
              (encode_index records_example) dict_example "definitions")
    as (words & n & H & _ & _ & Hn).
  exists words, n. split; [exact H|]. apply Hn. discriminate.
Defined.

(** X16: when every record of a well-formed index points into the data
    buffer, the source role returns exactly the valid cleaned headwords of
    the records, in index order, and counts none as recovered, whether or
    not the size estimate starts the second pass over the index. *)
Theorem X16_stardict_offsets_in_bounds :
  forall (U : UnicodeDB) (rs : list idx_record) (tail dict_data : bytes),
  Forall wf_record rs -> incomplete_tail tail ->
  (forall r, In r rs -> (rec_offset r < N.of_nat (length dict_data))%N) ->
  extract_words_from_stardict (encode_index rs ++ tail) dict_data "source"
  = Ok (valid_headwords rs, 0).
Proof.
  intros U rs tail dict_data Hwf Ht Hb.
  pose proof (stardict_source_encoded rs tail dict_data Hwf Ht) as H.
  cbv zeta in H. rewrite H.
  rewrite (parsed_entries_in_bounds dict_data rs Hb), parsed_headwords_map.
  assert (E : recovered_headwords
                (map fst
                   (map (fun r => (decode_utf8_ignore (rec_word r),
                                   entry_definition dict_data r)) rs)) rs
              = []).
  { apply flat_map_nil. intros r Hr.
    rewrite (In_mem (decode_utf8_ignore (rec_word r))).
    - rewrite andb_false_r. reflexivity.
    - rewrite map_map. cbn [fst].
      apply (in_map (fun r => decode_utf8_ignore (rec_word r))). exact Hr. }
  rewrite E. destruct (length (map _ rs) <? _); reflexivity.
Qed.

Lemma X16_stardict_offsets_in_bounds_witness :
  (length (parsed_entries dict_example records_long)
   <? length (encode_index records_long) / 12) = true
  /\ @extract_words_from_stardict latin1_db (encode_index records_long)
       dict_example "source"
     = Ok ([ py "extraordinarily" ], 0).
Proof.
  split; [reflexivity|].
  rewrite <- (app_nil_r (encode_index records_long)).
  apply (X16_stardict_offsets_in_bounds latin1_db records_long []
           dict_example).
  - repeat constructor; cbn;
      try (intros H; repeat (destruct H as [H|H]; try discriminate H);
           exact H);
      reflexivity.
  - exact I.
  - intros r [<-|[]]. reflexivity.
Defined.

(* ===================================================================== *)
(** ** Saving a wordlist *)

Lemma text_ltb_irrefl (a : text) : text_ltb a a = false.
Proof.
  induction a as [|x a IH]; [reflexivity|].
  cbn [text_ltb]. rewrite N.ltb_irrefl, N.eqb_refl, IH. reflexivity.
Qed.

Lemma text_ltb_cons (x y : cp) (a b : text) :
  text_ltb (x :: a) (y :: b) = true
  <-> (x < y)%N \/ (x = y /\ text_ltb a b = true).
Proof.
  cbn [text_ltb].
  rewrite orb_true_iff, andb_true_iff, N.ltb_lt, N.eqb_eq. reflexivity.
Qed.

Lemma text_ltb_trans (a : text) :
  forall b c, text_ltb a b = true -> text_ltb b c = true ->
              text_ltb a c = true.
Proof.
  induction a as [|x a IH]; intros [|y b] [|z c] H1 H2;
    try discriminate; try reflexivity.
  apply text_ltb_cons in H1. apply text_ltb_cons in H2.
  apply text_ltb_cons.
  destruct H1 as [H1|[-> H1]], H2 as [H2|[-> H2]].
  - left. lia.
  - left. exact H1.
  - left. exact H2.
  - right. split; [reflexivity|]. eapply IH; eassumption.
Qed.

Lemma text_ltb_total (a : text) :
  forall b, a <> b -> text_ltb a b = true \/ text_ltb b a = true.
Proof.
  induction a as [|x a IH]; intros [|y b] H.
  - congruence.
  - left. reflexivity.
  - right. reflexivity.
  - rewrite !text_ltb_cons.
    destruct (N.lt_trichotomy x y) as [Hxy|[->|Hxy]].
    + left. left. exact Hxy.
    + destruct (IH b) as [Hab|Hab]; [congruence| |].
      * left. right. split; [reflexivity|exact Hab].
      * right. right. split; [reflexivity|exact Hab].
    + right. left. exact Hxy.
Qed.

Lemma text_ltb_asym (a b : text) :
  text_ltb a b = true -> text_ltb b a = true -> False.
Proof.
  intros H1 H2. pose proof (text_ltb_trans _ _ _ H1 H2) as H.
  rewrite text_ltb_irrefl in H. discriminate.
Qed.

Lemma insert_sorted_In (w x : text) (ws : list text) :
  In x (insert_sorted w ws) <-> x = w \/ In x ws.
Proof.
  induction ws as [|v ws IH]; cbn [insert_sorted].
  - cbn. intuition congruence.
  - destruct (text_ltb v w); cbn [In]; [rewrite IH|];
      intuition congruence.
Qed.

Lemma insert_sorted_length (w : text) (ws : list text) :
  length (insert_sorted w ws) = S (length ws).
Proof.
  induction ws as [|v ws IH]; [reflexivity|]. cbn [insert_sorted].
  destruct (text_ltb v w); cbn [length]; [rewrite IH|]; reflexivity.
Qed.

Lemma insert_sorted_increasing (w : text) (ws : list text) :
  increasing ws -> ~ In w ws -> increasing (insert_sorted w ws).
Proof.
  induction ws as [|v ws IH]; intros Hi Hn.
  - cbn. split; [intros ? []|exact I].
  - cbn [insert_sorted]. destruct Hi as [Hv Hi].
    destruct (text_ltb v w) eqn:E.
    + split.
      * intros x Hx. apply insert_sorted_In in Hx.
        destruct Hx as [->|Hx]; [exact E|apply Hv, Hx].
      * apply IH; [exact Hi|]. intros H. apply Hn. right. exact H.
    + assert (Hwv : text_ltb w v = true).
      { destruct (text_ltb_total w v) as [H|H]; [|exact H|congruence].
        intros ->. apply Hn. left. reflexivity. }
      split; [|split; assumption].
      intros x [<-|Hx]; [exact Hwv|].
      eapply text_ltb_trans; [exact Hwv|apply Hv, Hx].
Qed.

Lemma sorted_In (x : text) (ws : list text) :
  In x (sorted ws) <-> In x ws.
Proof.
  induction ws as [|w ws IH]; [reflexivity|].
  cbn [sorted In]. rewrite insert_sorted_In, IH. intuition congruence.
Qed.

Lemma sorted_length (ws : list text) : length (sorted ws) = length ws.
Proof.
  induction ws as [|w ws IH]; [reflexivity|].
  cbn [sorted length]. rewrite insert_sorted_length, IH. reflexivity.
Qed.

Lemma sorted_increasing (ws : list text) :
  NoDup ws -> increasing (sorted ws).
Proof.
  induction 1 as [|w ws Hn Hd IH]; [exact I|].
  cbn [sorted]. apply insert_sorted_increasing; [exact IH|].
  rewrite sorted_In. exact Hn.
Qed.

Lemma increasing_unique (l1 : list text) :
  forall l2, increasing l1 -> increasing l2 ->
  (forall w, In w l1 <-> In w l2) -> l1 = l2.
Proof.
  induction l1 as [|a l1 IH]; intros [|b l2] H1 H2 H.
  - reflexivity.
  - destruct (proj2 (H b) (or_introl eq_refl)).
  - destruct (proj1 (H a) (or_introl eq_refl)).
  - destruct H1 as [Ha H1], H2 as [Hb H2].
    assert (E : a = b).
    { destruct (proj1 (H a) (or_introl eq_refl)) as [E|Hin];
        [congruence|].
      destruct (proj2 (H b) (or_introl eq_refl)) as [E|Hin'];
        [exact E|].
      exfalso. eapply text_ltb_asym; [apply Ha, Hin'|apply Hb, Hin]. }
    subst b. f_equal. apply IH; trivial.
    intros w. split; intros Hw.
    + destruct (proj1 (H w) (or_intror Hw)) as [<-|Hin]; [|exact Hin].
      specialize (Ha _ Hw). rewrite text_ltb_irrefl in Ha. discriminate.
    + destruct (proj2 (H w) (or_intror Hw)) as [<-|Hin]; [|exact Hin].
      specialize (Hb _ Hw). rewrite text_ltb_irrefl in Hb. discriminate.
Qed.

Lemma py_set_length (words : list text) :
  length (py_set words) <= length words.
Proof.
  unfold py_set. induction words as [|w ws IH]; [apply le_n|].
  cbn [nodup]. destruct (in_dec (list_eq_dec N.eq_dec) w ws);
    cbn [length]; lia.
Qed.

Lemma split_on_single (c : cp) (w : text) :
  has_cp c w = false -> split_on c w = [ w ].
Proof.
  induction w as [|d w IH]; intros H; [reflexivity|].
  cbn in H. apply orb_false_iff in H. destruct H as [H1 H2].
  cbn [split_on]. rewrite N.eqb_sym, H1, (IH H2). reflexivity.
Qed.

Lemma split_on_app (c : cp) (w rest : text) :
  has_cp c w = false ->
  split_on c (w ++ c :: rest) = w :: split_on c rest.
Proof.
  induction w as [|d w IH]; intros H.
  - cbn [app split_on]. rewrite N.eqb_refl. reflexivity.
  - cbn in H. apply orb_false_iff in H. destruct H as [H1 H2].
    cbn [app split_on]. rewrite N.eqb_sym, H1, (IH H2). reflexivity.
Qed.

Lemma split_join_lines (ws : list text) :
  ws <> [] -> (forall w, In w ws -> has_cp 10%N w = false) ->
  split_on 10%N (join_lines ws) = ws.
Proof.
  induction ws as [|w ws IH]; intros Hne H; [congruence|].
  destruct ws as [|v ws].
  - cbn [join_lines]. apply split_on_single, H. left. reflexivity.
  - change (join_lines (w :: v :: ws))
      with (w ++ 10%N :: join_lines (v :: ws)).
    rewrite split_on_app by (apply H; left; reflexivity).
    f_equal. apply IH; [discriminate|].
    intros x Hx. apply H. right. exact Hx.
Qed.

Lemma save_wordlist_unique (words : list text) :
  words <> [] ->
  save_wordlist words
  = (Some (join_lines (sorted (py_set words))),
     length (sorted (py_set words))).
Proof. destruct words; [congruence|reflexivity]. Qed.

Lemma save_wordlist_spec :
  forall (words : list text),
  words <> [] ->
  exists unique_words,
    save_wordlist words
    = (Some (join_lines unique_words), length unique_words)
    /\ increasing unique_words
    /\ NoDup unique_words
    /\ (forall w, In w unique_words <-> In w words)
    /\ 1 <= length unique_words <= length words
    /\ ((forall w, In w words -> has_cp 10%N w = false) ->
        split_on 10%N (join_lines unique_words) = unique_words).
Proof.
  intros words Hne. exists (sorted (py_set words)).
  assert (HIn : forall w, In w (sorted (py_set words)) <-> In w words).
  { intros w. rewrite sorted_In. unfold py_set. apply nodup_In. }
  assert (Hinc : increasing (sorted (py_set words)))
    by (apply sorted_increasing, NoDup_nodup).
  assert (Hlen : 1 <= length (sorted (py_set words))).
  { destruct words as [|w ws]; [congruence|].
    pose proof (proj2 (HIn w) (or_introl eq_refl)) as H.
    destruct (sorted (py_set (w :: ws))); [destruct H|cbn; lia]. }
  split; [apply save_wordlist_unique, Hne|].
  split; [exact Hinc|]. split; [|split; [exact HIn|split]].
  - clear - Hinc. induction (sorted (py_set words)) as [|a l IH];
      constructor.
    + intros Hin. destruct Hinc as [Ha _]. specialize (Ha _ Hin).
      rewrite text_ltb_irrefl in Ha. discriminate.
    + apply IH. apply Hinc.
  - split; [exact Hlen|]. rewrite sorted_length. apply py_set_length.
  - intros Hnl. apply split_join_lines.
    + intros E. rewrite E in Hlen. cbn in Hlen. lia.
    + intros w Hw. apply Hnl, HIn, Hw.
Qed.

Lemma join_lines_In (c : cp) (ws : list text) :
  In c (join_lines ws) -> c = 10%N \/ exists w, In w ws /\ In c w.
Proof.
  induction ws as [|w ws IH]; [intros []|].
  destruct ws as [|v ws].
  - cbn [join_lines]. intros H. right. exists w.
    split; [left; reflexivity|exact H].
  - change (join_lines (w :: v :: ws))
      with (w ++ 10%N :: join_lines (v :: ws)).
    intros H. apply in_app_or in H. destruct H as [H|[H|H]].
    + right. exists w. split; [left; reflexivity|exact H].
    + left. symmetry. exact H.
    + destruct (IH H) as [E|(x & Hx & Hc)]; [left; exact E|].
      right. exists x. split; [right; exact Hx|exact Hc].
Qed.

(** X17: for a non-empty list of words that UTF-8 encodes (no word holds a
    surrogate code point) [save_wordlist] writes the distinct words of the
    list, one per line, in strictly increasing order of code points, and
    returns their number, which is at least 1 and at most the length of the
    list; the text written is itself encodable, and when no word holds a
    newline, splitting it at newlines gives the distinct words back. *)
Theorem X17_save_wordlist_sorted_unique :
  forall (words : list text),
  words <> [] ->
  (forall w, In w words -> utf8_encodable w = true) ->
  exists unique_words,
    save_wordlist words
    = (Some (join_lines unique_words), length unique_words)
    /\ increasing unique_words
    /\ NoDup unique_words
    /\ (forall w, In w unique_words <-> In w words)
    /\ 1 <= length unique_words <= length words
    /\ utf8_encodable (join_lines unique_words) = true
    /\ ((forall w, In w words -> has_cp 10%N w = false) ->
        split_on 10%N (join_lines unique_words) = unique_words).
Proof.
  intros words Hne Henc.
  destruct (save_wordlist_spec words Hne)
    as (u & Hs & Hinc & Hnd & HIn & Hlen & Hsp).
  exists u. repeat split; trivial; try apply HIn; try apply Hlen.
  apply forallb_forall. intros c Hc.
  destruct (join_lines_In c u Hc) as [->|(w & Hw & Hcw)]; [reflexivity|].
  apply HIn in Hw. specialize (Henc w Hw). unfold utf8_encodable in Henc.
  rewrite forallb_forall in Henc. apply Henc, Hcw.
Qed.

Lemma X17_save_wordlist_sorted_unique_witness :
  exists unique_words,
    save_wordlist [ py "b"; py "a"; py "b" ]
    = (Some (join_lines unique_words), length unique_words)
    /\ increasing unique_words
    /\ utf8_encodable (join_lines unique_words) = true
    /\ split_on 10%N (join_lines unique_words) = unique_words.
Proof.
  destruct (X17_save_wordlist_sorted_unique [ py "b"; py "a"; py "b" ])
    as (u & H & Hi & _ & _ & _ & He & Hs).
  - discriminate.
  - intros w Hw.
    repeat (destruct Hw as [<-|Hw]; [reflexivity|]). destruct Hw.
  - exists u. split; [exact H|]. split; [exact Hi|]. split; [exact He|].
    apply Hs. intros w Hw.
    repeat (destruct Hw as [<-|Hw]; [reflexivity|]). destruct Hw.
Defined.

(** X18: what [save_wordlist] writes and returns depends only on the set
    of words: two lists with the same elements, in whatever order and with
    whatever repetitions, give the same file and the same count. *)
Theorem X18_save_wordlist_set :
  forall (words1 words2 : list text),
  (forall w, In w words1 <-> In w words2) ->
  save_wordlist words1 = save_wordlist words2.
Proof.
  intros ws1 ws2 H.
  destruct ws1 as [|a ws1], ws2 as [|b ws2].
  - reflexivity.
  - destruct (proj2 (H b) (or_introl eq_refl)).
  - destruct (proj1 (H a) (or_introl eq_refl)).
  - rewrite !save_wordlist_unique by discriminate.
    assert (E : sorted (py_set (a :: ws1)) = sorted (py_set (b :: ws2))).
    { apply increasing_unique;
        try (apply sorted_increasing, NoDup_nodup).
      intros w. rewrite !sorted_In. unfold py_set. rewrite !nodup_In.
      apply H. }
    rewrite E. reflexivity.
Qed.

Lemma X18_save_wordlist_set_witness :
  save_wordlist [ py "b"; py "a"; py "b" ] = save_wordlist [ py "a"; py "b" ].
Proof.
  apply X18_save_wordlist_set. intros w. cbn [In]. intuition.
Defined.

(* ===================================================================== *)
(** ** File names and language names *)

Lemma split_on_nonempty (c : cp) (s : text) : split_on c s <> [].
Proof.
  induction s as [|d s IH]; [discriminate|]. cbn [split_on].
  destruct (d =? c)%N; [discriminate|].
  destruct (split_on c s); [contradiction|discriminate].
Qed.

Lemma split_on_fields (c : cp) (s : text) :
  forall f, In f (split_on c s) -> has_cp c f = false.
Proof.
  induction s as [|d s IH]; intros f Hf.
  - destruct Hf as [<-|[]]. reflexivity.
  - cbn [split_on] in Hf. destruct (d =? c)%N eqn:E.
    + destruct Hf as [<-|Hf]; [reflexivity|apply IH, Hf].
    + destruct (split_on c s) as [|g gs] eqn:Es.
      * destruct Hf as [<-|[]]. cbn. rewrite N.eqb_sym, E. reflexivity.
      * destruct Hf as [<-|Hf].
        -- cbn. rewrite N.eqb_sym, E. cbn [orb].
           apply IH. left. reflexivity.
        -- apply IH. right. exact Hf.
Qed.

Lemma last_In_or_default {A} (l : list A) (d : A) :
  last l d = d \/ In (last l d) l.
Proof.
  induction l as [|a l IH]; [left; reflexivity|].
  destruct l as [|b l]; [right; left; reflexivity|].
  change (last (a :: b :: l) d) with (last (b :: l) d).
  destruct IH as [IH|IH]; [left; exact IH|right; right; exact IH].
Qed.

Lemma path_name_no_slash (s : text) : has_cp (ch "/") (path_name s) = false.
Proof.
  unfold path_name.
  destruct (last_In_or_default
              (filter (fun x => negb (is_empty x)
                                && negb (text_eqb x (py ".")))
                 (split_on (ch "/") s)) []) as [->|H]; [reflexivity|].
  apply filter_In in H. destruct H as [H _].
  eapply split_on_fields. exact H.
Qed.

Lemma split_head_In (c x : cp) (s : text) :
  In x (split_head c s) -> In x s.
Proof.
  induction s as [|d s IH]; [intros []|]. cbn [split_head].
  destruct (d =? c)%N; [intros []|].
  intros [<-|H]; [left; reflexivity|right; apply IH, H].
Qed.

Lemma has_cp_false_In (c : cp) (s : text) :
  has_cp c s = false <-> ~ In c s.
Proof.
  rewrite <- has_cp_In. destruct (has_cp c s); split; congruence.
Qed.

Lemma rfind_none (c : cp) (s : text) :
  has_cp c s = false -> rfind c s = None.
Proof.
  induction s as [|d s IH]; [reflexivity|]. intros H.
  cbn in H. apply orb_false_iff in H. destruct H as [H1 H2].
  cbn [rfind]. rewrite (IH H2), N.eqb_sym, H1. reflexivity.
Qed.

Lemma path_name_plain (s : text) :
  has_cp (ch "/") s = false -> has_cp (ch ".") s = false ->
  path_name s = s.
Proof.
  intros H1 H2. unfold path_name. rewrite (split_on_single _ _ H1).
  cbn [filter]. destruct s as [|c s]; [reflexivity|].
  cbn [is_empty negb andb].
  destruct (text_eqb (c :: s) (py ".")) eqn:E; [|reflexivity].
  unfold text_eqb in E.
  destruct (list_eq_dec N.eq_dec (c :: s) (py ".")) as [E'|]; [|discriminate].
  rewrite E' in H2. discriminate H2.
Qed.

Lemma path_stem_plain (s : text) :
  has_cp (ch "/") s = false -> has_cp (ch ".") s = false ->
  path_stem s = s.
Proof.
  intros H1 H2. unfold path_stem. rewrite (path_name_plain s H1 H2).
  rewrite (rfind_none _ _ H2). reflexivity.
Qed.

Lemma starts_with_In (p s : text) (c : cp) :
  starts_with p s = true -> In c p -> In c s.
Proof.
  revert s. induction p as [|x p IH]; intros s H Hc; [destruct Hc|].
  destruct s as [|y s]; [discriminate|]. cbn [starts_with] in H.
  apply andb_prop in H. destruct H as [H1 H2].
  apply N.eqb_eq in H1. subst y.
  destruct Hc as [<-|Hc]; [left; reflexivity|right; eapply IH; eauto].
Qed.

Lemma ends_with_In (p s : text) (c : cp) :
  ends_with p s = true -> In c p -> In c s.
Proof.
  unfold ends_with. intros H Hc. apply in_rev.
  eapply starts_with_In; [exact H|]. apply in_rev in Hc. exact Hc.
Qed.

Section LanguageNameProofs.
Context {U : UnicodeDB}.

Lemma first_two_parts_total (parts : list text) :
  parts <> [] -> exists r, first_two_parts parts = Ok r.
Proof.
  intros H. unfold first_two_parts.
  destruct parts as [|p0 [|p1 parts]]; [congruence| |];
    cbn; eexists; reflexivity.
Qed.

Lemma get_language_mapping_total (name_or_code : text) :
  exists r, get_language_mapping name_or_code = Ok r.
Proof.
  unfold get_language_mapping. cbv zeta.
  destruct (ends_with (py ".dict.dz") name_or_code).
  - destruct (first_two_parts_total
                (split_on (ch "-") (path_stem (path_stem name_or_code)))
                (split_on_nonempty _ _)) as [r ->].
    cbn [bind]. eexists. reflexivity.
  - destruct (first_codes _ []) as [|a [|b [|c l]]];
      try (destruct (first_two_parts_total
                       (split_on (ch "-") (path_stem name_or_code))
                       (split_on_nonempty _ _)) as [r ->]);
      cbn [bind]; eexists; reflexivity.
Qed.

Lemma get_language_mapping_plain (base : text) :
  has_cp (ch "/") base = false -> has_cp (ch ".") base = false ->
  has_cp (ch "-") base = false ->
  get_language_mapping base
  = Ok (language_name (lower base), language_name (lower base)).
Proof.
  intros H1 H2 H3. unfold get_language_mapping. cbv zeta.
  assert (E : ends_with (py ".dict.dz") base = false).
  { destruct (ends_with (py ".dict.dz") base) eqn:E; [|reflexivity].
    apply has_cp_false_In in H2. exfalso. apply H2.
    eapply ends_with_In; [exact E|]. left. reflexivity. }
  rewrite E, (path_stem_plain base H1 H2), (split_on_single _ _ H3).
  cbn [first_codes]. destruct (length base =? 3); reflexivity.
Qed.
End LanguageNameProofs.

(** X19: [get_language_mapping] never raises, and
    [determine_wordlist_filenames] returns the two names
    [<target language>_<base>.txt] and [<source language>_<base>.txt],
    where [base] is the file name up to its first dot and holds neither a
    dot nor a slash.  When [base] holds no dash, both languages are the
    name of the lower-cased [base], so the two file names are the same. *)
Theorem X19_wordlist_filenames :
  forall (U : UnicodeDB) (dict_path : text),
  (forall name_or_code, exists r, get_language_mapping name_or_code = Ok r)
  /\ let base := split_head (ch ".") (path_name dict_path) in
     has_cp (ch ".") base = false /\ has_cp (ch "/") base = false
     /\ exists src_lang tgt_lang,
          get_language_mapping base = Ok (src_lang, tgt_lang)
          /\ determine_wordlist_filenames dict_path
             = Ok (tgt_lang ++ py "_" ++ base ++ py ".txt",
                   src_lang ++ py "_" ++ base ++ py ".txt")
          /\ (has_cp (ch "-") base = false ->
              src_lang = language_name (lower base)
              /\ tgt_lang = src_lang
              /\ exists fname,
                   determine_wordlist_filenames dict_path
                   = Ok (fname, fname)).
Proof.
  intros U dict_path. split; [exact get_language_mapping_total|].
  cbv zeta. set (base := split_head (ch ".") (path_name dict_path)).
  assert (H2 : has_cp (ch ".") base = false) by apply split_head_free.
  assert (H1 : has_cp (ch "/") base = false).
  { apply has_cp_false_In. intros H. apply split_head_In in H.
    apply has_cp_In in H. rewrite path_name_no_slash in H. discriminate. }
  split; [exact H2|]. split; [exact H1|].
  destruct (get_language_mapping_total base) as [[src_lang tgt_lang] Hm].
  exists src_lang, tgt_lang. split; [exact Hm|].
  assert (Hd : determine_wordlist_filenames dict_path
               = Ok (tgt_lang ++ py "_" ++ base ++ py ".txt",
                     src_lang ++ py "_" ++ base ++ py ".txt")).
  { unfold determine_wordlist_filenames. cbv zeta. fold base.
    rewrite Hm. reflexivity. }
  split; [exact Hd|].
  intros H3. rewrite (get_language_mapping_plain base H1 H2 H3) in Hm.
  injection Hm as <- <-. repeat split. eexists. exact Hd.
Qed.

Lemma X19_wordlist_filenames_witness :
  exists fname,
    @determine_wordlist_filenames latin1_db (py "data/words.txt.gz")
    = Ok (fname, fname).
Proof.
  destruct (X19_wordlist_filenames latin1_db (py "data/words.txt.gz"))
    as (_ & _ & _ & src_lang & tgt_lang & _ & _ & H).
  destruct H as (_ & _ & H); [reflexivity|exact H].
Defined.

(* ===================================================================== *)
(** ** Structured markup *)

Lemma element_nested_ind (P : element -> Prop) :
  (forall tag txt children,
     Forall P children -> P (Element tag txt children)) ->
  forall e, P e.
Proof.
  intros H. fix IH 1. intros [tag txt children]. apply H.
  induction children as [|c cs IHc]; constructor; [apply IH|exact IHc].
Qed.

(** A descendant of a descendant is a descendant. *)
Lemma element_iter_trans (root : element) :
  forall entry e,
  In entry (element_iter root) -> In e (element_iter entry) ->
  In e (element_iter root).
Proof.
  induction root as [tag txt children IH] using element_nested_ind.
  intros entry e He Hin. cbn [element_iter] in He.
  destruct He as [<-|He]; [exact Hin|].
  cbn [element_iter]. right. apply in_flat_map.
  apply in_flat_map in He. destruct He as (c & Hc & He).
  exists c. split; [exact Hc|].
  rewrite Forall_forall in IH. eapply IH; eassumption.
Qed.

Section MarkupProofs.
Context {U : UnicodeDB}.

Lemma tei_entry_words_spec (role : string) (entry : element) (w : text) :
  In w (tei_entry_words role entry) ->
  exists e t,
    In e (element_iter entry) /\ element_text e = Some t /\ t <> []
    /\ w = strip t
    /\ (role = "source"%string ->
        has_local_name (py "orth") e = true /\ is_valid_word w = true)
    /\ (role <> "source"%string ->
        has_local_name (py "quote") e = true /\ isalpha w = true).
Proof.
  unfold tei_entry_words. intros H.
  destruct (String.eqb_spec role "source") as [->|Hr];
    apply in_flat_map in H; destruct H as (e & He & H);
    destruct (element_text e) as [t|] eqn:Et; try destruct H;
    exists e, t.
  - destruct (has_local_name (py "orth") e && negb (is_empty t)) eqn:E;
      [|destruct H].
    apply andb_prop in E. destruct E as [E1 E2].
    destruct (is_valid_word (strip t)) eqn:Ev; [|destruct H].
    destruct H as [<-|[]].
    repeat split; trivial; try congruence.
    intros ->. discriminate.
  - destruct (has_local_name (py "quote") e && negb (is_empty t)) eqn:E;
      [|destruct H].
    apply andb_prop in E. destruct E as [E1 E2].
    destruct (isalpha (strip t)) eqn:Ev; [|destruct H].
    destruct H as [<-|[]].
    repeat split; trivial; try congruence.
    intros ->. discriminate.
Qed.

Lemma tei_entry_words_role (role : string) (entry : element) :
  role <> "source"%string ->
  tei_entry_words role entry = tei_entry_words "target" entry.
Proof.
  intros H. apply String.eqb_neq in H. unfold tei_entry_words.
  rewrite H. reflexivity.
Qed.
End MarkupProofs.

(** X20: every word [extract_words_from_tei_xml] returns is the stripped,
    non-empty text of an element of the document that lies in an element
    named [entry]: for the source role an element named [orth] whose
    stripped text passes [is_valid_word], for any other role an element
    named [quote] whose stripped text is alphabetic.  Every role string
    other than ['source'] gives what ['target'] gives, and input that does
    not parse gives no words. *)
Theorem X20_tei_words :
  forall (U : UnicodeDB) (parsed : option element)
         (extract_language : string),
  (forall w,
     In w (extract_words_from_tei_xml parsed extract_language) ->
     exists root entry e t,
       parsed = Some root
       /\ In entry (element_iter root)
       /\ has_local_name (py "entry") entry = true
       /\ In e (element_iter entry) /\ In e (element_iter root)
       /\ element_text e = Some t /\ t <> [] /\ w = strip t
       /\ (extract_language = "source"%string ->
           has_local_name (py "orth") e = true /\ is_valid_word w = true)
       /\ (extract_language <> "source"%string ->
           has_local_name (py "quote") e = true /\ isalpha w = true))
  /\ (extract_language <> "source"%string ->
      extract_words_from_tei_xml parsed extract_language
      = extract_words_from_tei_xml parsed "target")
  /\ extract_words_from_tei_xml None extract_language = [].
Proof.
  intros U parsed role. split; [|split; [|reflexivity]].
  - intros w H. destruct parsed as [root|]; [|destruct H].
    cbn [extract_words_from_tei_xml] in H.
    apply in_flat_map in H. destruct H as (entry & Hentry & H).
    destruct (has_local_name (py "entry") entry) eqn:En; [|destruct H].
    apply tei_entry_words_spec in H.
    destruct H as (e & t & He & Ht & Hne & Hw & Hs & Ho).
    exists root, entry, e, t. repeat split; trivial;
      try (apply Hs; assumption); try (apply Ho; assumption).
    eapply element_iter_trans; eassumption.
  - intros Hr. destruct parsed as [root|]; [|reflexivity].
    cbn [extract_words_from_tei_xml].
    induction (element_iter root) as [|x l IH]; [reflexivity|].
    cbn [flat_map]. rewrite IH.
    rewrite (tei_entry_words_role role x Hr). reflexivity.
Qed.

Lemma X20_tei_words_witness :
  @is_valid_word latin1_db (py "casa") = true.
Proof.
  destruct (X20_tei_words latin1_db (Some tei_example) "source")
    as (H & _).
  destruct (H (py "casa")) as (root & entry & e & t & _ & _ & _ & _ & _
                               & _ & _ & _ & Hs & _).
  - vm_compute. left. reflexivity.
  - apply Hs. reflexivity.
Defined.

(* ===================================================================== *)
(** ** Translation helpers *)

Lemma translate_In (t : text) (c : cp) :
  In c (translate t) -> isspace c = false ->
  In c t /\ has_cp c (py ",،、~") = false.
Proof.
  unfold translate. intros H Hs. apply in_map_iff in H.
  destruct H as (d & Hd & Hin). unfold translate_map in Hd.
  destruct (has_cp d (py ",،、~")) eqn:E.
  - subst c. discriminate Hs.
  - subst d. split; assumption.
Qed.

Lemma translated_word_chars (s word : text) (c : cp) :
  In word (split_ws (translate s)) -> In c (clean_word word) ->
  In c s /\ isspace c = false /\ has_cp c (py ",،、~") = false.
Proof.
  intros Hw Hc. apply strip_by_In in Hc.
  destruct (split_ws_fields _ _ Hw) as [_ Hf].
  destruct (Hf c Hc) as [Hin Hsp].
  destruct (translate_In _ _ Hin Hsp) as [H1 H2]. auto.
Qed.

Lemma existsb_nonempty {A} (f : A -> bool) (l : list A) :
  existsb f l = true -> l <> [].
Proof. intros H ->. discriminate. Qed.

Section TranslationProofs.
Context {U : UnicodeDB}.

Lemma extract_script_specific_words_spec (s : text) (script : string)
    (w : text) :
  In w (extract_script_specific_words s script) ->
  w <> [] /\ clean_word w = w
  /\ (forall c, In c w ->
        In c s /\ isspace c = false /\ has_cp c (py ",،、~") = false)
  /\ (if in_strings script CJK_SCRIPT_NAMES then contains_cjk w
      else contains_script w script) = true.
Proof.
  unfold extract_script_specific_words. cbv zeta. intros H.
  apply in_flat_map in H. destruct H as (word & Hw & H).
  assert (Hc : forall c, In c (clean_word word) ->
                 In c s /\ isspace c = false
                 /\ has_cp c (py ",،、~") = false)
    by (intros c; apply translated_word_chars; exact Hw).
  destruct (in_strings script CJK_SCRIPT_NAMES).
  - destruct (contains_cjk (clean_word word)) eqn:E; [|destruct H].
    destruct H as [<-|[]]. repeat split; trivial; try apply Hc; trivial.
    + eapply existsb_nonempty. exact E.
    + apply strip_by_idem.
  - destruct (contains_script (clean_word word) script) eqn:E;
      [|destruct H].
    destruct H as [<-|[]]. repeat split; trivial; try apply Hc; trivial.
    + eapply existsb_nonempty. exact E.
    + apply strip_by_idem.
Qed.

Lemma extract_english_words_spec (s w : text) :
  In w (extract_english_words s) ->
  w <> [] /\ clean_word w = w
  /\ (forall c, In c w ->
        In c s /\ isspace c = false /\ has_cp c (py ",،、~") = false)
  /\ isalpha w = true /\ forallb (fun c => (c <? 256)%N) w = true.
Proof.
  unfold extract_english_words. cbv zeta. intros H.
  apply in_flat_map in H. destruct H as (word & Hw & H).
  destruct (isalpha (clean_word word)
            && forallb (fun c => (c <? 256)%N) (clean_word word)) eqn:E;
    [|destruct H].
  destruct H as [<-|[]]. apply andb_prop in E. destruct E as [E1 E2].
  repeat split; trivial;
    try (eapply translated_word_chars; eassumption).
  - intros Hn. rewrite Hn in E1. discriminate.
  - apply strip_by_idem.
Qed.

Lemma multiline_line_words_spec (next_line w : text) :
  In w (multiline_line_words next_line) ->
  isalpha w = true /\ forallb (fun c => (c <? 128)%N) w = true
  /\ forallb (fun c => negb (isspace c)) w = true /\ clean_word w = w.
Proof.
  unfold multiline_line_words. cbv zeta. intros H.
  apply in_flat_map in H. destruct H as (word & Hw & H).
  destruct (isalpha (clean_word word)
            && forallb (fun c => (c <? 128)%N) (clean_word word)) eqn:E;
    [|destruct H].
  destruct H as [<-|[]]. apply andb_prop in E. destruct E as [E1 E2].
  repeat split; trivial.
  - eapply clean_field_no_space. exact Hw.
  - apply strip_by_idem.
Qed.
End TranslationProofs.

(** X21: every word [process_multilingual_translation] yields is not
    empty, has no punctuation at its ends, and consists of characters of
    the translation that are neither whitespace nor one of the separators
    the translation table replaces; a translation in double quotes yields
    nothing.  Devanagari text (after the table is applied) yields words of
    Devanagari characters only; otherwise Arabic text yields words holding
    an Arabic character, unless the translation holds a slash and a
    phonetic marker; otherwise CJK text yields words holding a CJK
    character, Cyrillic text words holding a Cyrillic character, and any
    other text alphabetic words below U+0100. *)
Theorem X21_multilingual_translation_words :
  forall (U : UnicodeDB) (translation w : text),
  In w (process_multilingual_translation translation) ->
  let cleaned := translate translation in
  (starts_with DQUOTE translation && ends_with DQUOTE translation) = false
  /\ w <> [] /\ clean_word w = w
  /\ (forall c, In c w ->
        In c translation /\ isspace c = false
        /\ has_cp c (py ",،、~") = false)
  /\ (contains_script cleaned "devanagari" = true ->
      forallb (fun c => is_script_character c "devanagari") w = true)
  /\ (contains_script cleaned "devanagari" = false ->
      (contains_script cleaned "arabic" = true ->
       contains_script w "arabic" = true
       /\ (in_ (py "/") translation && existsb ipa_marker translation)
          = false)
      /\ (contains_script cleaned "arabic" = false ->
          (contains_cjk cleaned = true -> contains_cjk w = true)
          /\ (contains_cjk cleaned = false ->
              (contains_script cleaned "cyrillic" = true ->
               contains_script w "cyrillic" = true)
              /\ (contains_script cleaned "cyrillic" = false ->
                  isalpha w = true
                  /\ forallb (fun c => (c <? 256)%N) w = true)))).
Proof.
  intros U t w H. cbv zeta.
  unfold process_multilingual_translation in H. cbv zeta in H.
  destruct (starts_with DQUOTE t && ends_with DQUOTE t); [destruct H|].
  split; [reflexivity|].
  assert (Hchars : forall s,
            (forall c, In c w ->
               In c (translate s) /\ isspace c = false
               /\ has_cp c (py ",،、~") = false) ->
            forall c, In c w ->
              In c s /\ isspace c = false
              /\ has_cp c (py ",،、~") = false).
  { intros s Hs c Hc. destruct (Hs c Hc) as (H1 & H2 & _).
    destruct (translate_In _ _ H1 H2). auto. }
  destruct (contains_script (translate t) "devanagari") eqn:Ed.
  { apply in_flat_map in H. destruct H as (word & Hw & H).
    destruct ((1 <=? length (clean_word word))
              && forallb (fun c => is_script_character c "devanagari")
                   (clean_word word)) eqn:E; [|destruct H].
    destruct H as [<-|[]]. apply andb_prop in E. destruct E as [E1 E2].
    apply Nat.leb_le in E1.
    repeat split; trivial; try discriminate;
      try (eapply translated_word_chars; eassumption).
    - intros Hn. rewrite Hn in E1. cbn in E1. lia.
    - apply strip_by_idem. }
  destruct (contains_script (translate t) "arabic") eqn:Ea.
  { destruct (in_ (py "/") t && existsb ipa_marker t) eqn:Ei; [destruct H|].
    apply extract_script_specific_words_spec in H.
    destruct H as (H1 & H2 & H3 & H4).
    repeat split; trivial; try discriminate; apply (Hchars t H3); trivial. }
  destruct (contains_cjk (translate t)) eqn:Ec.
  { apply extract_script_specific_words_spec in H.
    destruct H as (H1 & H2 & H3 & H4).
    repeat split; trivial; try discriminate; apply (Hchars t H3); trivial. }
  destruct (contains_script (translate t) "cyrillic") eqn:Ey.
  { apply extract_script_specific_words_spec in H.
    destruct H as (H1 & H2 & H3 & H4).
    repeat split; trivial; try discriminate; apply (Hchars t H3); trivial. }
  apply extract_english_words_spec in H.
  destruct H as (H1 & H2 & H3 & H4 & H5).
  repeat split; trivial; try discriminate; apply (Hchars t H3); trivial.
Qed.

Lemma X21_multilingual_translation_words_witness :
  @isalpha latin1_db (py "house") = true.
Proof.
  destruct (X21_multilingual_translation_words latin1_db
              (py "house, home") (py "house"))
    as (_ & _ & _ & _ & _ & H).
  - vm_compute. left. reflexivity.
  - destruct H as (_ & H); [reflexivity|].
    destruct H as (_ & H); [reflexivity|].
    destruct H as (_ & H); [reflexivity|].
    destruct H as (H & _); [reflexivity|exact H].
Defined.

Section MultilineTranslationProofs.
Context {U : UnicodeDB}.
Variable lines : list text.
Variable line_idx : Z.

Lemma getitem_int_In (k : Z) :
  (- Z.of_nat (length lines) <= k < Z.of_nat (length lines))%Z ->
  exists l, getitem_int lines k = Ok l /\ In l lines.
Proof.
  intros Hk. unfold getitem_int.
  assert (Hnth : forall i, i < length lines ->
            exists l, getitem lines i = Ok l /\ In l lines).
  { intros i Hi. exists (nth i lines []).
    split; [apply getitem_lt, Hi|apply nth_In, Hi]. }
  destruct (k <? 0)%Z eqn:E.
  - apply Z.ltb_lt in E.
    destruct (k + Z.of_nat (length lines) <? 0)%Z eqn:E2;
      [apply Z.ltb_lt in E2; lia|].
    apply Hnth. lia.
  - apply Z.ltb_ge in E. apply Hnth. lia.
Qed.

Lemma multiline_translation_loop_spec (js : list Z) :
  (forall j, In j js ->
     (- Z.of_nat (length lines) <= line_idx + j)%Z) ->
  exists ws,
    multiline_translation_loop lines line_idx js = Ok ws
    /\ Forall (fun w => isalpha w = true
                 /\ forallb (fun c => (c <? 128)%N) w = true
                 /\ forallb (fun c => negb (isspace c)) w = true
                 /\ clean_word w = w) ws
    /\ ((forall l, In l lines -> has_cp (ch "[") l = false) -> ws = []).
Proof.
  induction js as [|j js IH]; intros Hb.
  - exists []. repeat split; trivial.
  - cbn [multiline_translation_loop].
    destruct (Z.of_nat (length lines) <=? line_idx + j)%Z eqn:E.
    { exists []. repeat split; trivial. }
    apply Z.leb_gt in E.
    destruct (getitem_int_In (line_idx + j)%Z) as (l & -> & Hl).
    { split; [apply Hb; left; reflexivity|exact E]. }
    cbn [bind]. cbv zeta.
    destruct (is_empty (strip l)
              || negb (starts_with (py " ") (strip l)
                       || in_ (py "[") (strip l))) eqn:Ec.
    { apply IH. intros k Hk. apply Hb. right. exact Hk. }
    exists (multiline_line_words (strip l)). split; [reflexivity|]. split.
    + apply Forall_forall. intros w Hw.
      apply multiline_line_words_spec in Hw. exact Hw.
    + intros Hno. exfalso.
      apply orb_false_iff in Ec. destruct Ec as [_ Ec].
      apply negb_false_iff in Ec.
      pose proof (strip_no_leading_blank l) as Hs.
      cbn [existsb] in Hs. apply orb_false_iff in Hs. destruct Hs as [Hs _].
      rewrite Hs in Ec. cbn [orb] in Ec.
      change (py "[") with [ ch "[" ] in Ec. rewrite in_single in Ec.
      rewrite has_cp_strip in Ec by reflexivity.
      rewrite (Hno l Hl) in Ec. discriminate.
Qed.
End MultilineTranslationProofs.

(** X22: [extract_multiline_translation_words] raises [IndexError] exactly
    when [line_idx + 1] is below [-len(lines)]; otherwise it returns words
    that are alphabetic, ASCII, free of whitespace and without punctuation
    at their ends.  The lines are stripped before the test for a leading
    space, so only a line holding an opening square bracket contributes:
    when no line holds one, no word is returned. *)
Theorem X22_multiline_translation_words :
  forall (U : UnicodeDB) (lines : list text) (line_idx : Z),
  ((line_idx + 1 < - Z.of_nat (length lines))%Z ->
   extract_multiline_translation_words lines line_idx = Raise IndexError)
  /\ ((- Z.of_nat (length lines) <= line_idx + 1)%Z ->
      exists ws,
        extract_multiline_translation_words lines line_idx = Ok ws
        /\ Forall (fun w => isalpha w = true
                     /\ forallb (fun c => (c <? 128)%N) w = true
                     /\ forallb (fun c => negb (isspace c)) w = true
                     /\ clean_word w = w) ws
        /\ ((forall l, In l lines -> has_cp (ch "[") l = false) ->
            ws = [])).
Proof.
  intros U lines line_idx. split.
  - intros H. unfold extract_multiline_translation_words.
    cbn [multiline_translation_loop].
    destruct (Z.of_nat (length lines) <=? line_idx + 1)%Z eqn:E;
      [apply Z.leb_le in E; lia|].
    unfold getitem_int.
    destruct (line_idx + 1 <? 0)%Z eqn:E1; [|apply Z.ltb_ge in E1; lia].
    destruct (line_idx + 1 + Z.of_nat (length lines) <? 0)%Z eqn:E2;
      [reflexivity|apply Z.ltb_ge in E2; lia].
  - intros H. apply multiline_translation_loop_spec.
    intros j Hj. cbn in Hj. lia.
Qed.

Lemma X22_multiline_translation_words_witness :
  exists ws,
    @extract_multiline_translation_words latin1_db corpus_bracketed_label 0
    = Ok ws
    /\ Forall (fun w => forallb (fun c => (c <? 128)%N) w = true) ws.
Proof.
  destruct (X22_multiline_translation_words latin1_db
              corpus_bracketed_label 0) as (_ & H).
  destruct H as (ws & Hw & Hf & _); [vm_compute; discriminate|].
  exists ws. split; [exact Hw|].
  eapply Forall_impl; [|exact Hf]. intros w Hx. apply Hx.
Defined.

(* ===================================================================== *)
(** ** Every word is made of characters of a corpus line *)

Lemma replace_aux_In (old new : text) (c : cp) (s : text) :
  forall skip, In c (replace_aux old new skip s) -> In c s \/ In c new.
Proof.
  induction s as [|d s IH]; intros skip H; [destruct H|].
  cbn [replace_aux] in H. destruct skip as [|k].
  - destruct (starts_with old (d :: s)).
    + apply in_app_or in H. destruct H as [H|H]; [right; exact H|].
      destruct (IH _ H) as [H'|H']; [left; right; exact H'|right; exact H'].
    + destruct H as [<-|H]; [left; left; reflexivity|].
      destruct (IH _ H) as [H'|H']; [left; right; exact H'|right; exact H'].
  - destruct (IH _ H) as [H'|H']; [left; right; exact H'|right; exact H'].
Qed.

Lemma replace_space_In (old s : text) (c : cp) :
  In c (replace old (py " ") s) -> isspace c = false -> In c s.
Proof.
  intros H Hs. destruct (replace_aux_In _ _ _ _ _ H) as [H'|[<-|[]]];
    [exact H'|discriminate Hs].
Qed.

Lemma rstrip_by_In (p : cp -> bool) (s : text) (c : cp) :
  In c (rstrip_by p s) -> In c s.
Proof.
  intros H. destruct (rstrip_by_split p s) as (post & E & _).
  rewrite E. apply in_or_app. left. exact H.
Qed.

Section WordCharacters.
Context {U : UnicodeDB}.
Variable filters : pos_filters.

Lemma headword_chars (line w : text) (c : cp) :
  In w (pronunciation_headword line) -> In c w -> In c line.
Proof.
  unfold pronunciation_headword.
  destruct (extract_pronunciation_word line) as [word|] eqn:E; [|intros []].
  destruct (_ && _); [|intros []]. intros [<-|[]] Hc.
  destruct (extract_pronunciation_word_spec U line) as [_ H].
  destruct (H word E) as ((pre & post & rest & -> & _) & _).
  apply in_or_app. right. apply in_or_app. left. exact Hc.
Qed.

Lemma pattern_translation_chars (line w : text) (c : cp) :
  In w (pattern_translation_words line) -> In c w -> In c line.
Proof.
  unfold pattern_translation_words. cbv zeta. intros H Hc.
  apply in_flat_map in H. destruct H as (word & Hw & H).
  destruct (_ && _); [|destruct H]. destruct H as [<-|[]].
  apply strip_by_In in Hc.
  destruct (split_ws_fields _ _ Hw) as [_ Hf].
  destruct (Hf c Hc) as [Hin Hsp].
  apply replace_space_In in Hin; [|exact Hsp].
  apply replace_space_In in Hin; [|exact Hsp]. exact Hin.
Qed.

Lemma multiline_translation_chars (line w : text) (c : cp) :
  In w (multiline_translation_words line) -> In c w -> In c line.
Proof.
  unfold multiline_translation_words. cbv zeta. intros H Hc.
  apply in_flat_map in H. destruct H as (word & Hw & H).
  destruct (_ && _); [|destruct H]. destruct H as [<-|[]].
  apply strip_by_In in Hc.
  destruct (split_ws_fields _ _ Hw) as [_ Hf].
  destruct (Hf c Hc) as [Hin Hsp].
  apply replace_space_In in Hin; [|exact Hsp].
  apply replace_space_In in Hin; [|exact Hsp].
  apply replace_space_In in Hin; [|exact Hsp]. exact Hin.
Qed.

Lemma simple_source_chars (line w : text) (c : cp) :
  In w (simple_source_word filters line) -> In c w -> In c line.
Proof.
  intros H Hc. apply simple_source_word_ok in H.
  destruct H as (_ & -> & _). apply strip_by_In in Hc. exact Hc.
Qed.

Lemma simple_translation_chars (line w : text) (c : cp) :
  In w (extract_simple_translation_words line) -> In c w -> In c line.
Proof.
  unfold extract_simple_translation_words. cbv zeta. intros H Hc.
  apply in_flat_map in H. destruct H as (word & Hw & H).
  destruct (isalpha (clean_word word)); [|destruct H].
  destruct H as [<-|[]].
  destruct (translated_word_chars _ _ _ Hw Hc) as [Hin _]. exact Hin.
Qed.

Lemma yield_words_chars (line w : text) (script : string) (c : cp) :
  In w (_yield_words_by_script line script) -> In c w -> In c line.
Proof.
  unfold _yield_words_by_script. cbv zeta. intros H Hc.
  destruct (String.eqb script "cjk");
    apply in_flat_map in H; destruct H as (word & Hw & H);
    (destruct (_ && _); [|destruct H]); destruct H as [<-|[]];
    apply strip_by_In in Hc.
  - unfold re_split2 in Hw.
    destruct (re_split_aux_fields _ _ _ _ _ _ _ Hw Hc) as [[]|(Hin & _)].
    apply strip_by_In in Hin. exact Hin.
  - destruct (split_ws_fields _ _ Hw) as [_ Hf]. apply (Hf c Hc).
Qed.

Lemma script_detection_line_chars (role script : string) (l w : text)
    (c : cp) :
  In w (script_detection_line filters role script l) -> In c w -> In c l.
Proof.
  unfold script_detection_line. cbv zeta. intros H Hc.
  apply (strip_by_In isspace). fold (strip l).
  destruct (is_empty (strip l) || is_header_line (strip l)); [destruct H|].
  destruct (negb (should_include_word_by_pos (strip l) filters));
    [destruct H|].
  destruct (String.eqb role "source").
  - destruct (in_ (py "/") (strip l)).
    + eapply headword_chars; [exact H|exact Hc].
    + destruct (_ && _); [|destruct H]. destruct H as [<-|[]]. exact Hc.
  - destruct (in_strings script NON_LATIN_SCRIPTS).
    + destruct (_ || _); [|destruct H].
      eapply yield_words_chars; eassumption.
    + destruct (_ && _); [|destruct H]. destruct H as [<-|[]]. exact Hc.
Qed.

Variable lines : list text.

Lemma from_line_stripped (gen : text -> list text) (l w : text) :
  (forall line w c, In w (gen line) -> In c w -> In c line) ->
  In l lines -> In w (gen (strip l)) -> from_line lines w.
Proof.
  intros Hg Hl Hw. exists l. split; [exact Hl|].
  intros c Hc. apply (strip_by_In isspace). eapply Hg; eassumption.
Qed.

Lemma Forall_from_line_app (gen : text -> list text) (l : text)
    (words : list text) :
  (forall line w c, In w (gen line) -> In c w -> In c line) ->
  In l lines -> Forall (from_line lines) words ->
  Forall (from_line lines) (words ++ gen (strip l)).
Proof.
  intros Hg Hl Hw. apply Forall_app. split; [exact Hw|].
  apply Forall_forall. intros w Hin.
  eapply from_line_stripped; eassumption.
Qed.

Lemma pattern_words_loop_from_lines (role pattern : string) :
  forall idxs words r,
  Forall (from_line lines) words ->
  pattern_words_loop filters lines role pattern idxs words = Ok r ->
  Forall (from_line lines) r.
Proof.
  induction idxs as [|i idxs IH]; intros words r Hw H.
  - injection H as <-. exact Hw.
  - cbn [pattern_words_loop] in H.
    destruct (getitem lines i) as [l1|] eqn:E1; [|discriminate].
    destruct (getitem lines (i + 1)) as [l2|] eqn:E2; [|discriminate].
    apply getitem_In in E1, E2.
    cbn [bind] in H. cbv zeta in H.
    repeat match type of H with
           | context [if ?b then _ else _] => destruct b
           end;
      (eapply IH; [|exact H]); trivial;
      first [ apply (Forall_from_line_app pronunciation_headword);
              [exact headword_chars|assumption|assumption]
            | apply (Forall_from_line_app pattern_translation_words);
              [exact pattern_translation_chars|assumption|assumption] ].
Qed.

Lemma multiline_words_loop_from_lines (role : string) :
  forall fuel i words r,
  Forall (from_line lines) words ->
  multiline_words_loop filters fuel lines role i words = Ok r ->
  Forall (from_line lines) r.
Proof.
  induction fuel as [|fuel IH]; intros i words r Hw H;
    cbn [multiline_words_loop] in H;
    (destruct (i <? length lines - 2); [|injection H as <-; exact Hw]);
    [discriminate|].
  destruct (getitem lines i) as [l1|] eqn:E1; [|discriminate].
  destruct (getitem lines (i + 1)) as [l2|] eqn:E2; [|discriminate].
  destruct (getitem lines (i + 2)) as [l3|]; [|discriminate].
  apply getitem_In in E1, E2.
  cbn [bind] in H. cbv zeta in H.
  repeat match type of H with
         | context [if ?b then _ else _] => destruct b
         end;
    (eapply IH; [|exact H]); trivial;
    first [ apply (Forall_from_line_app pronunciation_headword);
            [exact headword_chars|assumption|assumption]
          | apply (Forall_from_line_app multiline_translation_words);
            [exact multiline_translation_chars|assumption|assumption] ].
Qed.

Lemma pattern_detection_from_lines (role pattern : string)
    (words : list text) :
  extract_words_with_pattern_detection filters lines role pattern
    = Ok words ->
  Forall (from_line lines) words.
Proof.
  unfold extract_words_with_pattern_detection,
    extract_multiline_format_words.
  destruct (detect_multiline_format lines) as [[|]|]; [| |discriminate];
    cbn [bind]; intros H.
  - eapply multiline_words_loop_from_lines; [constructor|exact H].
  - eapply pattern_words_loop_from_lines; [constructor|exact H].
Qed.

Lemma simple_format_words_from_lines (role : string) :
  forall n ls, length ls <= n -> incl ls lines ->
  Forall (from_line lines) (_extract_simple_format_words filters ls role).
Proof.
  induction n as [|n IH]; intros ls Hn Hi.
  - destruct ls; [constructor|cbn in Hn; lia].
  - destruct ls as [|l rest]; [constructor|].
    cbn [_extract_simple_format_words]. cbv zeta.
    assert (Hl : In l lines) by (apply Hi; left; reflexivity).
    assert (Hrest : incl rest lines)
      by (intros x Hx; apply Hi; right; exact Hx).
    cbn [length] in Hn.
    destruct (is_empty (strip l) || is_header_line (strip l));
      [apply IH; [lia|exact Hrest]|].
    apply Forall_app. split.
    + apply Forall_forall. intros w Hw.
      destruct (String.eqb role "source").
      * eapply (from_line_stripped (simple_source_word filters));
          [exact simple_source_chars|exact Hl|exact Hw].
      * destruct rest as [|l2 rest']; [destruct Hw|].
        cbn [hd] in Hw.
        destruct (negb (is_empty (strip l2))); [|destruct Hw].
        eapply (from_line_stripped extract_simple_translation_words);
          [exact simple_translation_chars| |exact Hw].
        apply Hrest. left. reflexivity.
    + destruct rest as [|l2 rest']; [constructor|].
      apply IH; [cbn [length] in Hn; lia|].
      intros x Hx. apply Hrest. right. exact Hx.
Qed.

Lemma header_skip_loop_from_lines (role : string) :
  forall fuel i words r,
  Forall (from_line lines) words ->
  header_skip_loop filters fuel lines role i words = Ok r ->
  Forall (from_line lines) r.
Proof.
  induction fuel as [|fuel IH]; intros i words r Hw H;
    cbn [header_skip_loop] in H;
    (destruct (i <? length lines - 1); [|injection H as <-; exact Hw]);
    [discriminate|].
  destruct (getitem lines i) as [l|] eqn:El; [|discriminate].
  destruct (getitem lines (i + 1)) as [n|] eqn:En; [|discriminate].
  apply getitem_In in El, En.
  cbn [bind] in H. cbv zeta in H.
  repeat match type of H with
         | context [if ?b then _ else _] => destruct b
         end;
    (eapply IH; [|exact H]); trivial;
    first [ apply (Forall_from_line_app (simple_source_word filters));
            [exact simple_source_chars|assumption|assumption]
          | apply (Forall_from_line_app extract_simple_translation_words);
            [exact simple_translation_chars|assumption|assumption] ].
Qed.

Lemma script_detection_from_lines (role script : string) :
  Forall (from_line lines)
    (extract_words_by_script_detection filters lines role script).
Proof.
  apply Forall_forall. intros w Hw.
  unfold extract_words_by_script_detection in Hw.
  apply in_flat_map in Hw. destruct Hw as (l & Hl & Hw).
  exists l. split; [exact Hl|].
  intros c Hc. eapply script_detection_line_chars; eassumption.
Qed.
End WordCharacters.

Lemma gzip_words_from_lines {U : UnicodeDB} (filters : pos_filters)
    (lines : list text) (role : string) (dz : bool) (words : list text) :
  extract_words_from_gzip_content filters lines role dz = Ok words ->
  Forall (from_line lines) words.
Proof.
  intros H.
  assert (F : Forall (from_line (map rstrip_nl lines)) words).
  { unfold extract_words_from_gzip_content in H. cbv zeta in H.
    revert H. generalize (map rstrip_nl lines). intros ls H.
    destruct (in_strings (detect_target_language_script ls 500) _).
    { injection H as <-. apply script_detection_from_lines. }
    destruct (detect_alternating_pattern ls) as [pattern|]; [|discriminate].
    cbn [bind] in H.
    destruct (in_strings pattern _).
    { destruct (dz && _); eapply pattern_detection_from_lines; exact H. }
    destruct (detect_simple_format ls) as [simple|]; [|discriminate].
    destruct (detect_multiline_format ls) as [multi|]; [|discriminate].
    cbn [bind] in H.
    destruct simple; [|destruct multi].
    - injection H as <-.
      apply (simple_format_words_from_lines filters ls role (length ls));
        [apply le_n|apply incl_refl].
    - unfold extract_multiline_format_words in H.
      eapply multiline_words_loop_from_lines; [constructor|exact H].
    - unfold _extract_with_header_skip in H.
      destruct (header_skip_start ls _) as [start|]; [|discriminate].
      cbn [bind] in H.
      eapply header_skip_loop_from_lines; [constructor|exact H]. }
  eapply Forall_impl; [|exact F].
  intros w (l' & Hl' & Hc). apply in_map_iff in Hl'.
  destruct Hl' as (l & <- & Hl). exists l. split; [exact Hl|].
  intros c Hcw. eapply rstrip_by_In. apply Hc. exact Hcw.
Qed.

(** X23: the pipeline invents no character: every word
    [extract_words_from_gzip_content] returns consists of characters of one
    line of the corpus, whatever the strategy the corpus is sent to. *)
Theorem X23_gzip_words_from_lines :
  forall (U : UnicodeDB) (filters : pos_filters) (lines : list text)
         (extract_language : string) (is_dz_file : bool) (words : list text),
  extract_words_from_gzip_content filters lines extract_language is_dz_file
    = Ok words ->
  forall w, In w words ->
    exists l, In l lines /\ forall c, In c w -> In c l.
Proof.
  intros U filters lines role dz words H w Hw.
  pose proof (gzip_words_from_lines filters lines role dz words H) as F.
  rewrite Forall_forall in F. exact (F w Hw).
Qed.

Lemma X23_gzip_words_from_lines_witness :
  exists l, In l corpus_two_lines /\ forall c, In c (py "def") -> In c l.
Proof.
  apply (X23_gzip_words_from_lines latin1_db POS_FILTERS corpus_two_lines
           "target" false [ py "abc"; py "def" ]).
  - vm_compute. reflexivity.
  - right. left. reflexivity.
Defined.

(* ===================================================================== *)
(** ** From the lines of a [.dict.dz] file to the two wordlists *)

Lemma gzip_content_returns {U : UnicodeDB} (filters : pos_filters)
    (lines : list text) (role : string) (dz : bool) :
  exists words,
    extract_words_from_gzip_content filters lines role dz = Ok words.
Proof.
  unfold extract_words_from_gzip_content.
  destruct (in_strings _ _); [eexists; reflexivity|].
  destruct (detect_alternating_pattern_total (map rstrip_nl lines))
    as [pattern Hp].
  rewrite Hp. cbn [bind].
  destruct (in_strings pattern _).
  - destruct (dz && _);
      apply extract_words_with_pattern_detection_total.
  - rewrite detect_simple_format_count, detect_multiline_format_count.
    cbn [bind].
    destruct (negb _ && _); [eexists; reflexivity|].
    destruct (5 <=? _).
    + apply extract_multiline_format_words_total.
    + apply _extract_with_header_skip_total.
Qed.




(* ===================================================================== *)
(** ** No pair of the corpus is lost by the pattern loop *)

Section PatternComplete.
Context {U : UnicodeDB}.
Variable filters : pos_filters.
Variable lines : list text.
Variables role pattern : string.

Lemma pattern_words_loop_incl :
  forall idxs words r,
  pattern_words_loop filters lines role pattern idxs words = Ok r ->
  incl words r.
Proof.
  induction idxs as [|i idxs IH]; intros words r H.
  - injection H as <-. apply incl_refl.
  - cbn [pattern_words_loop] in H.
    destruct (getitem lines i) as [l1|]; [|discriminate].
    destruct (getitem lines (i + 1)) as [l2|]; [|discriminate].
    cbn [bind] in H. cbv zeta in H.
    repeat match type of H with
           | context [if ?b then _ else _] => destruct b
           end;
      apply IH in H; try exact H;
      intros x Hx; apply H; apply in_or_app; left; exact Hx.
Qed.

Variable i : nat.
Variables l1 l2 : text.
Hypothesis line_i : nth_error lines i = Some l1.
Hypothesis line_next : nth_error lines (i + 1) = Some l2.
Hypothesis pair : pronunciation_pair (strip l1) (strip l2) = true.

Lemma pattern_words_loop_adds :
  forall idxs words r, In i idxs ->
  pattern_words_loop filters lines role pattern idxs words = Ok r ->
  ((pattern = "source-target"%string /\ role = "source"%string)
   \/ (pattern = "target-source"%string /\ role = "target"%string) ->
   should_include_word_by_pos (strip l1) filters = true ->
   incl (pronunciation_headword (strip l1)) r)
  /\ ((pattern = "source-target"%string /\ role = "target"%string)
      \/ (pattern = "target-source"%string /\ role = "source"%string) ->
      should_include_word_by_pos (strip l2) filters = true ->
      incl (pattern_translation_words (strip l2)) r).
Proof.
  induction idxs as [|j idxs IH]; intros words r Hin H; [destruct Hin|].
  cbn [pattern_words_loop] in H.
  destruct Hin as [->|Hin].
  - unfold getitem in H. rewrite line_i, line_next in H.
    cbn [bind] in H. cbv zeta in H.
    unfold pronunciation_pair in pair.
    apply andb_prop in pair. destruct pair as [P5 P6].
    apply andb_prop in P5. destruct P5 as [P4 P5].
    apply andb_prop in P4. destruct P4 as [P3 P4].
    apply andb_prop in P3. destruct P3 as [P2 P3].
    apply andb_prop in P2. destruct P2 as [P1 P2].
    apply negb_true_iff in P1, P2, P3, P4, P6.
    rewrite P1, P2, P3, P4, P5, P6 in H. cbn [orb andb negb] in H.
    split; intros [[Ep Er]|[Ep Er]] Hpos; rewrite Hpos in H;
      pose proof (f_equal (fun s => String.eqb s "source-target") Ep) as Q1;
      pose proof (f_equal (fun s => String.eqb s "target-source") Ep) as Q2;
      pose proof (f_equal (fun s => String.eqb s "source") Er) as Q3;
      pose proof (f_equal (fun s => String.eqb s "target") Er) as Q4;
      cbn in Q1, Q2, Q3, Q4; rewrite ?Q1, ?Q2, ?Q3, ?Q4 in H;
      cbn [andb negb] in H;
      apply pattern_words_loop_incl in H;
      intros x Hx; apply H; apply in_or_app; right; exact Hx.
  - destruct (getitem lines j) as [a|]; [|discriminate].
    destruct (getitem lines (j + 1)) as [b|]; [|discriminate].
    cbn [bind] in H. cbv zeta in H.
    repeat match type of H with
           | context [if ?b then _ else _] => destruct b
           end;
      eapply IH; eassumption.
Qed.
End PatternComplete.

(** X25: the pattern loop loses no pair.  In a corpus that is not in the
    multiline layout, let lines [i] and [i + 1] be, once stripped, a
    pronunciation line followed by a line without pronunciation markers,
    neither empty nor a header.  For the role the pattern gives the
    headwords to, and when line [i] passes the POS filter, its valid
    headword is among the words returned; for the other role, and when
    line [i + 1] passes the POS filter, every token of line [i + 1] is. *)
Theorem X25_pattern_pair_complete :
  forall (U : UnicodeDB) (filters : pos_filters) (lines : list text)
         (extract_language pattern : string) (i : nat) (l1 l2 : text)
         (words : list text),
  detect_multiline_format lines = Ok false ->
  nth_error lines i = Some l1 ->
  nth_error lines (i + 1) = Some l2 ->
  pronunciation_pair (strip l1) (strip l2) = true ->
  extract_words_with_pattern_detection filters lines extract_language pattern
    = Ok words ->
  ((pattern = "source-target"%string /\ extract_language = "source"%string)
   \/ (pattern = "target-source"%string
       /\ extract_language = "target"%string) ->
   should_include_word_by_pos (strip l1) filters = true ->
   forall w, extract_pronunciation_word (strip l1) = Some w ->
             is_valid_word w = true -> In w words)
  /\ ((pattern = "source-target"%string
       /\ extract_language = "target"%string)
      \/ (pattern = "target-source"%string
          /\ extract_language = "source"%string) ->
      should_include_word_by_pos (strip l2) filters = true ->
      forall w, In w (pattern_translation_words (strip l2)) -> In w words).
Proof.
  intros U filters lines role pattern i l1 l2 words Hm H1 H2 Hp H.
  unfold extract_words_with_pattern_detection in H.
  rewrite Hm in H. cbn [bind] in H.
  assert (Hi : In i (py_range 0 (length lines - 1))).
  { apply in_py_range.
    assert (i + 1 < length lines)
      by (apply nth_error_Some; congruence). lia. }
  destruct (pattern_words_loop_adds filters lines role pattern i l1 l2
              H1 H2 Hp _ _ _ Hi H) as [Ha Hb].
  split.
  - intros Hr Hpos w Hw Hv. apply (Ha Hr Hpos).
    unfold pronunciation_headword. rewrite Hw, Hv.
    assert (E : is_empty w = false)
      by (destruct w; [discriminate Hv|reflexivity]).
    rewrite E. left. reflexivity.
  - intros Hr Hpos w Hw. apply (Hb Hr Hpos). exact Hw.
Qed.

Lemma X25_pattern_pair_complete_witness :
  In (py "casa") [ py "casa"; py "casa"; py "casa" ].
Proof.
  destruct (X25_pattern_pair_complete latin1_db POS_FILTERS corpus60
              "source" "source-target" 50 casa_line house_line
              [ py "casa"; py "casa"; py "casa" ]) as [H _];
    try (vm_compute; reflexivity).
  apply H; try (vm_compute; reflexivity).
  left. split; reflexivity.
Defined.

(* ===================================================================== *)
(** ** A blank corpus *)

Lemma drop_while_all (p : cp -> bool) (s : text) :
  forallb p s = true -> drop_while p s = [].
Proof.
  induction s as [|c s IH]; [reflexivity|]. cbn [forallb drop_while].
  intros H. apply andb_prop in H. destruct H as [-> H]. apply IH, H.
Qed.

Lemma strip_blank (l : text) : forallb isspace l = true -> strip l = [].
Proof.
  intros H. unfold strip, strip_by, lstrip_by.
  rewrite (drop_while_all _ _ H). reflexivity.
Qed.

(** X26: a corpus in which every line is blank (empty or whitespace only)
    gives no words: [extract_words_from_gzip_content] returns the empty
    list for every role string and flag, and the [.dict.dz] processing
    writes neither file. *)
Theorem X26_blank_corpus :
  forall (U : UnicodeDB) (filters : pos_filters) (lines : list text)
         (extract_language : string) (is_dz_file : bool),
  (forall l, In l lines -> forallb isspace l = true) ->
  extract_words_from_gzip_content filters lines extract_language is_dz_file
  = Ok []
  /\ process_dictionary_file_dz filters lines = Ok ((None, 0), (None, 0)).
Proof.
  intros U filters lines role dz Hb.
  assert (Hall : forall ls r d,
            (forall l, In l ls -> forallb isspace l = true) ->
            extract_words_from_gzip_content filters ls r d = Ok []).
  { intros ls r d Hls.
    rewrite <- gzip_content_strip.
    destruct (gzip_content_returns filters (map strip ls) r d)
      as [words Hw].
    rewrite Hw. f_equal.
    pose proof (gzip_content_nonempty _ _ _ _ _ Hw) as Hne.
    pose proof (gzip_words_from_lines _ _ _ _ _ Hw) as Hfrom.
    destruct words as [|w ws]; [reflexivity|]. exfalso.
    inversion Hne as [|? ? Hw0 _]. inversion Hfrom as [|? ? Hf _]. subst.
    destruct Hf as (l' & Hl' & Hc).
    apply in_map_iff in Hl'. destruct Hl' as (l & <- & Hl).
    rewrite (strip_blank l (Hls l Hl)) in Hc.
    destruct w as [|c w]; [congruence|].
    exact (Hc c (or_introl eq_refl)). }
  split; [apply Hall, Hb|].
  unfold process_dictionary_file_dz. cbv zeta.
  assert (Hb' : forall l, In l (map rstrip_nl lines) ->
                  forallb isspace l = true).
  { intros l' Hl'. apply in_map_iff in Hl'. destruct Hl' as (l & <- & Hl).
    apply forallb_forall. intros c Hc. apply rstrip_by_In in Hc.
    specialize (Hb l Hl). rewrite forallb_forall in Hb. apply Hb, Hc. }
  rewrite !(Hall _ _ _ Hb'). reflexivity.
Qed.

Lemma X26_blank_corpus_witness :
  @extract_words_from_gzip_content latin1_db POS_FILTERS
    [ py "  "; []; [ 9; 10 ]%N ] "source" false
  = Ok [].
Proof.
  apply (X26_blank_corpus latin1_db POS_FILTERS [ py "  "; []; [ 9; 10 ]%N ]
           "source" false).
  intros l Hl.
  repeat (destruct Hl as [<-|Hl]; [reflexivity|]). destruct Hl.
Defined.

(* ===================================================================== *)
(** ** Base types of a POS tag *)

Lemma ascii_lower_not_upper (c : cp) :
  ascii_upper_letter (ascii_lower c) = false.
Proof.
  unfold ascii_lower. destruct (ascii_upper_letter c) eqn:E; [|exact E].
  unfold ascii_upper_letter in *. apply cp_between_true in E.
  apply cp_between_false. lia.
Qed.

Lemma lower_ascii {U : UnicodeDB} (s : text) :
  forallb is_ascii s = true -> lower s = map ascii_lower s.
Proof.
  intros H. unfold lower.
  replace (forallb (fun c => is_ascii c || is_caseless_modifier c) s)
    with true; [reflexivity|].
  symmetry. apply forallb_forall. intros c Hc.
  rewrite forallb_forall in H. rewrite (H c Hc). reflexivity.
Qed.

(** X27: every type [extract_base_pos_types] returns is one of the known
    base or extended types.  For an ASCII tag each returned type is the
    stripped lower-case form of a field of the tag and holds no upper-case
    letter, so the extended type ['phraseologicalUnit'], which is compared
    with lower-cased text, is never returned. *)
Theorem X27_base_pos_types :
  forall (U : UnicodeDB) (pos_tag t : text),
  In t (extract_base_pos_types pos_tag) ->
  mem t base_pos_types || mem t extended_pos_types = true
  /\ (forallb is_ascii pos_tag = true ->
      (exists part,
          In part (re_split (fun c => (c =? ch ",")%N || isspace c)
                     (strip pos_tag))
          /\ t = strip (map ascii_lower part))
      /\ forallb (fun c => negb (ascii_upper_letter c)) t = true
      /\ t <> py "phraseologicalUnit").
Proof.
  intros U pos_tag t H. unfold extract_base_pos_types in H. cbv zeta in H.
  apply in_flat_map in H. destruct H as (part & Hp & H).
  assert (Ht : t = strip (lower part)
               /\ mem t base_pos_types || mem t extended_pos_types = true).
  { destruct (mem (strip (lower part)) base_pos_types) eqn:E1.
    - destruct H as [<-|[]]. rewrite E1. split; reflexivity.
    - destruct (mem (strip (lower part)) extended_pos_types) eqn:E2;
        [|destruct H].
      destruct H as [<-|[]]. rewrite E2. split; [reflexivity|].
      apply orb_true_r. }
  destruct Ht as [Ht Hm]. split; [exact Hm|].
  intros Ha.
  assert (Hpart : forallb is_ascii part = true).
  { apply forallb_forall. intros c Hc. unfold re_split, re_split2 in Hp.
    destruct (re_split_aux_fields _ _ _ _ _ _ _ Hp Hc) as [[]|(Hin & _)].
    apply strip_by_In in Hin. rewrite forallb_forall in Ha. apply Ha, Hin. }
  rewrite (lower_ascii part Hpart) in Ht.
  assert (Hup : forallb (fun c => negb (ascii_upper_letter c)) t = true).
  { apply forallb_forall. intros c Hc. subst t. apply strip_by_In in Hc.
    apply in_map_iff in Hc. destruct Hc as (d & <- & _).
    rewrite ascii_lower_not_upper. reflexivity. }
  split; [exists part; split; assumption|]. split; [exact Hup|].
  intros E. rewrite E in Hup. discriminate Hup.
Qed.

Lemma X27_base_pos_types_witness :
  py "n" <> py "phraseologicalUnit".
Proof.
  destruct (X27_base_pos_types latin1_db (py "N, masc") (py "n"))
    as (_ & H).
  - vm_compute. left. reflexivity.
  - destruct H as (_ & _ & H); [reflexivity|exact H].
Defined.

(* ===================================================================== *)
(** ** The windows of the pair detectors *)

Section DetectorWindows.
Context {U : UnicodeDB}.
Variables lines1 lines2 : list text.

Lemma alternating_loop_ext :
  forall idxs samples,
  (forall i, In i idxs ->
     getitem lines1 i = getitem lines2 i
     /\ getitem lines1 (i + 1) = getitem lines2 (i + 1)) ->
  alternating_loop lines1 idxs samples = alternating_loop lines2 idxs samples.
Proof.
  induction idxs as [|i idxs IH]; intros samples H; [reflexivity|].
  cbn [alternating_loop].
  destruct (H i (or_introl eq_refl)) as [-> ->].
  destruct (getitem lines2 i) as [l1|]; [|reflexivity].
  destruct (getitem lines2 (i + 1)) as [l2|]; [|reflexivity].
  cbn [bind]. cbv zeta.
  assert (H' : forall j, In j idxs ->
             getitem lines1 j = getitem lines2 j
             /\ getitem lines1 (j + 1) = getitem lines2 (j + 1))
    by (intros j Hj; apply H; right; exact Hj).
  rewrite !(IH _ H'). reflexivity.
Qed.

Lemma detect_multiline_loop_ext :
  forall idxs n,
  (forall i, In i idxs ->
     getitem lines1 i = getitem lines2 i
     /\ getitem lines1 (i + 1) = getitem lines2 (i + 1)
     /\ getitem lines1 (i + 2) = getitem lines2 (i + 2)) ->
  detect_multiline_loop lines1 idxs n = detect_multiline_loop lines2 idxs n.
Proof.
  induction idxs as [|i idxs IH]; intros n H; [reflexivity|].
  cbn [detect_multiline_loop].
  destruct (H i (or_introl eq_refl)) as (-> & -> & ->).
  destruct (getitem lines2 i) as [l1|]; [|reflexivity].
  destruct (getitem lines2 (i + 1)) as [l2|]; [|reflexivity].
  destruct (getitem lines2 (i + 2)) as [l3|]; [|reflexivity].
  cbn [bind]. cbv zeta.
  assert (H' : forall j, In j idxs ->
             getitem lines1 j = getitem lines2 j
             /\ getitem lines1 (j + 1) = getitem lines2 (j + 1)
             /\ getitem lines1 (j + 2) = getitem lines2 (j + 2))
    by (intros j Hj; apply H; right; exact Hj).
  rewrite !(IH _ H'). reflexivity.
Qed.
End DetectorWindows.

(** X28: [detect_alternating_pattern] and [detect_multiline_format] read
    the lines at indices 50 to 200 only: two corpora of the same length
    that agree on these lines get the same answers, whatever their first
    50 lines and their lines after index 200 are. *)
Theorem X28_detector_windows :
  forall (U : UnicodeDB) (lines1 lines2 : list text),
  length lines1 = length lines2 ->
  (forall i, 50 <= i <= 200 -> nth_error lines1 i = nth_error lines2 i) ->
  detect_alternating_pattern lines1 = detect_alternating_pattern lines2
  /\ detect_multiline_format lines1 = detect_multiline_format lines2.
Proof.
  intros U lines1 lines2 Hlen H.
  assert (Hg : forall i, 50 <= i <= 200 ->
            getitem lines1 i = getitem lines2 i).
  { intros i Hi. unfold getitem. rewrite (H i Hi). reflexivity. }
  split.
  - unfold detect_alternating_pattern. rewrite Hlen.
    rewrite (alternating_loop_ext lines1 lines2); [reflexivity|].
    intros i Hi. apply in_py_range in Hi. split; apply Hg; lia.
  - unfold detect_multiline_format. rewrite Hlen.
    apply detect_multiline_loop_ext.
    intros i Hi. apply in_py_range in Hi. repeat split; apply Hg; lia.
Qed.

Lemma X28_detector_windows_witness :
  @detect_alternating_pattern latin1_db corpus60_retitled
  = @detect_alternating_pattern latin1_db corpus60.
Proof.
  apply (X28_detector_windows latin1_db corpus60_retitled corpus60).
  - reflexivity.
  - intros i Hi. destruct i as [|i]; [lia|]. reflexivity.
Defined.

(* ===================================================================== *)
(** * The simple layout *)

Lemma map_strip_rstrip_nl (lines : list text) :
  map strip (map rstrip_nl lines) = map strip lines.
Proof. rewrite map_map. apply map_ext. exact strip_rstrip_nl. Qed.

Lemma detect_simple_format_rstrip_nl {U : UnicodeDB} (lines : list text) :
  detect_simple_format (map rstrip_nl lines) = detect_simple_format lines.
Proof.
  rewrite <- (detect_simple_format_strip (map rstrip_nl lines)).
  rewrite map_strip_rstrip_nl. apply detect_simple_format_strip.
Qed.

Lemma _extract_simple_format_words_rstrip_nl {U : UnicodeDB}
    (filters : pos_filters) (lines : list text) (role : string) :
  _extract_simple_format_words filters (map rstrip_nl lines) role
  = _extract_simple_format_words filters lines role.
Proof.
  rewrite <- (_extract_simple_format_words_strip filters role
                (length (map rstrip_nl lines)) (map rstrip_nl lines))
    by apply le_n.
  rewrite map_strip_rstrip_nl.
  apply (_extract_simple_format_words_strip filters role (length lines)).
  apply le_n.
Qed.

(** C6, as amended: when no line among the first 200 holds a slash, an
    opening and a closing angle bracket together, and at least three
    indices [i] of the window (50 <= i < 400 with line [i + 1] in the
    corpus) hold a stripped line that qualifies as the claim lists and does
    not end in a colon, [detect_simple_format] returns [True]; and the
    simple layout is selected, that is [extract_words_from_gzip_content]
    returns the words of [_extract_simple_format_words], when moreover the
    two checks the pipeline makes first let the corpus through: the document
    script is Latin and [detect_alternating_pattern] answers ['unknown']. *)
Theorem C6_simple_detection :
  forall (U : UnicodeDB) (filters : pos_filters) (lines : list text),
  has_pronunciation_pos lines = false ->
  3 <= length
         (filter
            (fun i => claimed_simple_qualifies_at lines i
                      && negb (ends_with (py ":") (stripped_at lines i)))
            (simple_window lines)) ->
  detect_simple_format lines = Ok true
  /\ (forall i, In i (simple_window lines) <->
                50 <= i < 400 /\ i + 1 < length lines)
  /\ (detect_target_language_script lines 500 = "latin"%string ->
      detect_alternating_pattern lines = Ok "unknown"%string ->
      forall (extract_language : string) (is_dz_file : bool),
        extract_words_from_gzip_content filters lines extract_language
          is_dz_file
        = Ok (_extract_simple_format_words filters lines extract_language)).
Proof.
  intros U filters lines Hg Hc.
  assert (Hs : detect_simple_format lines = Ok true).
  { rewrite detect_simple_format_count, Hg.
    rewrite (filter_ext (simple_qualifies_at lines)
               (fun i => claimed_simple_qualifies_at lines i
                         && negb (ends_with (py ":") (stripped_at lines i)))).
    + apply Nat.leb_le in Hc. rewrite Hc. reflexivity.
    + intros i. apply simple_qualifies_claimed. }
  split; [exact Hs|]. split.
  - intros i. unfold simple_window. rewrite in_py_range. lia.
  - intros Hl Hp role dz. unfold extract_words_from_gzip_content.
    rewrite detect_target_language_script_rstrip_nl, Hl,
      detect_alternating_pattern_rstrip_nl, Hp.
    cbn [in_strings existsb String.eqb Ascii.eqb Bool.eqb orb bind].
    rewrite detect_simple_format_rstrip_nl, Hs,
      detect_multiline_format_count.
    cbn [bind]. rewrite _extract_simple_format_words_rstrip_nl.
    reflexivity.
Qed.

Lemma C6_simple_detection_witness :
  @detect_simple_format latin1_db corpus_short_words = Ok true
  /\ @extract_words_from_gzip_content latin1_db POS_FILTERS
       corpus_short_words "source" false
     = Ok [ py "ab"; py "ab"; py "ab" ].
Proof.
  destruct (C6_simple_detection latin1_db POS_FILTERS corpus_short_words)
    as (H1 & _ & H2).
  - reflexivity.
  - vm_compute. lia.
  - split; [exact H1|]. rewrite H2; reflexivity.
Defined.

(** C6 as stated fails in four ways.  A line with a slash and both angle
    brackets among the first 200 makes the detector answer [False] whatever
    follows; hyphen-initial lines that end in a colon pass the claim's test
    but not the detector's.  And a [True] of the detector does not select
    the simple layout by itself: a corpus of pronunciation lines and
    translations, three of which qualify, is extracted by the alternating
    pattern, and a corpus of short Cyrillic words by its script; in both
    the words returned are not those of [_extract_simple_format_words]. *)
Lemma C6_simple_counterexample :
  (3 <= length (filter (@claimed_simple_qualifies_at latin1_db corpus_gated)
                  (simple_window corpus_gated))
   /\ @detect_simple_format latin1_db corpus_gated = Ok false)
  /\ (3 <= length (filter
                     (@claimed_simple_qualifies_at latin1_db
                        corpus_hyphen_colon)
                     (simple_window corpus_hyphen_colon))
      /\ @detect_simple_format latin1_db corpus_hyphen_colon = Ok false)
  /\ (3 <= length (filter
                     (@claimed_simple_qualifies_at latin1_db
                        corpus_casa_house_pairs)
                     (simple_window corpus_casa_house_pairs))
      /\ @detect_simple_format latin1_db corpus_casa_house_pairs = Ok true
      /\ @detect_alternating_pattern latin1_db corpus_casa_house_pairs
         = Ok "source-target"%string
      /\ @extract_words_from_gzip_content latin1_db POS_FILTERS
           corpus_casa_house_pairs "source" false
         = Ok (repeat (py "casa") 4)
      /\ @_extract_simple_format_words latin1_db POS_FILTERS
           corpus_casa_house_pairs "source" = [])
  /\ (3 <= length (filter
                     (@claimed_simple_qualifies_at latin1_db
                        corpus_cyrillic_short_words)
                     (simple_window corpus_cyrillic_short_words))
      /\ @detect_simple_format latin1_db corpus_cyrillic_short_words
         = Ok true
      /\ detect_target_language_script corpus_cyrillic_short_words 500
         = "cyrillic"%string
      /\ @extract_words_from_gzip_content latin1_db POS_FILTERS
           corpus_cyrillic_short_words "source" false
         = Ok []
      /\ @_extract_simple_format_words latin1_db POS_FILTERS
           corpus_cyrillic_short_words "source"
         = repeat (py "дом") 3).
Proof.
  repeat split; try reflexivity; vm_compute; lia.
Qed.
